(** * libtrellis/src/Database.cpp: device database resolution and caching

    A shallow embedding of the device catalogue lookups, the two globals
    loaders, the tile-grid cache and the tile bit-database cache of
    [Database.cpp], together with the properties the database layer is
    expected to have.

    Conventions of the embedding.
    - A C++ exception, an [assert] that aborts and undefined behaviour are
      the [Err] results of the [result] type; every function that can throw
      returns a [result].  Assertions are active (NDEBUG is not defined).
    - The static variables of the translation unit ([db_root],
      [devices_info], [tilegrid_cache], [bitdb_store]) are the fields of
      [db_state], threaded explicitly.  A function body that runs under a
      [lock_guard] is one atomic state transition, so that calls from
      several threads amount to some sequence of calls.
    - The file system is an argument of every call that reads a file, so it
      may differ from one call to the next.
    - [int] is a [Z] within [int_min .. int_max]; [uint32_t] and [size_t]
      are [Z] reduced modulo [2^32] and [2^64]; [unsigned long] has 64 bits.
    - [boost::property_tree::ptree], [std::stoi], [strtoul] and
      [std::to_string] are modelled by what they compute on strings. *)

From Stdlib Require Import ZArith String Ascii List Lia Bool.
From stdpp Require Import base option gmap strings list.

Local Open Scope Z_scope.

(** ** Exceptions and results *)

Inductive exn : Type :=
| ptree_bad_path        (* boost::property_tree::ptree_bad_path *)
| ptree_bad_data        (* boost::property_tree::ptree_bad_data *)
| json_parser_error     (* pt::read_json: unreadable or malformed file *)
| runtime_error (what : string)  (* std::runtime_error *)
| invalid_argument      (* std::stoi: no conversion *)
| out_of_range          (* std::stoi range error, std::string::substr *)
| bitdb_error           (* whatever the TileBitDatabase constructor throws *)
| assertion_failed      (* assert(...) evaluated to false: abort() *)
| undefined_behaviour.  (* past-the-end dereference, vector index out of
                           bounds, signed overflow *)

Inductive result (A : Type) : Type :=
| Ok (a : A)
| Err (e : exn).
Arguments Ok {A} a.
Arguments Err {A} e.

Definition bind {A B} (r : result A) (k : A -> result B) : result B :=
  match r with
  | Ok a => k a
  | Err e => Err e
  end.

Notation "x <- c1 ;; c2" := (bind c1 (fun x => c2))
  (at level 100, c1 at next level, right associativity).

(** [assert(b)] *)
Definition assert (b : bool) : result unit :=
  if b then Ok tt else Err assertion_failed.

Definition is_ok {A} (r : result A) : bool :=
  match r with Ok _ => true | Err _ => false end.

(** A range-for loop whose body computes one element and [push_back]s it:
    elements are processed in order and the first exception ends the loop. *)
Fixpoint for_each {A B} (body : A -> result B) (l : list A) : result (list B) :=
  match l with
  | [] => Ok []
  | x :: l' =>
      y <- body x ;;
      ys <- for_each body l' ;;
      Ok (y :: ys)
  end.

(** ** Machine integers *)

Definition int_min : Z := - 2 ^ 31.
Definition int_max : Z := 2 ^ 31 - 1.
Definition in_int (z : Z) : bool := (int_min <=? z) && (z <=? int_max).

Definition ulong_bits : Z := 64.            (* unsigned long, LP64 *)
Definition ULONG_MAX : Z := 2 ^ ulong_bits - 1.
Definition to_uint32 (z : Z) : Z := z mod 2 ^ 32.     (* uint32_t(z) *)
Definition to_size_t (z : Z) : Z := z mod 2 ^ 64.     (* size_t(z) *)

(** ** Characters and numerals of the C library *)

Definition code (c : ascii) : Z := Z.of_nat (nat_of_ascii c).

(** [isspace] in the "C" locale: space, \t, \n, \v, \f, \r. *)
Definition isspace (c : ascii) : bool :=
  (code c =? 32) || ((9 <=? code c) && (code c <=? 13)).

(** Value of [c] as a digit (0-9, a-z, A-Z as 10..35), as [strtoul] reads it. *)
Definition digit_val (c : ascii) : option Z :=
  let n := code c in
  if (48 <=? n) && (n <=? 57) then Some (n - 48)
  else if (97 <=? n) && (n <=? 122) then Some (n - 97 + 10)
  else if (65 <=? n) && (n <=? 90) then Some (n - 65 + 10)
  else None.

Definition digit_in (base : Z) (c : ascii) : option Z :=
  match digit_val c with
  | Some d => if d <? base then Some d else None
  | None => None
  end.

Fixpoint skip_ws (s : string) : string :=
  match s with
  | String c s' => if isspace c then skip_ws s' else s
  | EmptyString => s
  end.

(** Optional sign: [true] when a minus sign was consumed. *)
Definition read_sign (s : string) : bool * string :=
  match s with
  | String "-" s' => (true, s')
  | String "+" s' => (false, s')
  | _ => (false, s)
  end.

(** Longest prefix of digits valid in [base]: the number of digits consumed,
    their value from accumulator [acc], and the unread rest. *)
Fixpoint read_digits (base : Z) (s : string) (n : nat) (acc : Z)
  : nat * Z * string :=
  match s with
  | String c s' =>
      match digit_in base c with
      | Some d => read_digits base s' (S n) (acc * base + d)
      | None => (n, acc, s)
      end
  | EmptyString => (n, acc, s)
  end.

(** Base detection of [strtoul(_, _, 0)]: [0x]/[0X] followed by a hex digit
    selects base 16, any other leading [0] base 8, anything else base 10. *)
Definition detect_base (s : string) : Z * string :=
  match s with
  | String "0" (String x (String h s')) =>
      if ((code x =? 120) || (code x =? 88)) && bool_decide (is_Some (digit_in 16 h))
      then (16, String h s')
      else (8, s)
  | String "0" _ => (8, s)
  | _ => (10, s)
  end.

(** [strtoul(str, nullptr, 0)].  The scan stops at the first character that
    is not part of the numeral, a NUL included, so the result on
    [str.c_str()] is the result on [str].  Without digits the value is 0; a
    magnitude above [ULONG_MAX] yields [ULONG_MAX]; a minus sign negates
    modulo [2^ulong_bits]. *)
Definition strtoul0 (str : string) : Z :=
  let '(neg, s1) := read_sign (skip_ws str) in
  let '(base, s2) := detect_base s1 in
  let '(n, v, _) := read_digits base s2 0%nat 0 in
  match n with
  | O => 0
  | _ => if ULONG_MAX <? v then ULONG_MAX
         else if neg then (- v) mod 2 ^ ulong_bits else v
  end.

(** [std::stoi(str)]: [strtol] in base 10, [invalid_argument] without
    digits, [out_of_range] outside [int]. *)
Definition stoi (str : string) : result Z :=
  let '(neg, s1) := read_sign (skip_ws str) in
  let '(n, v, _) := read_digits 10 s1 0%nat 0 in
  match n with
  | O => Err invalid_argument
  | _ => let z := if neg then - v else v in
         if in_int z then Ok z else Err out_of_range
  end.

(** Formatted extraction of an [int] followed by the end-of-input test of
    the property tree's stream translator: leading white space, optional
    sign, decimal digits, then nothing but white space. *)
Definition stream_int (str : string) : option Z :=
  let '(neg, s1) := read_sign (skip_ws str) in
  let '(n, v, rest) := read_digits 10 s1 0%nat 0 in
  match n with
  | O => None
  | _ => let z := if neg then - v else v in
         if in_int z && bool_decide (skip_ws rest = EmptyString)
         then Some z else None
  end.

(** [std::to_string(int)]: an [int] has at most ten decimal digits. *)
Definition digit_char (d : Z) : ascii := ascii_of_nat (Z.to_nat (48 + d)).

Fixpoint to_digits (fuel : nat) (z : Z) (acc : string) : string :=
  match fuel with
  | O => acc
  | S fuel' =>
      let acc' := String (digit_char (z mod 10)) acc in
      if z <? 10 then acc' else to_digits fuel' (z / 10) acc'
  end.

Definition to_string (z : Z) : string :=
  if z <? 0 then String "-" (to_digits 10 (- z) EmptyString)
  else to_digits 10 z EmptyString.

(** ** uint32_t parse_uint32(string str) *)

Definition parse_uint32 (str : string) : Z := to_uint32 (strtoul0 str).

(** ** boost::property_tree::ptree

    A node carries a data string and an ordered sequence of (key, child)
    pairs; keys may repeat.  [pt::read_json] stores every JSON scalar as the
    data string of a leaf and every object member, in file order, as a child. *)

#[warnings="-register-all"]
Inductive ptree : Type :=
| PTree (data : string) (children : list (string * ptree)).

Definition data (t : ptree) : string :=
  match t with PTree d _ => d end.

Definition children (t : ptree) : list (string * ptree) :=
  match t with PTree _ c => c end.

(** [find(key)]: the first child stored under [key]. *)
Fixpoint ptree_find (key : string) (kids : list (string * ptree)) : option ptree :=
  match kids with
  | [] => None
  | (k, t) :: kids' => if String.eqb k key then Some t else ptree_find key kids'
  end.

(** A path string is cut at every '.'; the empty path has no fragment and a
    separator that ends the path opens no further fragment. *)
Fixpoint split_path (s : string) : list string :=
  match s with
  | EmptyString => []
  | String c s' =>
      if Ascii.eqb c "." then EmptyString :: split_path s'
      else match split_path s' with
           | [] => [String c EmptyString]
           | fragment :: rest => String c fragment :: rest
           end
  end.

Fixpoint walk_path (p : list string) (t : ptree) : option ptree :=
  match p with
  | [] => Some t
  | fragment :: p' =>
      match ptree_find fragment (children t) with
      | Some el => walk_path p' el
      | None => None
      end
  end.

Definition get_child (path : string) (t : ptree) : result ptree :=
  match walk_path (split_path path) t with
  | Some c => Ok c
  | None => Err ptree_bad_path
  end.

(** [get_value<int>()] *)
Definition get_value_int (t : ptree) : result Z :=
  match stream_int (data t) with
  | Some z => Ok z
  | None => Err ptree_bad_data
  end.

(** [get<int>(path)] and [get<string>(path)] *)
Definition get_int (path : string) (t : ptree) : result Z :=
  c <- get_child path t ;; get_value_int c.

Definition get_string (path : string) (t : ptree) : result string :=
  c <- get_child path t ;; Ok (data c).

(** ** Schema records

    Modelled from the spec: the struct declarations of Chip.hpp, Tile.hpp
    and Database.hpp are not in Database.cpp.  Each record has the fields
    that Database.cpp assigns, with the types section 3 of the specification
    gives them ([int] for counts and coordinates, a 32-bit idcode, [size_t]
    for the sizes and offsets of a tile); locators are compared by value. *)

Module DeviceLocator.
Record t : Type := mk { family : string; device : string }.
#[global] Instance eq_dec : EqDecision t.
Proof. solve_decision. Defined.
End DeviceLocator.

(** Key of [bitdb_store], compared field by field. *)
Module TileLocator.
Record t : Type := mk { family : string; tiletype : string }.
#[global] Instance eq_dec : EqDecision t.
Proof. solve_decision. Defined.
#[global] Instance countable : Countable t.
Proof.
  apply (inj_countable' (fun x => (family x, tiletype x))
                        (fun p => mk (fst p) (snd p))).
  intros []; reflexivity.
Defined.
End TileLocator.

Module ChipInfo.
Record t : Type := mk {
  family : string;
  name : string;
  num_frames : Z;
  bits_per_frame : Z;
  pad_bits_after_frame : Z;
  pad_bits_before_frame : Z;
  idcode : Z;
  max_row : Z;
  max_col : Z;
  col_bias : Z
}.
End ChipInfo.

Module SiteInfo.
Record t : Type := mk { type : string; col : Z; row : Z }.
End SiteInfo.

Module TileInfo.
Record t : Type := mk {
  family : string;
  device : string;
  max_col : Z;
  max_row : Z;
  col_bias : Z;
  name : string;
  num_frames : Z;
  bits_per_frame : Z;
  bit_offset : Z;
  frame_offset : Z;
  type : string;
  sites : list SiteInfo.t
}.
End TileInfo.

Module GlobalRegion.
Record t : Type := mk { name : string; x0 : Z; x1 : Z; y0 : Z; y1 : Z }.
End GlobalRegion.

Module TapSegment.
Record t : Type := mk { tap_col : Z; lx0 : Z; lx1 : Z; rx0 : Z; rx1 : Z }.
End TapSegment.

Module SpineSegment.
Record t : Type := mk {
  quadrant : string; tap_col : Z; spine_row : Z; spine_col : Z
}.
End SpineSegment.

Module Ecp5GlobalsInfo.
Record t : Type := mk {
  quadrants : list GlobalRegion.t;
  tapsegs : list TapSegment.t;
  spinesegs : list SpineSegment.t
}.
End Ecp5GlobalsInfo.

Module LeftRightConn.
Record t : Type := mk { name : string; row : Z; row_span : Z * Z }.
End LeftRightConn.

Module MissingDccs.
Record t : Type := mk { row : Z; missing : list Z }.
End MissingDccs.

Module MachXO2GlobalsInfo.
Record t : Type := mk {
  lr_conns : list LeftRightConn.t;
  ud_conns : list (list Z);
  branch_spans : list (list (Z * Z));
  missing_dccs : list MissingDccs.t
}.
End MachXO2GlobalsInfo.

(** ** The translation unit's state and its functions *)

Section Database.

(** The bit-pattern database class (BitDatabase.hpp) and the hexadecimal
    printer of Util.hpp are outside this file; both are taken as given. *)
Variable TileBitDatabase : Type.
Variable uint32_to_hexstr : Z -> string.

(** The files a call can see: [pt::read_json(path, _)] and the constructor
    [TileBitDatabase(path)], each of which either yields a value or throws. *)
Record filesystem : Type := {
  read_json : string -> result ptree;
  new_TileBitDatabase : string -> result TileBitDatabase
}.

(** A [shared_ptr<TileBitDatabase>] is the address of the object it owns;
    the object allocated n-th lives at address n of [heap]. *)
Definition shared_ptr : Type := nat.

Record db_state : Type := {
  db_root : string;
  devices_info : ptree;
  tilegrid_cache : gmap string ptree;
  bitdb_store : gmap TileLocator.t shared_ptr;
  heap : list TileBitDatabase
}.

Definition set_db_root (root : string) (st : db_state) : db_state :=
  {| db_root := root; devices_info := devices_info st;
     tilegrid_cache := tilegrid_cache st; bitdb_store := bitdb_store st;
     heap := heap st |}.

Definition set_devices_info (t : ptree) (st : db_state) : db_state :=
  {| db_root := db_root st; devices_info := t;
     tilegrid_cache := tilegrid_cache st; bitdb_store := bitdb_store st;
     heap := heap st |}.

Definition set_tilegrid_cache (c : gmap string ptree) (st : db_state) : db_state :=
  {| db_root := db_root st; devices_info := devices_info st;
     tilegrid_cache := c; bitdb_store := bitdb_store st; heap := heap st |}.

(** [bitdb_store[tile] = bitdb] for a freshly allocated object [db]. *)
Definition store_new_bitdb (tile : TileLocator.t) (db : TileBitDatabase)
    (st : db_state) : db_state :=
  {| db_root := db_root st; devices_info := devices_info st;
     tilegrid_cache := tilegrid_cache st;
     bitdb_store := <[tile := length (heap st)]> (bitdb_store st);
     heap := heap st ++ [db] |}.

(** *** void load_database(string root) *)
Definition load_database (fs : filesystem) (root : string) (st : db_state)
  : result unit * db_state :=
  let st1 := set_db_root root st in
  match read_json fs (root +:+ "/" +:+ "devices.json") with
  | Ok parsed => (Ok tt, set_devices_info parsed st1)
  | Err e => (Err e, st1)
  end.

(** *** find_device_generic

    The inner loop over the devices of one family, then the outer loop over
    the families.  The predicate may itself throw. *)
Fixpoint scan_devices (f : string -> ptree -> result bool) (family : string)
    (devs : list (string * ptree)) : result (option DeviceLocator.t) :=
  match devs with
  | [] => Ok None
  | dev :: devs' =>
      res <- f (fst dev) (snd dev) ;;
      if (res : bool) then Ok (Some (DeviceLocator.mk family (fst dev)))
      else scan_devices f family devs'
  end.

Fixpoint scan_families (f : string -> ptree -> result bool)
    (fams : list (string * ptree)) : result (option DeviceLocator.t) :=
  match fams with
  | [] => Ok None
  | family :: fams' =>
      devs <- get_child "devices" (snd family) ;;
      found <- scan_devices f (fst family) (children devs) ;;
      match found with
      | Some loc => Ok (Some loc)
      | None => scan_families f fams'
      end
  end.

Definition find_device_generic (f : string -> ptree -> result bool)
    (st : db_state) : result (option DeviceLocator.t) :=
  families <- get_child "families" (devices_info st) ;;
  scan_families f (children families).

(** *** DeviceLocator find_device_by_name(string name) *)
Definition find_device_by_name (name : string) (st : db_state)
  : result DeviceLocator.t :=
  found <- find_device_generic (fun n p => Ok (String.eqb n name)) st ;;
  match found with
  | None => Err (runtime_error ("no device in database with name " +:+ name))
  | Some loc => Ok loc
  end.

(** *** DeviceLocator find_device_by_idcode(uint32_t idcode) *)
Definition idcode_matches (idcode : Z) (n : string) (p : ptree) : result bool :=
  s <- get_string "idcode" p ;;
  Ok (parse_uint32 s =? idcode).

Definition find_device_by_idcode (idcode : Z) (st : db_state)
  : result DeviceLocator.t :=
  found <- find_device_generic (idcode_matches idcode) st ;;
  match found with
  | None => Err (runtime_error ("no device in database with IDCODE "
                                +:+ uint32_to_hexstr idcode))
  | Some loc => Ok loc
  end.

(** *** ChipInfo get_chip_info(const DeviceLocator &part) *)
Definition get_chip_info (part : DeviceLocator.t) (st : db_state)
  : result ChipInfo.t :=
  families <- get_child "families" (devices_info st) ;;
  fam <- get_child (DeviceLocator.family part) families ;;
  devs <- get_child "devices" fam ;;
  dev <- get_child (DeviceLocator.device part) devs ;;
  num_frames <- get_int "frames" dev ;;
  bits_per_frame <- get_int "bits_per_frame" dev ;;
  pad_bits_after_frame <- get_int "pad_bits_after_frame" dev ;;
  pad_bits_before_frame <- get_int "pad_bits_before_frame" dev ;;
  idcode_str <- get_string "idcode" dev ;;
  max_row <- get_int "max_row" dev ;;
  max_col <- get_int "max_col" dev ;;
  col_bias <- get_int "col_bias" dev ;;
  Ok {| ChipInfo.family := DeviceLocator.family part;
        ChipInfo.name := DeviceLocator.device part;
        ChipInfo.num_frames := num_frames;
        ChipInfo.bits_per_frame := bits_per_frame;
        ChipInfo.pad_bits_after_frame := pad_bits_after_frame;
        ChipInfo.pad_bits_before_frame := pad_bits_before_frame;
        ChipInfo.idcode := parse_uint32 idcode_str;
        ChipInfo.max_row := max_row;
        ChipInfo.max_col := max_col;
        ChipInfo.col_bias := col_bias |}.

(** [db_root + "/" + part.family + "/" + part.device + "/" + file] *)
Definition device_file (st : db_state) (part : DeviceLocator.t)
    (file : string) : string :=
  db_root st +:+ "/" +:+ DeviceLocator.family part +:+ "/"
    +:+ DeviceLocator.device part +:+ "/" +:+ file.

(** First and second element of a two-element JSON array, read through
    [begin()], [++] and [->second.get_value<int>()]; dereferencing the
    past-the-end iterator is undefined. *)
Definition read_pair (t : ptree) : result (Z * Z) :=
  match children t with
  | [] => Err undefined_behaviour
  | first :: rest =>
      a <- get_value_int (snd first) ;;
      match rest with
      | [] => Err undefined_behaviour
      | second :: _ =>
          b <- get_value_int (snd second) ;;
          Ok (a, b)
      end
  end.

(** [substr(pos)]: throws [out_of_range] when [pos] exceeds the size. *)
Fixpoint substr_from (pos : nat) (s : string) : result string :=
  match pos, s with
  | O, _ => Ok s
  | S _, EmptyString => Err out_of_range
  | S pos', String _ s' => substr_from pos' s'
  end.

(** [substr(0, n)]: the first [n] characters, or all if there are fewer. *)
Fixpoint substr_prefix (n : nat) (s : string) : string :=
  match n, s with
  | S n', String c s' => String c (substr_prefix n' s')
  | _, _ => EmptyString
  end.

(** *** Ecp5GlobalsInfo get_global_info_ecp5(const DeviceLocator &part) *)
Definition ecp5_quadrant (quad : string * ptree) : result GlobalRegion.t :=
  x0 <- get_int "x0" (snd quad) ;;
  x1 <- get_int "x1" (snd quad) ;;
  y0 <- get_int "y0" (snd quad) ;;
  y1 <- get_int "y1" (snd quad) ;;
  Ok {| GlobalRegion.name := fst quad; GlobalRegion.x0 := x0;
        GlobalRegion.x1 := x1; GlobalRegion.y0 := y0; GlobalRegion.y1 := y1 |}.

Definition ecp5_tap (tap : string * ptree) : result TapSegment.t :=
  _ <- assert (match fst tap with
               | String c _ => Ascii.eqb c "C"
               | EmptyString => false
               end) ;;
  rest <- substr_from 1 (fst tap) ;;
  tap_col <- stoi rest ;;
  lx0 <- get_int "lx0" (snd tap) ;;
  lx1 <- get_int "lx1" (snd tap) ;;
  rx0 <- get_int "rx0" (snd tap) ;;
  rx1 <- get_int "rx1" (snd tap) ;;
  Ok {| TapSegment.tap_col := tap_col; TapSegment.lx0 := lx0;
        TapSegment.lx1 := lx1; TapSegment.rx0 := rx0; TapSegment.rx1 := rx1 |}.

Definition ecp5_spine (spine : string * ptree) : result SpineSegment.t :=
  let quadrant := substr_prefix 2 (fst spine) in
  rest <- substr_from 2 (fst spine) ;;
  tap_col <- stoi rest ;;
  y <- get_int "y" (snd spine) ;;
  x <- get_int "x" (snd spine) ;;
  Ok {| SpineSegment.quadrant := quadrant; SpineSegment.tap_col := tap_col;
        SpineSegment.spine_row := y; SpineSegment.spine_col := x |}.

Definition parse_globals_ecp5 (glb_parsed : ptree) : result Ecp5GlobalsInfo.t :=
  quads <- get_child "quadrants" glb_parsed ;;
  quadrants <- for_each ecp5_quadrant (children quads) ;;
  taps <- get_child "taps" glb_parsed ;;
  tapsegs <- for_each ecp5_tap (children taps) ;;
  spines <- get_child "spines" glb_parsed ;;
  spinesegs <- for_each ecp5_spine (children spines) ;;
  Ok {| Ecp5GlobalsInfo.quadrants := quadrants;
        Ecp5GlobalsInfo.tapsegs := tapsegs;
        Ecp5GlobalsInfo.spinesegs := spinesegs |}.

Definition get_global_info_ecp5 (fs : filesystem) (part : DeviceLocator.t)
    (st : db_state) : result Ecp5GlobalsInfo.t :=
  glb_parsed <- read_json fs (device_file st part "globals.json") ;;
  parse_globals_ecp5 glb_parsed.

(** *** MachXO2GlobalsInfo get_global_info_machxo2(const DeviceLocator &part) *)
Definition machxo2_lr (lr : string * ptree) : result LeftRightConn.t :=
  row <- get_int "row" (snd lr) ;;
  span <- get_child "row-span" (snd lr) ;;
  rs <- read_pair span ;;
  Ok {| LeftRightConn.name := fst lr; LeftRightConn.row := row;
        LeftRightConn.row_span := rs |}.

(** [col_no++] on an [int] *)
Definition incr (col_no : Z) : result Z :=
  if col_no <? int_max then Ok (col_no + 1) else Err undefined_behaviour.

(** The members of a JSON array of integers, each read by [get<int>] at
    the empty path. *)
Definition int_array (t : ptree) : result (list Z) :=
  entries <- get_child EmptyString t ;;
  for_each (fun glb_no => get_int EmptyString (snd glb_no)) (children entries).

Fixpoint ud_conns_loop (col_no : Z) (cols : list (string * ptree))
  : result (list (list Z)) :=
  match cols with
  | [] => Ok []
  | ud :: cols' =>
      n <- stoi (fst ud) ;;
      _ <- assert (col_no =? n) ;;
      udc <- int_array (snd ud) ;;
      col_no' <- incr col_no ;;
      rest <- ud_conns_loop col_no' cols' ;;
      Ok (udc :: rest)
  end.

Definition branch_span (spans : ptree) (global_no : Z) : result (Z * Z) :=
  let global_key := to_string global_no in
  curr_sr <- get_child global_key spans ;;
  read_pair curr_sr.

(** [glbs.ud_conns[col_no]]: indexing a vector past its end is undefined. *)
Definition vector_at {A} (v : list A) (i : Z) : result A :=
  match v !! Z.to_nat i with
  | Some x => Ok x
  | None => Err undefined_behaviour
  end.

Fixpoint branch_spans_loop (ud_conns : list (list Z)) (col_no : Z)
    (cols : list (string * ptree)) : result (list (list (Z * Z))) :=
  match cols with
  | [] => Ok []
  | spans :: cols' =>
      n <- stoi (fst spans) ;;
      _ <- assert (col_no =? n) ;;
      globals <- vector_at ud_conns col_no ;;
      sp <- for_each (branch_span (snd spans)) globals ;;
      col_no' <- incr col_no ;;
      rest <- branch_spans_loop ud_conns col_no' cols' ;;
      Ok (sp :: rest)
  end.

Definition machxo2_missing (dccs : string * ptree) : result MissingDccs.t :=
  row <- stoi (fst dccs) ;;
  missing <- int_array (snd dccs) ;;
  Ok {| MissingDccs.row := row; MissingDccs.missing := missing |}.

Definition parse_globals_machxo2 (glb_parsed : ptree)
  : result MachXO2GlobalsInfo.t :=
  lrs <- get_child "lr-conns" glb_parsed ;;
  lr_conns <- for_each machxo2_lr (children lrs) ;;
  uds <- get_child "ud-conns" glb_parsed ;;
  ud_conns <- ud_conns_loop 0 (children uds) ;;
  spans <- get_child "branch-spans" glb_parsed ;;
  branch_spans <- branch_spans_loop ud_conns 0 (children spans) ;;
  dccs <- get_child "missing-dccs" glb_parsed ;;
  missing_dccs <- for_each machxo2_missing (children dccs) ;;
  Ok {| MachXO2GlobalsInfo.lr_conns := lr_conns;
        MachXO2GlobalsInfo.ud_conns := ud_conns;
        MachXO2GlobalsInfo.branch_spans := branch_spans;
        MachXO2GlobalsInfo.missing_dccs := missing_dccs |}.

Definition get_global_info_machxo2 (fs : filesystem) (part : DeviceLocator.t)
    (st : db_state) : result MachXO2GlobalsInfo.t :=
  glb_parsed <- read_json fs (device_file st part "globals.json") ;;
  parse_globals_machxo2 glb_parsed.

(** *** vector<TileInfo> get_device_tilegrid(const DeviceLocator &part) *)
Definition tile_site (site : string * ptree) : result SiteInfo.t :=
  type <- get_string "name" (snd site) ;;
  col <- get_int "pos_col" (snd site) ;;
  row <- get_int "pos_row" (snd site) ;;
  Ok {| SiteInfo.type := type; SiteInfo.col := col; SiteInfo.row := row |}.

Definition tile_info (part : DeviceLocator.t) (info : ChipInfo.t)
    (tile : string * ptree) : result TileInfo.t :=
  cols <- get_int "cols" (snd tile) ;;
  rows <- get_int "rows" (snd tile) ;;
  start_bit <- get_int "start_bit" (snd tile) ;;
  start_frame <- get_int "start_frame" (snd tile) ;;
  type <- get_string "type" (snd tile) ;;
  site_list <- get_child "sites" (snd tile) ;;
  sites <- for_each tile_site (children site_list) ;;
  Ok {| TileInfo.family := DeviceLocator.family part;
        TileInfo.device := DeviceLocator.device part;
        TileInfo.max_col := ChipInfo.max_col info;
        TileInfo.max_row := ChipInfo.max_row info;
        TileInfo.col_bias := ChipInfo.col_bias info;
        TileInfo.name := fst tile;
        TileInfo.num_frames := to_size_t cols;
        TileInfo.bits_per_frame := to_size_t rows;
        TileInfo.bit_offset := to_size_t start_bit;
        TileInfo.frame_offset := to_size_t start_frame;
        TileInfo.type := type;
        TileInfo.sites := sites |}.

(** The guarded block [if (tilegrid_cache.find(part.device) == end) {...}]:
    the file is read and stored under [part.device] only when no entry with
    that key exists. *)
Definition tilegrid_fill (fs : filesystem) (part : DeviceLocator.t)
    (st : db_state) : result db_state :=
  match tilegrid_cache st !! DeviceLocator.device part with
  | None =>
      tg_parsed <- read_json fs (device_file st part "tilegrid.json") ;;
      Ok (set_tilegrid_cache
            (<[DeviceLocator.device part := tg_parsed]> (tilegrid_cache st)) st)
  | Some _ => Ok st
  end.

(** [tilegrid_cache[key]]; [operator[]] yields an empty tree for a new key. *)
Definition tilegrid_cache_at (key : string) (st : db_state) : ptree :=
  default (PTree EmptyString []) (tilegrid_cache st !! key).

Definition get_device_tilegrid (fs : filesystem) (part : DeviceLocator.t)
    (st : db_state) : result (list TileInfo.t) * db_state :=
  if String.eqb (db_root st) EmptyString then (Err assertion_failed, st)
  else
    match get_chip_info part st with
    | Err e => (Err e, st)
    | Ok info =>
        match tilegrid_fill fs part st with
        | Err e => (Err e, st)
        | Ok st1 =>
            let tg := tilegrid_cache_at (DeviceLocator.device part) st1 in
            (for_each (tile_info part info) (children tg), st1)
        end
    end.

(** *** shared_ptr<TileBitDatabase> get_tile_bitdata(const TileLocator &tile) *)
Definition bitdb_path (tile : TileLocator.t) (st : db_state) : string :=
  db_root st +:+ "/" +:+ TileLocator.family tile +:+ "/tiledata/"
    +:+ TileLocator.tiletype tile +:+ "/bits.db".

Definition get_tile_bitdata (fs : filesystem) (tile : TileLocator.t)
    (st : db_state) : result shared_ptr * db_state :=
  match bitdb_store st !! tile with
  | None =>
      if String.eqb (db_root st) EmptyString then (Err assertion_failed, st)
      else
        match new_TileBitDatabase fs (bitdb_path tile st) with
        | Err e => (Err e, st)
        | Ok db => (Ok (length (heap st)), store_new_bitdb tile db st)
        end
  | Some bitdb => (Ok bitdb, st)
  end.

End Database.

Arguments read_json {TileBitDatabase} _ _.
Arguments new_TileBitDatabase {TileBitDatabase} _ _.
Arguments db_root {TileBitDatabase} _.
Arguments devices_info {TileBitDatabase} _.
Arguments tilegrid_cache {TileBitDatabase} _.
Arguments bitdb_store {TileBitDatabase} _.
Arguments heap {TileBitDatabase} _.
Arguments load_database {TileBitDatabase} fs root st.
Arguments find_device_generic {TileBitDatabase} f st.
Arguments find_device_by_name {TileBitDatabase} name st.
Arguments find_device_by_idcode {TileBitDatabase} uint32_to_hexstr idcode st.
Arguments get_chip_info {TileBitDatabase} part st.
Arguments device_file {TileBitDatabase} st part file.
Arguments get_global_info_ecp5 {TileBitDatabase} fs part st.
Arguments get_global_info_machxo2 {TileBitDatabase} fs part st.
Arguments tilegrid_fill {TileBitDatabase} fs part st.
Arguments tilegrid_cache_at {TileBitDatabase} key st.
Arguments get_device_tilegrid {TileBitDatabase} fs part st.
Arguments bitdb_path {TileBitDatabase} tile st.
Arguments get_tile_bitdata {TileBitDatabase} fs tile st.
Arguments store_new_bitdb {TileBitDatabase} tile db st.
Arguments set_tilegrid_cache {TileBitDatabase} c st.
Arguments set_db_root {TileBitDatabase} root st.
Arguments set_devices_info {TileBitDatabase} t st.

(** ** Property trees of JSON values

    What [pt::read_json] builds for a scalar, an object and an array (array
    elements are children with the empty key). *)

Definition leaf (s : string) : ptree := PTree s [].
Definition obj (members : list (string * ptree)) : ptree := PTree EmptyString members.
Definition arr (elements : list ptree) : ptree :=
  PTree EmptyString (map (fun t => (EmptyString, t)) elements).
Definition num (z : Z) : ptree := leaf (to_string z).

(** ** The catalogue as a sequence of devices

    The (family, device, entry) triples of [devices.json] in file order:
    families in the order of the "families" object, and within a family its
    devices in the order of the "devices" object. *)

Definition family_devices (fam : string * ptree) : list (string * (string * ptree)) :=
  match get_child "devices" (snd fam) with
  | Ok devs => map (fun dev => (fst fam, dev)) (children devs)
  | Err _ => []
  end.

Definition catalog_families (cat : ptree) : list (string * ptree) :=
  match get_child "families" cat with
  | Ok fams => children fams
  | Err _ => []
  end.

Definition catalog_devices (cat : ptree) : list (string * (string * ptree)) :=
  flat_map family_devices (catalog_families cat).

Definition entry_locator (e : string * (string * ptree)) : DeviceLocator.t :=
  DeviceLocator.mk (fst e) (fst (snd e)).

(** The first device of the catalogue, in file order, that satisfies [p]. *)
Definition first_match (p : string -> ptree -> bool) (cat : ptree)
  : option DeviceLocator.t :=
  option_map entry_locator
    (List.find (fun e => p (fst (snd e)) (snd (snd e))) (catalog_devices cat)).

(** The catalogue has a "families" object and every family a "devices" one. *)
Definition families_ok (cat : ptree) : bool :=
  is_ok (get_child "families" cat)
  && forallb (fun fam => is_ok (get_child "devices" (snd fam))) (catalog_families cat).

(** Every device entry has an "idcode" member. *)
Definition idcodes_ok (cat : ptree) : bool :=
  forallb (fun e => is_ok (get_string "idcode" (snd (snd e)))) (catalog_devices cat).

(** The idcode of a device entry, as [find_device_by_idcode] compares it. *)
Definition entry_idcode_is (idcode : Z) (n : string) (p : ptree) : bool :=
  match get_string "idcode" p with
  | Ok s => parse_uint32 s =? idcode
  | Err _ => false
  end.

(** A string without a leading integer: after white space and an optional
    sign the next character, if any, is not a decimal digit. *)
Definition no_leading_integer (s : string) : bool :=
  match snd (read_sign (skip_ws s)) with
  | String c _ => negb (bool_decide (is_Some (digit_in 10 c)))
  | EmptyString => true
  end.

(** A key that [get_child] reads as one path fragment: not empty and free
    of the path separator. *)
Fixpoint dot_free (s : string) : bool :=
  match s with
  | EmptyString => true
  | String c s' => negb (Ascii.eqb c ".") && dot_free s'
  end.

Definition plain_key (s : string) : bool :=
  negb (String.eqb s EmptyString) && dot_free s.

(** A device entry from which [get_chip_info] can read every field. *)
Definition entry_ok (dev : ptree) : bool :=
  is_ok (get_int "frames" dev)
  && is_ok (get_int "bits_per_frame" dev)
  && is_ok (get_int "pad_bits_after_frame" dev)
  && is_ok (get_int "pad_bits_before_frame" dev)
  && is_ok (get_string "idcode" dev)
  && is_ok (get_int "max_row" dev)
  && is_ok (get_int "max_col" dev)
  && is_ok (get_int "col_bias" dev).

(** A well-formed [devices.json]: family names are distinct plain keys,
    device names are plain keys and every device entry is complete. *)
Definition catalog_wf (cat : ptree) : bool :=
  families_ok cat
  && bool_decide (NoDup (map fst (catalog_families cat)))
  && forallb (fun fam => plain_key (fst fam)) (catalog_families cat)
  && forallb (fun e => plain_key (fst (snd e)) && entry_ok (snd (snd e)))
       (catalog_devices cat).

(** ** Sequences of calls

    The functions that write the static state.  The lookups and the globals
    loaders leave it as it is, so a process's history, as far as the state is
    concerned, is a sequence of these calls, each with the files it sees. *)

Section Calls.

Variable TileBitDatabase : Type.

Inductive call : Type :=
| call_load_database (fs : filesystem TileBitDatabase) (root : string)
| call_get_device_tilegrid (fs : filesystem TileBitDatabase) (part : DeviceLocator.t)
| call_get_tile_bitdata (fs : filesystem TileBitDatabase) (tile : TileLocator.t).

Definition step (c : call) (st : db_state TileBitDatabase) : db_state TileBitDatabase :=
  match c with
  | call_load_database fs root => snd (load_database fs root st)
  | call_get_device_tilegrid fs part => snd (get_device_tilegrid fs part st)
  | call_get_tile_bitdata fs tile => snd (get_tile_bitdata fs tile st)
  end.

Fixpoint run (cs : list call) (st : db_state TileBitDatabase) : db_state TileBitDatabase :=
  match cs with
  | [] => st
  | c :: cs' => run cs' (step c st)
  end.

Definition is_load (c : call) : bool :=
  match c with
  | call_load_database _ _ => true
  | _ => false
  end.

(** The catalogue is read-only in a history without [load_database]. *)
Definition catalog_read_only (cs : list call) : bool :=
  forallb (fun c => negb (is_load c)) cs.

(** Call [c] in state [st] constructs a [TileBitDatabase] for key [tile]:
    it is a [get_tile_bitdata] for that key and leaves a new object behind. *)
Definition constructs (tile : TileLocator.t) (c : call)
    (st : db_state TileBitDatabase) : bool :=
  match c with
  | call_get_tile_bitdata fs t =>
      bool_decide (t = tile)
      && negb (length (heap (step c st)) =? length (heap st))%nat
  | _ => false
  end.

(** Number of constructions for [tile] along a history. *)
Fixpoint constructions (tile : TileLocator.t) (cs : list call)
    (st : db_state TileBitDatabase) : nat :=
  match cs with
  | [] => O
  | c :: cs' =>
      ((if constructs tile c st then 1 else 0)
       + constructions tile cs' (step c st))%nat
  end.

(** Two device locators share a tile-grid cache entry: once the entry of
    the first is filled, the guarded block of [get_device_tilegrid] for the
    second reads no file, whatever the files are, and changes nothing. *)
Definition share_tilegrid_entry (p1 p2 : DeviceLocator.t) : Prop :=
  forall (fs fs' : filesystem TileBitDatabase) (st st1 : db_state TileBitDatabase),
    tilegrid_fill fs p1 st = Ok st1 ->
    tilegrid_fill fs' p2 st1 = Ok st1.

End Calls.

Arguments call_load_database {TileBitDatabase} fs root.
Arguments call_get_device_tilegrid {TileBitDatabase} fs part.
Arguments call_get_tile_bitdata {TileBitDatabase} fs tile.
Arguments step {TileBitDatabase} c st.
Arguments run {TileBitDatabase} cs st.
Arguments is_load {TileBitDatabase} c.
Arguments catalog_read_only {TileBitDatabase} cs.
Arguments constructs {TileBitDatabase} tile c st.
Arguments constructions {TileBitDatabase} tile cs st.

(** ** Column order and span lists in a MachXO2 globals file *)

(** The keys of [cols] read, by [stoi], as [col_no], [col_no + 1], ... in
    file order. *)
Fixpoint columns_in_order (col_no : Z) (cols : list (string * ptree)) : bool :=
  match cols with
  | [] => true
  | col :: cols' =>
      match stoi (fst col) with
      | Ok n => (n =? col_no) && columns_in_order (col_no + 1) cols'
      | Err _ => false
      end
  end.






(** ** Auxiliary notions for the catalogue and the tile grid *)

(** A predicate [f] that may throw agrees with the total test [p] on the
    entries of a list. *)
Definition decides (f : string -> ptree -> result bool)
    (p : string -> ptree -> bool) (e : string * (string * ptree)) : Prop :=
  f (fst (snd e)) (snd (snd e)) = Ok (p (fst (snd e)) (snd (snd e))).

(** The fields of a [ChipInfo] are those of the catalogue entry [entry]. *)
Definition chip_info_from (fam name : string) (entry : ptree) (ci : ChipInfo.t)
  : Prop :=
  ChipInfo.family ci = fam
  /\ ChipInfo.name ci = name
  /\ get_int "frames" entry = Ok (ChipInfo.num_frames ci)
  /\ get_int "bits_per_frame" entry = Ok (ChipInfo.bits_per_frame ci)
  /\ get_int "pad_bits_after_frame" entry = Ok (ChipInfo.pad_bits_after_frame ci)
  /\ get_int "pad_bits_before_frame" entry = Ok (ChipInfo.pad_bits_before_frame ci)
  /\ (exists s, get_string "idcode" entry = Ok s
                /\ ChipInfo.idcode ci = parse_uint32 s)
  /\ get_int "max_row" entry = Ok (ChipInfo.max_row ci)
  /\ get_int "max_col" entry = Ok (ChipInfo.max_col ci)
  /\ get_int "col_bias" entry = Ok (ChipInfo.col_bias ci).

(** What [get_device_tilegrid] derives for [part] from the raw table [tg]
    in state [st]. *)
Definition tilegrid_view {TileBitDatabase : Type} (part : DeviceLocator.t)
    (st : db_state TileBitDatabase) (tg : ptree) : result (list TileInfo.t) :=
  if String.eqb (db_root st) EmptyString then Err assertion_failed
  else
    match get_chip_info part st with
    | Err e => Err e
    | Ok info => for_each (tile_info part info) (children tg)
    end.

(** ** Sample databases

    Concrete catalogues, files and states on which the functions are run. *)

Module Sample.

(** Stand-in for the external classes: a bit database is represented by the
    name of the file it was constructed from. *)
Definition bitdb : Type := string.
Definition hexstr (z : Z) : string := "0x" +:+ to_string z.

Definition dev_entry (idcode : string) (frames : Z) : ptree :=
  obj [("packages", obj []); ("idcode", leaf idcode); ("frames", num frames);
       ("bits_per_frame", num 10); ("pad_bits_after_frame", num 1);
       ("pad_bits_before_frame", num 2); ("max_row", num 5);
       ("max_col", num 6); ("col_bias", num 0)].

(** One family "F" with one device "D", idcode "0x10", 4 frames. *)
Definition catalog_FD : ptree :=
  obj [("families", obj [("F", obj [("devices", obj [("D", dev_entry "0x10" 4)])])])].

(** Two families; device "E" has an idcode that is not a number. *)
Definition catalog_FG : ptree :=
  obj [("families",
        obj [("F", obj [("devices", obj [("D", dev_entry "0x10" 4)])]);
             ("G", obj [("devices", obj [("E", dev_entry "abc" 7);
                                         ("H", dev_entry "010" 9)])])])].

Definition state_of (root : string) (cat : ptree) : db_state bitdb :=
  {| db_root := root; devices_info := cat; tilegrid_cache := ∅;
     bitdb_store := ∅; heap := [] |}.

(** No file can be read. *)
Definition no_files : filesystem bitdb :=
  {| read_json := fun _ => Err json_parser_error;
     new_TileBitDatabase := fun _ => Err bitdb_error |}.

(** A single JSON file at [path]; every bit database can be constructed. *)
Definition one_file (path : string) (content : ptree) : filesystem bitdb :=
  {| read_json := fun p => if String.eqb p path then Ok content
                           else Err json_parser_error;
     new_TileBitDatabase := fun p => Ok p |}.

(** MachXO2 globals files: the up-down connections and the branch spans are
    given per column, in file order, with the column key as written. *)
Definition ud_conns_obj (cols : list (string * list Z)) : ptree :=
  obj (map (fun col => (fst col, arr (map num (snd col)))) cols).

Definition branch_spans_obj (cols : list (string * list Z)) : ptree :=
  obj (map (fun col =>
              (fst col,
               obj (map (fun g => (to_string g, arr [num 1; num 9])) (snd col))))
           cols).

Definition machxo2_file (uds spans : list (string * list Z)) : ptree :=
  obj [("lr-conns", obj [("lr0", obj [("row", num 3);
                                      ("row-span", arr [num 1; num 5])])]);
       ("ud-conns", ud_conns_obj uds);
       ("branch-spans", branch_spans_obj spans);
       ("missing-dccs", obj [("6", arr [num 1])])].




Definition part_FD : DeviceLocator.t := DeviceLocator.mk "F" "D".

(** Tile grids with a single tile, and a catalogue in which two families
    both have a device called "D". *)
Definition tile_entry (type : string) : ptree :=
  obj [("cols", num 2); ("rows", num 3); ("start_bit", num 0);
       ("start_frame", num 4); ("type", leaf type);
       ("sites", arr [obj [("name", leaf "SLICE"); ("pos_col", num 1);
                           ("pos_row", num 2)]])].

Definition grid (tile_name : string) : ptree :=
  obj [(tile_name, tile_entry "PLC2")].

Definition catalog_twin : ptree :=
  obj [("families",
        obj [("F1", obj [("devices", obj [("D", dev_entry "0x10" 4)])]);
             ("F2", obj [("devices", obj [("D", dev_entry "0x20" 4)])])])].

Definition twin_files : filesystem bitdb :=
  {| read_json := fun p =>
       if String.eqb p "/db/F1/D/tilegrid.json" then Ok (grid "T1")
       else if String.eqb p "/db/F2/D/tilegrid.json" then Ok (grid "T2")
       else Err json_parser_error;
     new_TileBitDatabase := fun p => Ok p |}.

Definition part_F1D : DeviceLocator.t := DeviceLocator.mk "F1" "D".
Definition part_F2D : DeviceLocator.t := DeviceLocator.mk "F2" "D".
Definition tile_FT : TileLocator.t := TileLocator.mk "F" "PLC2".
Definition tile_FU : TileLocator.t := TileLocator.mk "F" "CIB".

End Sample.

(** ** The state at program start and the shape of the bit-database store *)

(** The static variables as their definitions initialise them: an empty
    root, an empty catalogue tree, empty caches; nothing allocated yet. *)
Definition initial_state (TileBitDatabase : Type) : db_state TileBitDatabase :=
  {| db_root := EmptyString; devices_info := PTree EmptyString [];
     tilegrid_cache := ∅; bitdb_store := ∅; heap := [] |}.

(** Every stored handle designates an allocated object, no two keys hold
    the same handle, and there are as many objects as keys. *)
Definition bitdb_store_wf {TileBitDatabase : Type}
    (st : db_state TileBitDatabase) : Prop :=
  (forall tile h, bitdb_store st !! tile = Some h -> (h < length (heap st))%nat)
  /\ (forall t1 t2 h,
        bitdb_store st !! t1 = Some h -> bitdb_store st !! t2 = Some h -> t1 = t2)
  /\ size (bitdb_store st) = length (heap st).

(** The locators of the catalogue, in file order. *)
Definition catalog_locators (cat : ptree) : list DeviceLocator.t :=
  map entry_locator (catalog_devices cat).

(** The unread rest of a numeral: empty, or beginning with a character
    that is no decimal digit. *)
Definition no_digit_ahead (rest : string) : Prop :=
  match rest with
  | String c _ => digit_in 10 c = None
  | EmptyString => True
  end.

(** ** Further sample files *)

Module SampleGlobals.

Definition quadrant_entry : ptree :=
  obj [("x0", num 0); ("x1", num 1); ("y0", num 2); ("y1", num 3)].
Definition tap_entry : ptree :=
  obj [("lx0", num 0); ("lx1", num 1); ("rx0", num 2); ("rx1", num 3)].
Definition spine_entry : ptree := obj [("y", num 7); ("x", num 8)].

(** An ECP5 globals file with the given tap and spine keys. *)
Definition ecp5_file (tap_keys spine_keys : list string) : ptree :=
  obj [("quadrants", obj [("UL", quadrant_entry)]);
       ("taps", obj (map (fun k => (k, tap_entry)) tap_keys));
       ("spines", obj (map (fun k => (k, spine_entry)) spine_keys))].

Definition globals_fs (content : ptree) : filesystem Sample.bitdb :=
  Sample.one_file "/db/F/D/globals.json" content.

Definition st_FD : db_state Sample.bitdb := Sample.state_of "/db" Sample.catalog_FD.

(** A MachXO2 file whose branch spans are written in the order 0, 2, 1. *)
Definition machxo2_spans_out_of_order : ptree :=
  Sample.machxo2_file [("0", [0]); ("1", [0]); ("2", [0])]
                      [("0", [0]); ("2", [0]); ("1", [0])].

Definition machxo2_good : ptree :=
  Sample.machxo2_file [("0", [0; 1]); ("1", [2])] [("0", [0; 1]); ("1", [2])].

End SampleGlobals.

Module SampleTiles.

(** A tile grid whose second tile lacks its "cols" member, and one whose
    tile has a negative number of columns. *)
Definition grid_malformed : ptree :=
  obj [("T1", Sample.tile_entry "PLC2");
       ("T2", obj [("rows", num 3)])].

Definition grid_negative : ptree :=
  obj [("T1", obj [("cols", num (-1)); ("rows", num 3); ("start_bit", num 0);
                   ("start_frame", num 4); ("type", leaf "PLC2");
                   ("sites", arr [])])].

Definition files (content : ptree) : filesystem Sample.bitdb :=
  Sample.one_file "/db/F1/D/tilegrid.json" content.

Definition st_twin : db_state Sample.bitdb := Sample.state_of "/db" Sample.catalog_twin.

End SampleTiles.

(** ** Globals files written from a value

    The property tree [pt::read_json] builds for the JSON text that lists a
    globals value in the layout the loaders read: objects keyed by name or
    composite key, numbers as decimal numerals, spans as two-element arrays. *)

Definition ecp5_quadrant_member (rg : GlobalRegion.t) : string * ptree :=
  (GlobalRegion.name rg,
   obj [("x0", num (GlobalRegion.x0 rg)); ("x1", num (GlobalRegion.x1 rg));
        ("y0", num (GlobalRegion.y0 rg)); ("y1", num (GlobalRegion.y1 rg))]).

Definition ecp5_tap_member (ts : TapSegment.t) : string * ptree :=
  ("C" +:+ to_string (TapSegment.tap_col ts),
   obj [("lx0", num (TapSegment.lx0 ts)); ("lx1", num (TapSegment.lx1 ts));
        ("rx0", num (TapSegment.rx0 ts)); ("rx1", num (TapSegment.rx1 ts))]).

Definition ecp5_spine_member (ss : SpineSegment.t) : string * ptree :=
  (SpineSegment.quadrant ss +:+ to_string (SpineSegment.tap_col ss),
   obj [("x", num (SpineSegment.spine_col ss));
        ("y", num (SpineSegment.spine_row ss))]).

Definition ecp5_tree (g : Ecp5GlobalsInfo.t) : ptree :=
  obj [("quadrants", obj (map ecp5_quadrant_member (Ecp5GlobalsInfo.quadrants g)));
       ("spines", obj (map ecp5_spine_member (Ecp5GlobalsInfo.spinesegs g)));
       ("taps", obj (map ecp5_tap_member (Ecp5GlobalsInfo.tapsegs g)))].

(** All numbers fit an [int] and every quadrant tag has two characters. *)
Definition ecp5_representable (g : Ecp5GlobalsInfo.t) : Prop :=
  Forall (fun rg => in_int (GlobalRegion.x0 rg) = true
                    /\ in_int (GlobalRegion.x1 rg) = true
                    /\ in_int (GlobalRegion.y0 rg) = true
                    /\ in_int (GlobalRegion.y1 rg) = true)
    (Ecp5GlobalsInfo.quadrants g)
  /\ Forall (fun ts => in_int (TapSegment.tap_col ts) = true
                       /\ in_int (TapSegment.lx0 ts) = true
                       /\ in_int (TapSegment.lx1 ts) = true
                       /\ in_int (TapSegment.rx0 ts) = true
                       /\ in_int (TapSegment.rx1 ts) = true)
       (Ecp5GlobalsInfo.tapsegs g)
  /\ Forall (fun ss => String.length (SpineSegment.quadrant ss) = 2%nat
                       /\ in_int (SpineSegment.tap_col ss) = true
                       /\ in_int (SpineSegment.spine_row ss) = true
                       /\ in_int (SpineSegment.spine_col ss) = true)
       (Ecp5GlobalsInfo.spinesegs g).

(** Members keyed by the numerals of [col_no], [col_no + 1], ... *)
Fixpoint numbered {A} (col_no : Z) (l : list A) : list (string * A) :=
  match l with
  | [] => []
  | x :: l' => (to_string col_no, x) :: numbered (col_no + 1) l'
  end.

Definition int_array_tree (l : list Z) : ptree := arr (map num l).

Definition pair_tree (p : Z * Z) : ptree := arr [num (fst p); num (snd p)].

Definition machxo2_lr_member (c : LeftRightConn.t) : string * ptree :=
  (LeftRightConn.name c,
   obj [("row", num (LeftRightConn.row c));
        ("row-span", pair_tree (LeftRightConn.row_span c))]).

(** The spans of one column, each under the numeral of its global index. *)
Definition spans_tree (globals : list Z) (sp : list (Z * Z)) : ptree :=
  obj (map (fun p => (to_string (fst p), pair_tree (snd p))) (combine globals sp)).

Definition machxo2_missing_member (m : MissingDccs.t) : string * ptree :=
  (to_string (MissingDccs.row m), int_array_tree (MissingDccs.missing m)).

Definition machxo2_tree (info : MachXO2GlobalsInfo.t) : ptree :=
  obj [("lr-conns", obj (map machxo2_lr_member (MachXO2GlobalsInfo.lr_conns info)));
       ("ud-conns",
        obj (numbered 0 (map int_array_tree (MachXO2GlobalsInfo.ud_conns info))));
       ("branch-spans",
        obj (numbered 0
               (map (fun p => spans_tree (fst p) (snd p))
                  (combine (MachXO2GlobalsInfo.ud_conns info)
                     (MachXO2GlobalsInfo.branch_spans info)))));
       ("missing-dccs",
        obj (map machxo2_missing_member (MachXO2GlobalsInfo.missing_dccs info)))].

Definition all_int (l : list Z) : Prop := Forall (fun z => in_int z = true) l.

(** All numbers fit an [int]; there are at most [int_max] columns and no
    more branch-span columns than up-down columns; and in each column with
    branch spans the declared indices are distinct and have one span each. *)
Definition machxo2_representable (info : MachXO2GlobalsInfo.t) : Prop :=
  Forall (fun c => in_int (LeftRightConn.row c) = true
                   /\ in_int (fst (LeftRightConn.row_span c)) = true
                   /\ in_int (snd (LeftRightConn.row_span c)) = true)
    (MachXO2GlobalsInfo.lr_conns info)
  /\ Forall all_int (MachXO2GlobalsInfo.ud_conns info)
  /\ Z.of_nat (length (MachXO2GlobalsInfo.ud_conns info)) <= int_max
  /\ (length (MachXO2GlobalsInfo.branch_spans info)
      <= length (MachXO2GlobalsInfo.ud_conns info))%nat
  /\ Forall (fun p => NoDup (fst p)
                      /\ length (fst p) = length (snd p)
                      /\ Forall (fun s => in_int (fst s) = true
                                          /\ in_int (snd s) = true) (snd p))
       (combine (MachXO2GlobalsInfo.ud_conns info)
          (MachXO2GlobalsInfo.branch_spans info))
  /\ Forall (fun m => in_int (MissingDccs.row m) = true
                      /\ all_int (MissingDccs.missing m))
       (MachXO2GlobalsInfo.missing_dccs info).

Module SampleValues.

Definition machxo2_value : MachXO2GlobalsInfo.t :=
  {| MachXO2GlobalsInfo.lr_conns :=
       [{| LeftRightConn.name := "lr0"; LeftRightConn.row := 3;
           LeftRightConn.row_span := (1, 5) |}];
     MachXO2GlobalsInfo.ud_conns := [[0; 1]; [2]];
     MachXO2GlobalsInfo.branch_spans := [[(1, 2); (3, 4)]; [(0, 9)]];
     MachXO2GlobalsInfo.missing_dccs :=
       [{| MissingDccs.row := 6; MissingDccs.missing := [1] |}] |}.

End SampleValues.

(** ** What an ECP5 entry yields, stated on the entry itself

    The record an entry of "quadrants", "taps" or "spines" stands for, in
    terms of its key and of the numbers read from its members. *)

Definition quadrant_of (quad : string * ptree) (rg : GlobalRegion.t) : Prop :=
  GlobalRegion.name rg = fst quad
  /\ get_int "x0" (snd quad) = Ok (GlobalRegion.x0 rg)
  /\ get_int "x1" (snd quad) = Ok (GlobalRegion.x1 rg)
  /\ get_int "y0" (snd quad) = Ok (GlobalRegion.y0 rg)
  /\ get_int "y1" (snd quad) = Ok (GlobalRegion.y1 rg).

(** The key is 'C' followed by text whose leading integer is the column. *)
Definition tap_of (tap : string * ptree) (ts : TapSegment.t) : Prop :=
  exists rest,
    fst tap = String "C" rest
    /\ stoi rest = Ok (TapSegment.tap_col ts)
    /\ get_int "lx0" (snd tap) = Ok (TapSegment.lx0 ts)
    /\ get_int "lx1" (snd tap) = Ok (TapSegment.lx1 ts)
    /\ get_int "rx0" (snd tap) = Ok (TapSegment.rx0 ts)
    /\ get_int "rx1" (snd tap) = Ok (TapSegment.rx1 ts).

(** The key is two characters, the quadrant, followed by text whose leading
    integer is the column. *)
Definition spine_of (spine : string * ptree) (ss : SpineSegment.t) : Prop :=
  exists a b rest,
    fst spine = String a (String b rest)
    /\ SpineSegment.quadrant ss = String a (String b EmptyString)
    /\ stoi rest = Ok (SpineSegment.tap_col ss)
    /\ get_int "y" (snd spine) = Ok (SpineSegment.spine_row ss)
    /\ get_int "x" (snd spine) = Ok (SpineSegment.spine_col ss).

(** ** MachXO2 files with surplus branch-span entries *)




(** ** MachXO2 files that give no occasion for undefined behaviour

    The loader indexes [ud_conns] by the running column number without a
    bounds check, steps twice through every span array without looking for
    its end, and increments an [int] column counter.  A file is within
    bounds when it has no more "branch-spans" columns than "ud-conns"
    columns, at most [int_max] columns of either, and at least two elements
    in every "row-span" array and in every member of a branch-span column. *)

Definition two_elements (t : ptree) : bool := (2 <=? length (children t))%nat.

Definition lr_within_bounds (lr : string * ptree) : bool :=
  match get_child "row-span" (snd lr) with
  | Ok span => two_elements span
  | Err _ => true
  end.

Definition span_column_within_bounds (col : string * ptree) : bool :=
  forallb (fun m => two_elements (snd m)) (children (snd col)).

Definition machxo2_within_bounds (glb : ptree) : bool :=
  match get_child "lr-conns" glb with
  | Ok lrs => forallb lr_within_bounds (children lrs)
  | Err _ => true
  end
  && match get_child "ud-conns" glb, get_child "branch-spans" glb with
     | Ok uds, Ok spans =>
         (length (children spans) <=? length (children uds))%nat
         && (Z.of_nat (length (children uds)) <=? int_max)
         && forallb span_column_within_bounds (children spans)
     | Ok uds, Err _ => Z.of_nat (length (children uds)) <=? int_max
     | Err _, _ => true
     end.

(** ** Catalogues outside the expected form *)

Module SampleCatalogs.

Definition one_device (family name : string) (entry : ptree) : string * ptree :=
  (family, obj [("devices", obj [(name, entry)])]).

(** A device name that contains the path separator. *)
Definition dotted : ptree :=
  obj [("families", obj [one_device "F" "LFE5U.25F" (Sample.dev_entry "0x10" 4)])].

(** The family key "F" written twice; "D" is in the second. *)
Definition repeated_family : ptree :=
  obj [("families", obj [one_device "F" "E" (Sample.dev_entry "0x20" 4);
                         one_device "F" "D" (Sample.dev_entry "0x10" 4)])].

(** The entry of "D" holds nothing but "idcode" and "frames". *)
Definition bare_entry : ptree :=
  obj [("families",
        obj [one_device "F" "D" (obj [("idcode", leaf "0x10"); ("frames", num 4)])])].

(** A device under the empty name. *)
Definition empty_name : ptree :=
  obj [("families", obj [one_device "F" EmptyString (Sample.dev_entry "0x10" 4)])].

(** A family name that contains the path separator, and the empty family
    name. *)
Definition dotted_family : ptree :=
  obj [("families", obj [one_device "F.X" "D" (Sample.dev_entry "0x10" 4)])].

Definition empty_family : ptree :=
  obj [("families", obj [one_device EmptyString "D" (Sample.dev_entry "0x10" 4)])].

(** A family without a "devices" member ahead of the family of "D". *)
Definition missing_devices : ptree :=
  obj [("families", obj [("E", obj []);
                         one_device "F" "D" (Sample.dev_entry "0x10" 4)])].

Definition names (cat : ptree) : list string :=
  map (fun e => fst (snd e)) (catalog_devices cat).

End SampleCatalogs.

(** ** Globals values for the file-order and surplus-span statements *)

Module SampleOrder.

(** Tap and spine segments listed with the higher column first. *)
Definition ecp5_value : Ecp5GlobalsInfo.t :=
  {| Ecp5GlobalsInfo.quadrants :=
       [{| GlobalRegion.name := "UR"; GlobalRegion.x0 := 11;
           GlobalRegion.x1 := 20; GlobalRegion.y0 := 0; GlobalRegion.y1 := 9 |};
        {| GlobalRegion.name := "LL"; GlobalRegion.x0 := 0;
           GlobalRegion.x1 := 10; GlobalRegion.y0 := 10; GlobalRegion.y1 := 19 |}];
     Ecp5GlobalsInfo.tapsegs :=
       [{| TapSegment.tap_col := 12; TapSegment.lx0 := 11; TapSegment.lx1 := 11;
           TapSegment.rx0 := 13; TapSegment.rx1 := 20 |};
        {| TapSegment.tap_col := 3; TapSegment.lx0 := 0; TapSegment.lx1 := 2;
           TapSegment.rx0 := 4; TapSegment.rx1 := 10 |}];
     Ecp5GlobalsInfo.spinesegs :=
       [{| SpineSegment.quadrant := "UR"; SpineSegment.tap_col := 12;
           SpineSegment.spine_row := 7; SpineSegment.spine_col := 8 |};
        {| SpineSegment.quadrant := "LL"; SpineSegment.tap_col := 3;
           SpineSegment.spine_row := 17; SpineSegment.spine_col := 2 |}] |}.



End SampleOrder.

(** * Properties *)

(** ** The result monad and [for_each] *)

Lemma bind_ok_inv {A B} (r : result A) (k : A -> result B) (b : B) :
  bind r k = Ok b -> exists a, r = Ok a /\ k a = Ok b.
Proof. destruct r as [a|e]; simpl; intros H; [eauto | discriminate]. Qed.

Lemma for_each_app {A B} (f : A -> result B) (l1 l2 : list A) :
  for_each f (l1 ++ l2) =
  bind (for_each f l1) (fun ys1 =>
  bind (for_each f l2) (fun ys2 => Ok (ys1 ++ ys2))).
Proof.
  induction l1 as [|x l1 IH]; simpl.
  - destruct (for_each f l2); reflexivity.
  - destruct (f x) as [y|e]; simpl; [|reflexivity].
    rewrite IH. destruct (for_each f l1) as [ys1|e]; simpl; [|reflexivity].
    destruct (for_each f l2); reflexivity.
Qed.

(** [for_each] succeeds exactly when the body succeeds on every element,
    and then the results are those of the elements, in the same order. *)
Lemma for_each_ok_iff {A B} (f : A -> result B) (l : list A) (ys : list B) :
  for_each f l = Ok ys <-> Forall2 (fun x y => f x = Ok y) l ys.
Proof.
  revert ys. induction l as [|x l IH]; intros ys; simpl.
  - split.
    + intros [= <-]. constructor.
    + intros H. inversion H. reflexivity.
  - split.
    + intros H. apply bind_ok_inv in H as (y & Hy & H).
      apply bind_ok_inv in H as (ys' & Hys & [= <-]).
      constructor; [exact Hy | apply IH, Hys].
    + intros H. inversion H as [|? y ? ys' Hy Hys]; subst.
      rewrite Hy. simpl. apply IH in Hys. rewrite Hys. reflexivity.
Qed.

Lemma for_each_ext {A B} (f g : A -> result B) (l : list A) :
  (forall x, In x l -> f x = g x) -> for_each f l = for_each g l.
Proof.
  induction l as [|x l IH]; simpl; intros H; [reflexivity|].
  rewrite (H x) by auto. rewrite IH by auto. reflexivity.
Qed.

(** ** Decimal numerals: [to_string] is read back by [stoi] *)

Lemma small_cases (d : Z) :
  0 <= d < 10 ->
  d = 0 \/ d = 1 \/ d = 2 \/ d = 3 \/ d = 4 \/ d = 5 \/ d = 6 \/ d = 7 \/ d = 8 \/ d = 9.
Proof. lia. Qed.

Ltac each_digit d H :=
  apply small_cases in H;
  repeat (destruct H as [H|H]); subst d; reflexivity.

Lemma digit_in_digit_char (d : Z) :
  0 <= d < 10 -> digit_in 10 (digit_char d) = Some d.
Proof. intros H. each_digit d H. Qed.

Lemma isspace_digit_char (d : Z) :
  0 <= d < 10 -> isspace (digit_char d) = false.
Proof. intros H. each_digit d H. Qed.

Lemma read_sign_digit_char (d : Z) (s : string) :
  0 <= d < 10 -> read_sign (String (digit_char d) s) = (false, String (digit_char d) s).
Proof. intros H. each_digit d H. Qed.

(** Reading the digits written by [to_digits] continues the accumulator
    with the number written. *)
Lemma read_to_digits (fuel : nat) :
  forall (z : Z) (acc : string) (n : nat) (a : Z),
    0 <= z < 10 ^ Z.of_nat (S fuel) ->
    exists k : nat,
      read_digits 10 (to_digits (S fuel) z acc) n a =
      read_digits 10 acc (S (n + k)) (a * 10 ^ Z.of_nat (S k) + z).
Proof.
  assert (Hsmall : forall z acc n a, 0 <= z < 10 ->
            read_digits 10 (String (digit_char (z mod 10)) acc) n a =
            read_digits 10 acc (S (n + 0)) (a * 10 ^ Z.of_nat 1 + z)).
  { intros z acc n a Hz. rewrite Z.mod_small by lia.
    cbn [read_digits]. rewrite digit_in_digit_char by lia.
    rewrite Nat.add_0_r. f_equal. }
  induction fuel as [|fuel IH]; intros z acc n a Hz.
  - exists O. cbn [to_digits].
    assert (z < 10) by (change (10 ^ Z.of_nat 1) with 10 in Hz; lia).
    destruct (z <? 10); apply Hsmall; lia.
  - cbn [to_digits]. destruct (z <? 10) eqn:Hlt.
    + apply Z.ltb_lt in Hlt. exists O. apply Hsmall. lia.
    + apply Z.ltb_ge in Hlt.
      assert (Hdiv : 0 <= z / 10 < 10 ^ Z.of_nat (S fuel)).
      { split; [apply Z.div_pos; lia|].
        apply Z.div_lt_upper_bound; [lia|].
        rewrite (Nat2Z.inj_succ (S fuel)), Z.pow_succ_r in Hz by lia. lia. }
      destruct (IH (z / 10) (String (digit_char (z mod 10)) acc) n a Hdiv)
        as [k Hk].
      exists (S k). cbn [to_digits] in Hk. rewrite Hk. cbn [read_digits].
      rewrite digit_in_digit_char by (apply Z.mod_pos_bound; lia).
      rewrite <- Nat.add_succ_r. f_equal.
      rewrite (Nat2Z.inj_succ (S k)), (Z.pow_succ_r _ (Z.of_nat (S k))) by lia.
      pose proof (Z.div_mod z 10). lia.
Qed.

Lemma to_digits_head (fuel : nat) :
  forall (z : Z) (acc : string),
    0 <= z ->
    exists d s, 0 <= d < 10 /\ to_digits (S fuel) z acc = String (digit_char d) s.
Proof.
  induction fuel as [|fuel IH]; intros z acc Hz.
  - exists (z mod 10), acc. split; [apply Z.mod_pos_bound; lia|].
    cbn [to_digits]. destruct (z <? 10); reflexivity.
  - cbn [to_digits]. destruct (z <? 10) eqn:Hlt.
    + exists (z mod 10), acc. split; [apply Z.mod_pos_bound; lia | reflexivity].
    + apply (IH (z / 10)). apply Z.div_pos; lia.
Qed.

Lemma read_to_digits_nat (z : Z) :
  0 <= z < 10 ^ 10 ->
  exists k : nat, read_digits 10 (to_digits 10 z EmptyString) 0 0 = (S k, z, EmptyString).
Proof.
  intros Hz. destruct (read_to_digits 9 z EmptyString O 0 Hz) as [k Hk].
  exists k. rewrite Hk. reflexivity.
Qed.

Lemma in_int_bounds (z : Z) : in_int z = true <-> - 2 ^ 31 <= z <= 2 ^ 31 - 1.
Proof. unfold in_int, int_min, int_max. lia. Qed.

Lemma read_sign_minus (s : string) :
  read_sign (skip_ws (String "-" s)) = (true, s).
Proof. reflexivity. Qed.

Lemma stoi_to_string (z : Z) : in_int z = true -> stoi (to_string z) = Ok z.
Proof.
  intros Hint. pose proof (proj1 (in_int_bounds z) Hint) as Hb.
  unfold to_string. destruct (z <? 0) eqn:Hneg.
  - apply Z.ltb_lt in Hneg.
    destruct (read_to_digits_nat (- z)) as [k Hk]; [lia|].
    unfold stoi. rewrite read_sign_minus, Hk. rewrite Z.opp_involutive, Hint. reflexivity.
  - apply Z.ltb_ge in Hneg.
    destruct (read_to_digits_nat z) as [k Hk]; [lia|].
    destruct (to_digits_head 9 z EmptyString Hneg) as (d & s & Hd & Hs).
    unfold stoi. rewrite Hs. cbn [skip_ws].
    rewrite isspace_digit_char, read_sign_digit_char by assumption.
    rewrite <- Hs, Hk, Hint. reflexivity.
Qed.

Lemma stream_int_to_string (z : Z) :
  in_int z = true -> stream_int (to_string z) = Some z.
Proof.
  intros Hint. pose proof (proj1 (in_int_bounds z) Hint) as Hb.
  unfold to_string. destruct (z <? 0) eqn:Hneg.
  - apply Z.ltb_lt in Hneg.
    destruct (read_to_digits_nat (- z)) as [k Hk]; [lia|].
    unfold stream_int. rewrite read_sign_minus, Hk. rewrite Z.opp_involutive, Hint. reflexivity.
  - apply Z.ltb_ge in Hneg.
    destruct (read_to_digits_nat z) as [k Hk]; [lia|].
    destruct (to_digits_head 9 z EmptyString Hneg) as (d & s & Hd & Hs).
    unfold stream_int. rewrite Hs. cbn [skip_ws].
    rewrite isspace_digit_char, read_sign_digit_char by assumption.
    rewrite <- Hs, Hk, Hint. reflexivity.
Qed.

(** ** The catalogue scan *)

Lemma find_app_first {A} (q : A -> bool) (l1 l2 : list A) :
  List.find q (l1 ++ l2) =
  match List.find q l1 with
  | Some x => Some x
  | None => List.find q l2
  end.
Proof.
  induction l1 as [|x l1 IH]; simpl; [reflexivity|].
  destruct (q x); [reflexivity | exact IH].
Qed.

Lemma find_map_pre {A B} (q : B -> bool) (g : A -> B) (l : list A) :
  List.find q (map g l) = option_map g (List.find (fun x => q (g x)) l).
Proof.
  induction l as [|x l IH]; simpl; [reflexivity|].
  destruct (q (g x)); [reflexivity | exact IH].
Qed.

Lemma scan_devices_spec f p (fam : string) (devs : list (string * ptree)) :
  Forall (decides f p) (map (fun dev => (fam, dev)) devs) ->
  scan_devices f fam devs =
  Ok (option_map entry_locator
        (List.find (fun e => p (fst (snd e)) (snd (snd e)))
           (map (fun dev => (fam, dev)) devs))).
Proof.
  induction devs as [|dev devs IH]; simpl; intros H; [reflexivity|].
  inversion H as [|? ? Hd Hrest]; subst.
  unfold decides in Hd. simpl in Hd. rewrite Hd. simpl.
  destruct (p (fst dev) (snd dev)); [reflexivity | apply IH, Hrest].
Qed.

Lemma scan_families_spec f p (fams : list (string * ptree)) :
  forallb (fun fam => is_ok (get_child "devices" (snd fam))) fams = true ->
  Forall (decides f p) (flat_map family_devices fams) ->
  scan_families f fams =
  Ok (option_map entry_locator
        (List.find (fun e => p (fst (snd e)) (snd (snd e)))
           (flat_map family_devices fams))).
Proof.
  induction fams as [|fam fams IH]; simpl; intros Hok Hdec; [reflexivity|].
  apply andb_prop in Hok as [Hfam Hok].
  apply Forall_app in Hdec as [Hd1 Hd2].
  unfold family_devices at 1. unfold family_devices at 1 in Hd1.
  destruct (get_child "devices" (snd fam)) as [devs|e]; [|discriminate].
  simpl. rewrite (scan_devices_spec f p (fst fam) (children devs) Hd1).
  simpl. rewrite find_app_first.
  destruct (List.find _ (map _ (children devs))) as [e|]; simpl;
    [reflexivity | apply IH; assumption].
Qed.

Section Catalogue.

Context {TileBitDatabase : Type}.
Implicit Types st : db_state TileBitDatabase.

Lemma find_device_generic_spec f p st :
  families_ok (devices_info st) = true ->
  Forall (decides f p) (catalog_devices (devices_info st)) ->
  find_device_generic f st = Ok (first_match p (devices_info st)).
Proof.
  unfold families_ok, find_device_generic, first_match, catalog_devices,
    catalog_families.
  intros Hok Hdec. apply andb_prop in Hok as [Hfam Hok].
  destruct (get_child "families" (devices_info st)) as [fams|e]; [|discriminate].
  simpl. apply scan_families_spec; assumption.
Qed.

Lemma find_device_by_name_spec (name : string) st :
  families_ok (devices_info st) = true ->
  find_device_by_name name st =
  match first_match (fun n _ => String.eqb n name) (devices_info st) with
  | Some loc => Ok loc
  | None => Err (runtime_error ("no device in database with name " +:+ name))
  end.
Proof.
  intros Hok. unfold find_device_by_name.
  rewrite (find_device_generic_spec _ (fun n _ => String.eqb n name) st Hok).
  - reflexivity.
  - apply List.Forall_forall. intros e _. reflexivity.
Qed.

Lemma idcode_matches_decides (idcode : Z) (cat : ptree) :
  idcodes_ok cat = true ->
  Forall (decides (idcode_matches idcode) (entry_idcode_is idcode))
    (catalog_devices cat).
Proof.
  unfold idcodes_ok. rewrite forallb_forall. intros H.
  apply List.Forall_forall. intros e He. specialize (H e He).
  unfold decides, idcode_matches, entry_idcode_is.
  destruct (get_string "idcode" (snd (snd e))); [reflexivity | discriminate].
Qed.

Lemma find_device_by_idcode_spec (hexstr : Z -> string) (idcode : Z) st :
  families_ok (devices_info st) = true ->
  idcodes_ok (devices_info st) = true ->
  find_device_by_idcode hexstr idcode st =
  match first_match (entry_idcode_is idcode) (devices_info st) with
  | Some loc => Ok loc
  | None => Err (runtime_error ("no device in database with IDCODE "
                                +:+ hexstr idcode))
  end.
Proof.
  intros Hok Hid. unfold find_device_by_idcode.
  rewrite (find_device_generic_spec _ (entry_idcode_is idcode) st Hok).
  - reflexivity.
  - apply idcode_matches_decides, Hid.
Qed.

End Catalogue.

(** ** Lookup by idcode *)

Lemma find_first {A} (q : A -> bool) (l pre post : list A) (x : A) :
  l = pre ++ x :: post ->
  Forall (fun y => q y = false) pre ->
  q x = true ->
  List.find q l = Some x.
Proof.
  intros -> Hpre Hx. induction Hpre as [|y pre Hy _ IH]; simpl.
  - rewrite Hx. reflexivity.
  - rewrite Hy. exact IH.
Qed.

Lemma find_absent {A} (q : A -> bool) (l : list A) :
  Forall (fun y => q y = false) l -> List.find q l = None.
Proof.
  induction 1 as [|y l Hy _ IH]; simpl; [reflexivity|].
  rewrite Hy. exact IH.
Qed.

Lemma parse_uint32_range (s : string) : 0 <= parse_uint32 s < 2 ^ 32.
Proof. unfold parse_uint32, to_uint32. apply Z.mod_pos_bound. lia. Qed.

Lemma read_digits_none (base : Z) (c : ascii) (s : string) (n : nat) (a : Z) :
  digit_in base c = None ->
  read_digits base (String c s) n a = (n, a, String c s).
Proof. intros H. simpl. rewrite H. reflexivity. Qed.

Lemma digit_in_10_8 (c : ascii) :
  digit_in 10 c = None -> digit_in 8 c = None.
Proof.
  unfold digit_in. destruct (digit_val c) as [d|]; [|reflexivity].
  destruct (d <? 10) eqn:H10; [discriminate|].
  intros _. apply Z.ltb_ge in H10.
  destruct (d <? 8) eqn:H8; [apply Z.ltb_lt in H8; lia | reflexivity].
Qed.

Lemma detect_base_no_digit (c : ascii) (s : string) :
  digit_in 10 c = None -> detect_base (String c s) = (10, String c s).
Proof.
  intros H. unfold detect_base.
  destruct (Ascii.eqb c "0") eqn:E.
  - apply Ascii.eqb_eq in E. subst c. discriminate H.
  - destruct c as [[] [] [] [] [] [] [] []]; try reflexivity; discriminate E.
Qed.

Lemma strtoul0_no_leading_integer (s : string) :
  no_leading_integer s = true -> strtoul0 s = 0.
Proof.
  unfold no_leading_integer, strtoul0.
  destruct (read_sign (skip_ws s)) as [neg s1]. simpl snd.
  destruct s1 as [|c s1]; [reflexivity|].
  intros H. apply negb_true_iff, bool_decide_eq_false in H.
  assert (Hc : digit_in 10 c = None).
  { destruct (digit_in 10 c); [exfalso; apply H; eauto | reflexivity]. }
  rewrite (detect_base_no_digit c s1 Hc), (read_digits_none 10 c s1 _ _ Hc).
  reflexivity.
Qed.

Lemma parse_uint32_no_leading_integer (s : string) :
  no_leading_integer s = true -> parse_uint32 s = 0.
Proof.
  intros H. unfold parse_uint32. rewrite strtoul0_no_leading_integer by exact H.
  reflexivity.
Qed.

Section Idcode.

Context {TileBitDatabase : Type}.
Implicit Types st : db_state TileBitDatabase.


(** C9.  [parse_uint32] is total and yields a 32-bit value; a string
    without a leading integer, such as "abc" or the empty string, is read as
    0, and a leading zero selects octal, so "010" is read as 8.  Hence
    [find_device_by_idcode 0] returns a device whose idcode string is not a
    number, namely the first device of the catalogue whose idcode reads as 0,
    instead of rejecting the entry. *)
Theorem parse_uint32_never_fails (hexstr : Z -> string) st :
  (forall s, 0 <= parse_uint32 s < 2 ^ 32)
  /\ (forall s, no_leading_integer s = true -> parse_uint32 s = 0)
  /\ parse_uint32 "abc" = 0
  /\ parse_uint32 EmptyString = 0
  /\ parse_uint32 "010" = 8
  /\ (forall pre e post s,
        families_ok (devices_info st) = true ->
        idcodes_ok (devices_info st) = true ->
        catalog_devices (devices_info st) = pre ++ e :: post ->
        Forall (fun e' => entry_idcode_is 0 (fst (snd e')) (snd (snd e')) = false) pre ->
        get_string "idcode" (snd (snd e)) = Ok s ->
        no_leading_integer s = true ->
        find_device_by_idcode hexstr 0 st = Ok (entry_locator e)).
Proof.
  split; [exact parse_uint32_range|].
  split; [exact parse_uint32_no_leading_integer|].
  do 3 (split; [reflexivity|]).
  intros pre e post s Hok Hid Hcat Hpre Hs Hnon.
  rewrite (find_device_by_idcode_spec hexstr 0 st Hok Hid).
  unfold first_match.
  rewrite (find_first _ _ pre post e Hcat Hpre); [reflexivity|].
  unfold entry_idcode_is. rewrite Hs.
  rewrite (parse_uint32_no_leading_integer s Hnon). reflexivity.
Qed.

End Idcode.


Lemma parse_uint32_never_fails_witness :
  find_device_by_idcode Sample.hexstr 0 (Sample.state_of "/db" Sample.catalog_FG)
  = Ok (DeviceLocator.mk "G" "E").
Proof.
  destruct (parse_uint32_never_fails Sample.hexstr
              (Sample.state_of "/db" Sample.catalog_FG))
    as (_ & _ & _ & _ & _ & H).
  apply (H [("F", ("D", Sample.dev_entry "0x10" 4))]
           ("G", ("E", Sample.dev_entry "abc" 7))
           [("G", ("H", Sample.dev_entry "010" 9))] "abc"%string).
  - reflexivity.
  - reflexivity.
  - reflexivity.
  - repeat constructor.
  - reflexivity.
  - reflexivity.
Defined.

(** ** Lookup by name followed by [get_chip_info] *)

Lemma split_path_plain (s : string) : plain_key s = true -> split_path s = [s].
Proof.
  unfold plain_key. destruct s as [|c s]; [discriminate|]. simpl negb.
  rewrite andb_true_l. revert c.
  induction s as [|c' s IH]; intros c H; simpl in H |- *.
  - destruct (Ascii.eqb c "."); [discriminate | reflexivity].
  - destruct (Ascii.eqb c "."); [discriminate|]. simpl in H.
    specialize (IH c' H). simpl in IH. rewrite IH. reflexivity.
Qed.

Lemma get_child_plain (key : string) (t : ptree) :
  plain_key key = true ->
  get_child key t =
  match ptree_find key (children t) with
  | Some c => Ok c
  | None => Err ptree_bad_path
  end.
Proof.
  intros H. unfold get_child. rewrite (split_path_plain key H). simpl.
  destruct (ptree_find key (children t)); reflexivity.
Qed.

Lemma ptree_find_first (key : string) (kids : list (string * ptree)) :
  ptree_find key kids =
  option_map snd (List.find (fun kv => String.eqb (fst kv) key) kids).
Proof.
  induction kids as [|[k t] kids IH]; simpl; [reflexivity|].
  destruct (String.eqb k key); [reflexivity | exact IH].
Qed.

Lemma ptree_find_key (key : string) (kids : list (string * ptree)) (t : ptree) :
  ptree_find key kids = Some t -> In key (map fst kids).
Proof.
  induction kids as [|[k t'] kids IH]; simpl; [discriminate|].
  destruct (String.eqb k key) eqn:E.
  - apply String.eqb_eq in E. auto.
  - intros H. right. apply IH, H.
Qed.

(** With distinct family names, the entry that the scan by name finds first
    is the entry that the keyed walk family/devices/name arrives at. *)
Lemma first_named_walk (name : string) (fams : list (string * ptree))
    (e : string * (string * ptree)) :
  NoDup (map fst fams) ->
  List.find (fun e => String.eqb (fst (snd e)) name) (flat_map family_devices fams)
  = Some e ->
  exists famnode devs,
    ptree_find (fst e) fams = Some famnode
    /\ get_child "devices" famnode = Ok devs
    /\ ptree_find name (children devs) = Some (snd (snd e))
    /\ fst (snd e) = name.
Proof.
  induction fams as [|fam0 fams IH]; simpl; intros Hnd Hfind; [discriminate|].
  apply NoDup_cons in Hnd as [Hfresh Hnd].
  rewrite find_app_first in Hfind.
  destruct (List.find _ (family_devices fam0)) as [e0|] eqn:Hin0.
  - injection Hfind as ->. unfold family_devices in Hin0.
    destruct (get_child "devices" (snd fam0)) as [devs|] eqn:Hdevs;
      [|discriminate].
    rewrite find_map_pre in Hin0. simpl in Hin0.
    destruct (List.find _ (children devs)) as [dev|] eqn:Hdev; [|discriminate].
    injection Hin0 as <-. simpl.
    destruct fam0 as [k0 t0]. simpl in *. rewrite String.eqb_refl.
    exists t0, devs. split; [reflexivity|]. split; [exact Hdevs|].
    rewrite ptree_find_first, Hdev. split; [reflexivity|].
    apply find_some in Hdev as [_ Hname]. apply String.eqb_eq, Hname.
  - destruct (IH Hnd Hfind) as (famnode & devs & Hfam & Hdevs & Hdev & Hname).
    exists famnode, devs. destruct fam0 as [k0 t0]. simpl in *.
    destruct (String.eqb k0 (fst e)) eqn:E.
    + apply String.eqb_eq in E. subst k0. exfalso. apply Hfresh.
      apply list_elem_of_In. eapply ptree_find_key, Hfam.
    + auto.
Qed.

Lemma find_present {A} (q : A -> bool) (l : list A) (x : A) :
  In x l -> q x = true -> exists y, List.find q l = Some y.
Proof.
  intros Hin Hq. destruct (List.find q l) as [y|] eqn:E; [eauto|].
  pose proof (find_none q l E x Hin) as Hf. congruence.
Qed.

Lemma is_ok_inv {A} (r : result A) : is_ok r = true -> exists a, r = Ok a.
Proof. destruct r; [eauto | discriminate]. Qed.

Section ChipInfoLookup.

Context {TileBitDatabase : Type}.
Implicit Types st : db_state TileBitDatabase.

Lemma name_then_chip_info (name : string) st :
  catalog_wf (devices_info st) = true ->
  In name (map (fun e => fst (snd e)) (catalog_devices (devices_info st))) ->
  exists fam entry ci,
    List.find (fun e => String.eqb (fst (snd e)) name)
      (catalog_devices (devices_info st)) = Some (fam, (name, entry))
    /\ find_device_by_name name st = Ok (DeviceLocator.mk fam name)
    /\ get_chip_info (DeviceLocator.mk fam name) st = Ok ci
    /\ chip_info_from fam name entry ci.
Proof.
  intros Hwf Hin. unfold catalog_wf in Hwf.
  apply andb_prop in Hwf as [Hwf Hentries].
  apply andb_prop in Hwf as [Hwf Hplain].
  apply andb_prop in Hwf as [Hok Hnd]. apply bool_decide_eq_true in Hnd.
  rewrite forallb_forall in Hplain, Hentries.
  apply in_map_iff in Hin as (e0 & He0 & Hin0).
  destruct (find_present (fun e => String.eqb (fst (snd e)) name) _ e0 Hin0)
    as [e Hfind]; [rewrite He0; apply String.eqb_refl|].
  pose proof (find_some _ _ Hfind) as [Hine _].
  pose proof (find_device_by_name_spec name st Hok) as Hname.
  unfold first_match in Hname. rewrite Hfind in Hname. simpl in Hname.
  unfold catalog_devices, catalog_families in *.
  destruct (get_child "families" (devices_info st)) as [fams|] eqn:Hfams;
    [|destruct Hine].
  destruct (first_named_walk name (children fams) e Hnd Hfind)
    as (famnode & devs & Hfam & Hdevs & Hdev & Hen).
  destruct e as [fam [n entry]]. simpl in Hen, Hfam, Hdev. subst n.
  specialize (Hentries _ Hine). simpl in Hentries.
  apply andb_prop in Hentries as [Hnplain Hentry].
  assert (Hfplain : plain_key fam = true).
  { apply in_flat_map in Hine as (f0 & Hf0 & Hine). specialize (Hplain f0 Hf0).
    unfold family_devices in Hine.
    destruct (get_child "devices" (snd f0)); [|destruct Hine].
    apply in_map_iff in Hine as (d & [= <- _] & _). exact Hplain. }
  unfold entry_ok in Hentry.
  repeat (apply andb_prop in Hentry as [Hentry ?]).
  repeat match goal with
         | H : is_ok _ = true |- _ => apply is_ok_inv in H as [? H]
         end.
  unfold entry_locator in Hname. simpl in Hname.
  eexists fam, entry, _. split; [exact Hfind|]. split; [exact Hname|].
  split.
  - unfold get_chip_info. rewrite Hfams.
    cbn [bind DeviceLocator.family DeviceLocator.device].
    rewrite (get_child_plain fam fams Hfplain), Hfam. cbn [bind].
    rewrite Hdevs. cbn [bind].
    rewrite (get_child_plain name devs Hnplain), Hdev. cbn [bind].
    repeat match goal with
           | H : _ entry = Ok _ |- _ => rewrite H; cbn [bind]
           end.
    reflexivity.
  - unfold chip_info_from. simpl. repeat split; eauto.
Qed.

(** C5, as the code has it.  In a well-formed catalogue (distinct family
    names, family and device names that are plain keys, that is non-empty
    and free of the path separator, and complete device entries), for every
    device name that occurs in it, [find_device_by_name] returns the locator of the first entry with
    that name and [get_chip_info] on that locator returns a [ChipInfo] whose
    family and name are the locator's and whose numeric fields are read from
    that very entry.  For the catalogue with the single family "F" and the
    single device "D" whose entry has idcode "0x10" and frames 4, the result
    has family "F", name "D", idcode 16 and num_frames 4. *)
Theorem find_by_name_then_get_chip_info (name : string) st :
  catalog_wf (devices_info st) = true ->
  In name (map (fun e => fst (snd e)) (catalog_devices (devices_info st))) ->
  (exists loc entry ci,
      List.find (fun e => String.eqb (fst (snd e)) name)
        (catalog_devices (devices_info st))
      = Some (DeviceLocator.family loc, (name, entry))
      /\ find_device_by_name name st = Ok loc
      /\ DeviceLocator.device loc = name
      /\ get_chip_info loc st = Ok ci
      /\ chip_info_from (DeviceLocator.family loc) (DeviceLocator.device loc)
           entry ci)
  /\ (forall (dev : ptree) (st' : db_state TileBitDatabase),
        devices_info st' =
          obj [("families", obj [("F", obj [("devices", obj [("D", dev)])])])] ->
        entry_ok dev = true ->
        get_string "idcode" dev = Ok "0x10"%string ->
        get_int "frames" dev = Ok 4 ->
        exists ci,
          find_device_by_name "D" st' = Ok (DeviceLocator.mk "F" "D")
          /\ get_chip_info (DeviceLocator.mk "F" "D") st' = Ok ci
          /\ ChipInfo.family ci = "F"%string
          /\ ChipInfo.name ci = "D"%string
          /\ ChipInfo.idcode ci = 16
          /\ ChipInfo.num_frames ci = 4).
Proof.
  intros Hwf Hin. split.
  - destruct (name_then_chip_info name st Hwf Hin)
      as (fam & entry & ci & Hfind & Hname & Hci & Hfrom).
    exists (DeviceLocator.mk fam name), entry, ci. simpl. auto.
  - intros dev st' Hcat Hentry Hid Hframes.
    destruct (name_then_chip_info "D" st') as (fam & entry & ci & Hfind & Hname & Hci & Hfrom).
    { rewrite Hcat. unfold catalog_wf. cbn. rewrite Hentry. reflexivity. }
    { rewrite Hcat. cbn. auto. }
    rewrite Hcat in Hfind. cbn in Hfind. injection Hfind as <- <-.
    exists ci. destruct Hfrom as (Hf & Hn & Hfr & _ & _ & _ & (s & Hs & Hidc) & _).
    repeat split; try assumption.
    + rewrite Hidc. rewrite Hid in Hs. injection Hs as <-. reflexivity.
    + rewrite Hframes in Hfr. injection Hfr as <-. reflexivity.
Qed.

End ChipInfoLookup.

Lemma find_by_name_then_get_chip_info_witness :
  exists ci,
    find_device_by_name "D" (Sample.state_of "/db" Sample.catalog_FD)
    = Ok (DeviceLocator.mk "F" "D")
    /\ get_chip_info (DeviceLocator.mk "F" "D")
         (Sample.state_of "/db" Sample.catalog_FD) = Ok ci
    /\ ChipInfo.family ci = "F"%string
    /\ ChipInfo.name ci = "D"%string
    /\ ChipInfo.idcode ci = 16
    /\ ChipInfo.num_frames ci = 4.
Proof.
  destruct (find_by_name_then_get_chip_info "D"
              (Sample.state_of "/db" Sample.catalog_FD)) as [_ H].
  - reflexivity.
  - simpl. left. reflexivity.
  - apply (H (Sample.dev_entry "0x10" 4)); reflexivity.
Defined.

(** An entry that has only "idcode" and "frames" is not enough:
    [get_chip_info] reads the other geometry fields too. *)
Lemma get_chip_info_needs_all_fields :
  get_chip_info (DeviceLocator.mk "F" "D")
    (Sample.state_of "/db"
       (obj [("families",
              obj [("F", obj [("devices",
                               obj [("D", obj [("idcode", leaf "0x10");
                                               ("frames", num 4)])])])])]))
  = Err ptree_bad_path.
Proof. reflexivity. Qed.

(** ** ECP5 globals *)

Lemma string_length_2 (q : string) :
  String.length q = 2%nat -> exists a b, q = String a (String b EmptyString).
Proof.
  destruct q as [|a [|b [|c q]]]; simpl; intros H; try discriminate. eauto.
Qed.


(** ** MachXO2 globals: column order *)

Lemma incr_ok_inv (c c' : Z) : incr c = Ok c' -> c' = c + 1.
Proof. unfold incr. destruct (c <? int_max); [intros [= <-]; reflexivity | discriminate]. Qed.

Lemma assert_ok_inv (b : bool) (u : unit) : assert b = Ok u -> b = true.
Proof. destruct b; [reflexivity | discriminate]. Qed.

(** The loop over "ud-conns" completes only on keys that count up from
    [col_no]. *)
Lemma ud_conns_loop_in_order (cols : list (string * ptree)) :
  forall (col_no : Z) (r : list (list Z)),
    ud_conns_loop col_no cols = Ok r -> columns_in_order col_no cols = true.
Proof.
  induction cols as [|ud cols IH]; intros col_no r H; [reflexivity|].
  cbn [ud_conns_loop] in H.
  apply bind_ok_inv in H as (n & Hn & H).
  apply bind_ok_inv in H as (u & Hassert & H).
  apply bind_ok_inv in H as (udc & Hudc & H).
  apply bind_ok_inv in H as (c' & Hc' & H).
  apply bind_ok_inv in H as (rest & Hrest & _).
  apply assert_ok_inv, Z.eqb_eq in Hassert. apply incr_ok_inv in Hc'. subst.
  cbn [columns_in_order]. rewrite Hn, Z.eqb_refl. simpl.
  apply (IH _ _ Hrest).
Qed.




Section MachXO2Order.

Context {TileBitDatabase : Type}.
Implicit Types st : db_state TileBitDatabase.



End MachXO2Order.


(** ** MachXO2 globals: branch spans *)

Lemma digit_char_not_dot (d : Z) :
  0 <= d < 10 -> Ascii.eqb (digit_char d) "." = false.
Proof. intros H. each_digit d H. Qed.

Lemma dot_free_to_digits (fuel : nat) :
  forall (z : Z) (acc : string),
    dot_free acc = true -> dot_free (to_digits fuel z acc) = true.
Proof.
  induction fuel as [|fuel IH]; intros z acc Hacc; [exact Hacc|].
  assert (Hstep : dot_free (String (digit_char (z mod 10)) acc) = true).
  { cbn [dot_free]. rewrite digit_char_not_dot by (apply Z.mod_pos_bound; lia).
    exact Hacc. }
  cbn [to_digits]. destruct (z <? 10); [exact Hstep | apply IH, Hstep].
Qed.

Lemma to_string_plain (z : Z) : plain_key (to_string z) = true.
Proof.
  unfold to_string, plain_key. destruct (z <? 0) eqn:Hneg.
  - cbn [dot_free String.eqb negb andb].
    change (Ascii.eqb "-" ".") with false. cbn [negb andb].
    apply dot_free_to_digits. reflexivity.
  - apply Z.ltb_ge in Hneg.
    rewrite dot_free_to_digits by reflexivity.
    destruct (to_digits_head 9 z EmptyString Hneg) as (d & s & _ & ->).
    reflexivity.
Qed.




Lemma for_each_length {A B} (f : A -> result B) (l : list A) (ys : list B) :
  for_each f l = Ok ys -> length ys = length l.
Proof.
  intros H. apply for_each_ok_iff in H. symmetry. eapply Forall2_length, H.
Qed.




(** ** The tile bit-database cache *)

Section BitdbCache.

Context {TileBitDatabase : Type}.
Implicit Types st : db_state TileBitDatabase.
Implicit Types fs : filesystem TileBitDatabase.
Implicit Types c : call TileBitDatabase.

(** A key found in the store is answered from the store: no file is looked
    at and the state stays as it is. *)
Lemma get_tile_bitdata_hit fs (tile : TileLocator.t) st (h : shared_ptr) :
  bitdb_store st !! tile = Some h ->
  get_tile_bitdata fs tile st = (Ok h, st).
Proof. intros H. unfold get_tile_bitdata. rewrite H. reflexivity. Qed.

Lemma get_tile_bitdata_stored fs (tile : TileLocator.t) st (h : shared_ptr) st1 :
  get_tile_bitdata fs tile st = (Ok h, st1) ->
  bitdb_store st1 !! tile = Some h.
Proof.
  unfold get_tile_bitdata.
  destruct (bitdb_store st !! tile) as [h0|] eqn:Hlook.
  - intros [= <- <-]. exact Hlook.
  - destruct (String.eqb (db_root st) EmptyString); [discriminate|].
    destruct (new_TileBitDatabase fs (bitdb_path tile st)) as [db|];
      [|discriminate].
    intros [= <- <-]. simpl. apply lookup_insert_eq.
Qed.

(** No call removes or replaces an entry of the store. *)
Lemma step_keeps_bitdb c st (tile : TileLocator.t) (h : shared_ptr) :
  bitdb_store st !! tile = Some h -> bitdb_store (step c st) !! tile = Some h.
Proof.
  intros H. destruct c as [fs root|fs part|fs t]; simpl.
  - unfold load_database. destruct (read_json fs _); exact H.
  - unfold get_device_tilegrid.
    destruct (String.eqb (db_root st) EmptyString); [exact H|].
    destruct (get_chip_info part st); [|exact H].
    unfold tilegrid_fill.
    destruct (tilegrid_cache st !! DeviceLocator.device part); [exact H|].
    destruct (read_json fs _); exact H.
  - unfold get_tile_bitdata.
    destruct (bitdb_store st !! t) as [h0|] eqn:Hlook; [exact H|].
    destruct (String.eqb (db_root st) EmptyString); [exact H|].
    destruct (new_TileBitDatabase fs (bitdb_path t st)); [|exact H].
    simpl. rewrite lookup_insert_ne; [exact H | congruence].
Qed.

Lemma run_keeps_bitdb (cs : list (call TileBitDatabase)) :
  forall st (tile : TileLocator.t) (h : shared_ptr),
    bitdb_store st !! tile = Some h -> bitdb_store (run cs st) !! tile = Some h.
Proof.
  induction cs as [|c cs IH]; intros st tile h H; [exact H|].
  simpl. apply IH, step_keeps_bitdb, H.
Qed.

(** Objects are never moved or overwritten: the heap only grows at its end. *)
Lemma step_keeps_heap c st (h : nat) (db : TileBitDatabase) :
  heap st !! h = Some db -> heap (step c st) !! h = Some db.
Proof.
  intros H. destruct c as [fs root|fs part|fs t]; simpl.
  - unfold load_database. destruct (read_json fs _); exact H.
  - unfold get_device_tilegrid.
    destruct (String.eqb (db_root st) EmptyString); [exact H|].
    destruct (get_chip_info part st); [|exact H].
    unfold tilegrid_fill.
    destruct (tilegrid_cache st !! DeviceLocator.device part); [exact H|].
    destruct (read_json fs _); exact H.
  - unfold get_tile_bitdata.
    destruct (bitdb_store st !! t); [exact H|].
    destruct (String.eqb (db_root st) EmptyString); [exact H|].
    destruct (new_TileBitDatabase fs (bitdb_path t st)); [|exact H].
    simpl. apply lookup_app_l_Some, H.
Qed.

Lemma run_keeps_heap (cs : list (call TileBitDatabase)) :
  forall st (h : nat) (db : TileBitDatabase),
    heap st !! h = Some db -> heap (run cs st) !! h = Some db.
Proof.
  induction cs as [|c cs IH]; intros st h db H; [exact H|].
  simpl. apply IH, step_keeps_heap, H.
Qed.

(** A call that constructs for [tile] leaves [tile] in the store. *)
Lemma constructs_stores (tile : TileLocator.t) c st :
  constructs tile c st = true -> is_Some (bitdb_store (step c st) !! tile).
Proof.
  destruct c as [fs root|fs part|fs t]; simpl; try discriminate.
  intros H. apply andb_prop in H as [Ht Hgrow].
  apply bool_decide_eq_true in Ht. subst t.
  apply negb_true_iff, Nat.eqb_neq in Hgrow.
  unfold get_tile_bitdata in *.
  destruct (bitdb_store st !! tile) as [h0|] eqn:Hlook; [eauto|].
  destruct (String.eqb (db_root st) EmptyString); [contradiction Hgrow; reflexivity|].
  destruct (new_TileBitDatabase fs (bitdb_path tile st));
    [|contradiction Hgrow; reflexivity].
  simpl. rewrite lookup_insert_eq. eauto.
Qed.

Lemma constructs_absent (tile : TileLocator.t) c st (h : shared_ptr) :
  bitdb_store st !! tile = Some h -> constructs tile c st = false.
Proof.
  intros H. destruct c as [fs root|fs part|fs t]; simpl; try reflexivity.
  destruct (bool_decide (t = tile)) eqn:Ht; [|reflexivity].
  apply bool_decide_eq_true in Ht. subst t.
  rewrite (get_tile_bitdata_hit fs tile st h H). simpl.
  rewrite Nat.eqb_refl. reflexivity.
Qed.

Lemma constructions_stored (tile : TileLocator.t) (cs : list (call TileBitDatabase)) :
  forall st (h : shared_ptr),
    bitdb_store st !! tile = Some h -> constructions tile cs st = O.
Proof.
  induction cs as [|c cs IH]; intros st h H; [reflexivity|].
  cbn [constructions]. rewrite (constructs_absent tile c st h H).
  rewrite (IH (step c st) h (step_keeps_bitdb c st tile h H)). reflexivity.
Qed.

Lemma constructions_at_most_once (tile : TileLocator.t)
    (cs : list (call TileBitDatabase)) :
  forall st, (constructions tile cs st <= 1)%nat.
Proof.
  induction cs as [|c cs IH]; intros st; cbn [constructions]; [lia|].
  destruct (constructs tile c st) eqn:Hc.
  - destruct (constructs_stores tile c st Hc) as [h Hh].
    rewrite (constructions_stored tile cs (step c st) h Hh). lia.
  - specialize (IH (step c st)). lia.
Qed.

(** C3.  Once [get_tile_bitdata] has returned a handle for a key, every
    later call with that key, after any further calls and whatever the
    files then are, returns the same handle, which still designates the same
    object, and changes nothing: it constructs nothing.  When the key was
    absent the call constructed the object, placed it at a fresh address and
    stored the handle.  Along any history, from any state, at most one
    [TileBitDatabase] is constructed per key. *)
Theorem get_tile_bitdata_single_load fs (tile : TileLocator.t) st
    (h : shared_ptr) st1 :
  get_tile_bitdata fs tile st = (Ok h, st1) ->
  (forall (cs : list (call TileBitDatabase)) fs',
      get_tile_bitdata fs' tile (run cs st1) = (Ok h, run cs st1))
  /\ (forall (cs : list (call TileBitDatabase)) (db : TileBitDatabase),
        heap st1 !! h = Some db -> heap (run cs st1) !! h = Some db)
  /\ (bitdb_store st !! tile = None ->
      exists db,
        new_TileBitDatabase fs (bitdb_path tile st) = Ok db
        /\ h = length (heap st)
        /\ st1 = store_new_bitdb tile db st
        /\ heap st1 !! h = Some db)
  /\ (forall (cs : list (call TileBitDatabase)) st0,
        (constructions tile cs st0 <= 1)%nat).
Proof.
  intros Hcall. split; [|split; [|split]].
  - intros cs fs'. apply get_tile_bitdata_hit, run_keeps_bitdb.
    apply (get_tile_bitdata_stored fs tile st h st1 Hcall).
  - intros cs db. apply run_keeps_heap.
  - intros Hnone. unfold get_tile_bitdata in Hcall. rewrite Hnone in Hcall.
    destruct (String.eqb (db_root st) EmptyString); [discriminate|].
    destruct (new_TileBitDatabase fs (bitdb_path tile st)) as [db|];
      [|discriminate].
    injection Hcall as <- <-. exists db. repeat split.
    simpl. rewrite lookup_app_r by lia. rewrite Nat.sub_diag. reflexivity.
  - intros cs st0. apply constructions_at_most_once.
Qed.

(** C10.  When the constructor throws inside [get_tile_bitdata], the call
    ends with that exception and the state, the store included, is as
    before: the key is still absent.  The next call with the same key runs
    the constructor again and stores the object only if it succeeds. *)
Theorem get_tile_bitdata_failed_load fs (tile : TileLocator.t) st (e : exn) :
  bitdb_store st !! tile = None ->
  String.eqb (db_root st) EmptyString = false ->
  new_TileBitDatabase fs (bitdb_path tile st) = Err e ->
  get_tile_bitdata fs tile st = (Err e, st)
  /\ bitdb_store (snd (get_tile_bitdata fs tile st)) !! tile = None
  /\ (forall fs',
        get_tile_bitdata fs' tile (snd (get_tile_bitdata fs tile st)) =
        match new_TileBitDatabase fs' (bitdb_path tile st) with
        | Ok db => (Ok (length (heap st)), store_new_bitdb tile db st)
        | Err e' => (Err e', st)
        end).
Proof.
  intros Hnone Hroot Hctor.
  assert (Hcall : get_tile_bitdata fs tile st = (Err e, st)).
  { unfold get_tile_bitdata. rewrite Hnone, Hroot, Hctor. reflexivity. }
  rewrite Hcall. simpl. split; [reflexivity|]. split; [exact Hnone|].
  intros fs'. unfold get_tile_bitdata. rewrite Hnone, Hroot. reflexivity.
Qed.

End BitdbCache.

Lemma get_tile_bitdata_single_load_witness :
  get_tile_bitdata Sample.no_files Sample.tile_FT
    (run [call_get_tile_bitdata Sample.twin_files Sample.tile_FU;
          call_get_tile_bitdata Sample.no_files Sample.tile_FT]
       (snd (get_tile_bitdata Sample.twin_files Sample.tile_FT
               (Sample.state_of "/db" Sample.catalog_FD))))
  = (Ok O,
     run [call_get_tile_bitdata Sample.twin_files Sample.tile_FU;
          call_get_tile_bitdata Sample.no_files Sample.tile_FT]
       (snd (get_tile_bitdata Sample.twin_files Sample.tile_FT
               (Sample.state_of "/db" Sample.catalog_FD)))).
Proof.
  apply (proj1 (get_tile_bitdata_single_load Sample.twin_files Sample.tile_FT
                  (Sample.state_of "/db" Sample.catalog_FD) O
                  (snd (get_tile_bitdata Sample.twin_files Sample.tile_FT
                          (Sample.state_of "/db" Sample.catalog_FD)))
                  eq_refl)).
Defined.

Lemma get_tile_bitdata_failed_load_witness :
  get_tile_bitdata Sample.no_files Sample.tile_FT
    (Sample.state_of "/db" Sample.catalog_FD)
  = (Err bitdb_error, Sample.state_of "/db" Sample.catalog_FD)
  /\ fst (get_tile_bitdata Sample.twin_files Sample.tile_FT
            (snd (get_tile_bitdata Sample.no_files Sample.tile_FT
                    (Sample.state_of "/db" Sample.catalog_FD))))
     = Ok O.
Proof.
  destruct (get_tile_bitdata_failed_load Sample.no_files Sample.tile_FT
              (Sample.state_of "/db" Sample.catalog_FD) bitdb_error
              eq_refl eq_refl eq_refl) as (Hfail & _ & Hagain).
  split; [exact Hfail|]. rewrite (Hagain Sample.twin_files). reflexivity.
Defined.

(** ** The tile-grid cache *)

Lemma tile_info_locator (part : DeviceLocator.t) (info : ChipInfo.t)
    (tile : string * ptree) (ti : TileInfo.t) :
  tile_info part info tile = Ok ti ->
  TileInfo.family ti = DeviceLocator.family part
  /\ TileInfo.device ti = DeviceLocator.device part.
Proof.
  unfold tile_info. intros H.
  repeat (apply bind_ok_inv in H as (? & _ & H)).
  injection H as <-. split; reflexivity.
Qed.

Lemma for_each_Forall {A B} (f : A -> result B) (P : B -> Prop) (l : list A)
    (ys : list B) :
  (forall x y, f x = Ok y -> P y) -> for_each f l = Ok ys -> Forall P ys.
Proof.
  intros HP H. apply for_each_ok_iff in H.
  induction H as [|x y l ys Hxy _ IH]; constructor; eauto.
Qed.

Section TilegridCache.

Context {TileBitDatabase : Type}.
Implicit Types st : db_state TileBitDatabase.
Implicit Types fs : filesystem TileBitDatabase.
Implicit Types c : call TileBitDatabase.

Lemma get_chip_info_ext (part : DeviceLocator.t) st st' :
  devices_info st = devices_info st' ->
  get_chip_info part st = get_chip_info part st'.
Proof. intros H. unfold get_chip_info. rewrite H. reflexivity. Qed.

Lemma tilegrid_view_ext (part : DeviceLocator.t) st st' (tg : ptree) :
  db_root st = db_root st' ->
  devices_info st = devices_info st' ->
  tilegrid_view part st tg = tilegrid_view part st' tg.
Proof.
  intros Hr Hd. unfold tilegrid_view.
  rewrite Hr, (get_chip_info_ext part st st' Hd). reflexivity.
Qed.

(** Only [load_database] writes the root and the catalogue. *)
Lemma step_read_only c st :
  is_load c = false ->
  db_root (step c st) = db_root st /\ devices_info (step c st) = devices_info st.
Proof.
  destruct c as [fs root|fs part|fs t]; simpl; [discriminate| |]; intros _.
  - unfold get_device_tilegrid.
    destruct (String.eqb (db_root st) EmptyString); [auto|].
    destruct (get_chip_info part st); [|auto].
    unfold tilegrid_fill.
    destruct (tilegrid_cache st !! DeviceLocator.device part); [auto|].
    destruct (read_json fs _); auto.
  - unfold get_tile_bitdata.
    destruct (bitdb_store st !! t); [auto|].
    destruct (String.eqb (db_root st) EmptyString); [auto|].
    destruct (new_TileBitDatabase fs (bitdb_path t st)); auto.
Qed.

Lemma run_read_only (cs : list (call TileBitDatabase)) :
  forall st,
    catalog_read_only cs = true ->
    db_root (run cs st) = db_root st /\ devices_info (run cs st) = devices_info st.
Proof.
  induction cs as [|c cs IH]; intros st H; [auto|].
  simpl in H. apply andb_prop in H as [Hc Hcs]. apply negb_true_iff in Hc.
  simpl. destruct (IH (step c st) Hcs) as [Hr Hd].
  destruct (step_read_only c st Hc) as [Hr' Hd']. split; congruence.
Qed.

(** No call removes or replaces a raw table of the cache. *)
Lemma step_keeps_tilegrid c st (key : string) (tg : ptree) :
  tilegrid_cache st !! key = Some tg ->
  tilegrid_cache (step c st) !! key = Some tg.
Proof.
  intros H. destruct c as [fs root|fs part|fs t]; simpl.
  - unfold load_database. destruct (read_json fs _); exact H.
  - unfold get_device_tilegrid.
    destruct (String.eqb (db_root st) EmptyString); [exact H|].
    destruct (get_chip_info part st); [|exact H].
    unfold tilegrid_fill.
    destruct (tilegrid_cache st !! DeviceLocator.device part) eqn:Hlook;
      [exact H|].
    destruct (read_json fs _); [|exact H].
    simpl. rewrite lookup_insert_ne; [exact H | congruence].
  - unfold get_tile_bitdata.
    destruct (bitdb_store st !! t); [exact H|].
    destruct (String.eqb (db_root st) EmptyString); [exact H|].
    destruct (new_TileBitDatabase fs (bitdb_path t st)); exact H.
Qed.

Lemma run_keeps_tilegrid (cs : list (call TileBitDatabase)) :
  forall st (key : string) (tg : ptree),
    tilegrid_cache st !! key = Some tg ->
    tilegrid_cache (run cs st) !! key = Some tg.
Proof.
  induction cs as [|c cs IH]; intros st key tg H; [exact H|].
  simpl. apply IH, step_keeps_tilegrid, H.
Qed.

(** With the raw table in the cache, the call reads no file, leaves the
    state alone and derives its result from the table. *)
Lemma get_device_tilegrid_cached fs (part : DeviceLocator.t) st (tg : ptree) :
  tilegrid_cache st !! DeviceLocator.device part = Some tg ->
  get_device_tilegrid fs part st = (tilegrid_view part st tg, st).
Proof.
  intros H. unfold get_device_tilegrid, tilegrid_view.
  destruct (String.eqb (db_root st) EmptyString); [reflexivity|].
  destruct (get_chip_info part st) as [info|]; [|reflexivity].
  unfold tilegrid_fill, tilegrid_cache_at. rewrite H. cbv beta iota zeta.
  rewrite H. reflexivity.
Qed.

(** The call that leaves the raw table [tg] in the cache, be it the one
    that read the file, derives its result from [tg] too. *)
Lemma get_device_tilegrid_loaded fs (part : DeviceLocator.t) st (tg : ptree) :
  tilegrid_cache (snd (get_device_tilegrid fs part st))
    !! DeviceLocator.device part = Some tg ->
  fst (get_device_tilegrid fs part st) = tilegrid_view part st tg.
Proof.
  unfold get_device_tilegrid, tilegrid_view.
  destruct (String.eqb (db_root st) EmptyString); [reflexivity|].
  destruct (get_chip_info part st) as [info|]; [|reflexivity].
  unfold tilegrid_fill, tilegrid_cache_at.
  destruct (tilegrid_cache st !! DeviceLocator.device part) as [tg0|] eqn:Hlook.
  - simpl. rewrite Hlook. intros [= <-]. reflexivity.
  - destruct (read_json fs _) as [tgp|]; simpl.
    + rewrite lookup_insert_eq. intros [= <-]. reflexivity.
    + rewrite Hlook. discriminate.
Qed.

Lemma tilegrid_view_locator (part : DeviceLocator.t) st (tg : ptree)
    (tiles : list TileInfo.t) :
  tilegrid_view part st tg = Ok tiles ->
  Forall (fun ti => TileInfo.family ti = DeviceLocator.family part
                    /\ TileInfo.device ti = DeviceLocator.device part) tiles.
Proof.
  unfold tilegrid_view.
  destruct (String.eqb (db_root st) EmptyString); [discriminate|].
  destruct (get_chip_info part st) as [info|]; [|discriminate].
  apply for_each_Forall. apply tile_info_locator.
Qed.

(** C7.  Once the raw table of a device is in the cache, be it put there by
    the call at hand, every later call with the same locator, after any
    further calls that leave the catalogue alone and whatever the files then
    are, returns a result equal to the first: the sequence is derived anew
    from the cached raw table, the state holds the raw table only and is not
    changed by the call, and every [TileInfo] carries the family and device
    of the locator passed in. *)
Theorem get_device_tilegrid_repeatable fs1 fs2 (part : DeviceLocator.t) st
    (tg : ptree) (cs : list (call TileBitDatabase)) :
  tilegrid_cache (snd (get_device_tilegrid fs1 part st))
    !! DeviceLocator.device part = Some tg ->
  catalog_read_only cs = true ->
  fst (get_device_tilegrid fs2 part
         (run cs (snd (get_device_tilegrid fs1 part st))))
  = fst (get_device_tilegrid fs1 part st)
  /\ snd (get_device_tilegrid fs2 part
            (run cs (snd (get_device_tilegrid fs1 part st))))
     = run cs (snd (get_device_tilegrid fs1 part st))
  /\ fst (get_device_tilegrid fs1 part st) = tilegrid_view part st tg
  /\ (forall tiles,
        fst (get_device_tilegrid fs1 part st) = Ok tiles ->
        Forall (fun ti => TileInfo.family ti = DeviceLocator.family part
                          /\ TileInfo.device ti = DeviceLocator.device part)
          tiles).
Proof.
  intros Hloaded Hro.
  pose proof (get_device_tilegrid_loaded fs1 part st tg Hloaded) as Hfirst.
  set (st1 := snd (get_device_tilegrid fs1 part st)) in *.
  pose proof (run_keeps_tilegrid cs st1 _ tg Hloaded) as Hkept.
  rewrite (get_device_tilegrid_cached fs2 part (run cs st1) tg Hkept). simpl.
  destruct (run_read_only cs st1 Hro) as [Hr Hd].
  destruct (step_read_only (call_get_device_tilegrid fs1 part) st eq_refl)
    as [Hr1 Hd1].
  simpl in Hr1, Hd1. fold st1 in Hr1, Hd1.
  split; [|split; [reflexivity|split; [exact Hfirst|]]].
  - rewrite Hfirst. apply tilegrid_view_ext; congruence.
  - intros tiles Htiles. rewrite Hfirst in Htiles.
    apply (tilegrid_view_locator part st tg tiles Htiles).
Qed.

(** Two locators share a cache entry exactly when their device strings are
    equal; the family plays no part in the key. *)
Lemma share_tilegrid_entry_iff (p1 p2 : DeviceLocator.t) :
  share_tilegrid_entry TileBitDatabase p1 p2
  <-> DeviceLocator.device p1 = DeviceLocator.device p2.
Proof.
  unfold share_tilegrid_entry. split.
  - intros Hshare.
    destruct (decide (DeviceLocator.device p1 = DeviceLocator.device p2))
      as [Heq|Hne]; [exact Heq|exfalso].
    set (fs := {| read_json := fun _ => Ok (PTree EmptyString []);
                  new_TileBitDatabase := fun _ => Err bitdb_error |}
               : filesystem TileBitDatabase).
    set (fs' := {| read_json := fun _ => Err json_parser_error;
                   new_TileBitDatabase := fun _ => Err bitdb_error |}
                : filesystem TileBitDatabase).
    set (st := {| db_root := "/db"; devices_info := PTree EmptyString [];
                  tilegrid_cache := ∅; bitdb_store := ∅; heap := [] |}
               : db_state TileBitDatabase).
    set (st1 := set_tilegrid_cache
                  (<[DeviceLocator.device p1 := PTree EmptyString []]>
                     (tilegrid_cache st)) st).
    specialize (Hshare fs fs' st st1 eq_refl).
    assert (Hlook : tilegrid_cache st1 !! DeviceLocator.device p2 = None).
    { unfold st1. cbn [tilegrid_cache set_tilegrid_cache].
      rewrite lookup_insert_ne by exact Hne. apply lookup_empty. }
    unfold tilegrid_fill in Hshare. rewrite Hlook in Hshare.
    discriminate Hshare.
  - intros Heq fs fs' st st1 Hfill. unfold tilegrid_fill in *.
    rewrite <- Heq.
    destruct (tilegrid_cache st !! DeviceLocator.device p1) as [tg|] eqn:Hlook.
    + injection Hfill as <-. rewrite Hlook. reflexivity.
    + destruct (read_json fs _) as [tgp|]; [|discriminate].
      injection Hfill as <-. simpl. rewrite lookup_insert_eq. reflexivity.
Qed.

(** C1, as the code has it.  The cache of raw tile grids is keyed by the
    device string alone: two locators share an entry exactly when their
    device strings are equal, whatever their families.  The file read for a
    missing entry is the one under the family of the locator at hand, and a
    later call with a locator of the same device string, of any family,
    derives its result from that stored table without reading a file. *)
Theorem tilegrid_cache_keyed_by_device (p1 p2 : DeviceLocator.t) :
  (share_tilegrid_entry TileBitDatabase p1 p2
   <-> DeviceLocator.device p1 = DeviceLocator.device p2)
  /\ (forall fs fs' st tg info,
        DeviceLocator.device p1 = DeviceLocator.device p2 ->
        String.eqb (db_root st) EmptyString = false ->
        get_chip_info p1 st = Ok info ->
        tilegrid_cache st !! DeviceLocator.device p1 = None ->
        read_json fs (db_root st +:+ "/" +:+ DeviceLocator.family p1 +:+ "/"
                      +:+ DeviceLocator.device p1 +:+ "/" +:+ "tilegrid.json")
        = Ok tg ->
        fst (get_device_tilegrid fs p1 st) = tilegrid_view p1 st tg
        /\ fst (get_device_tilegrid fs' p2 (snd (get_device_tilegrid fs p1 st)))
           = tilegrid_view p2 st tg).
Proof.
  split; [apply share_tilegrid_entry_iff|].
  intros fs fs' st tg info Hdev Hroot Hinfo Hnone Hread.
  assert (Hcall : get_device_tilegrid fs p1 st =
                  (tilegrid_view p1 st tg,
                   set_tilegrid_cache
                     (<[DeviceLocator.device p1 := tg]> (tilegrid_cache st)) st)).
  { unfold get_device_tilegrid, tilegrid_view, tilegrid_fill, tilegrid_cache_at,
      device_file.
    rewrite Hroot, Hinfo, Hnone, Hread. simpl.
    rewrite lookup_insert_eq. reflexivity. }
  rewrite Hcall. simpl. split; [reflexivity|].
  rewrite (get_device_tilegrid_cached fs' p2 _ tg).
  - simpl. apply tilegrid_view_ext; reflexivity.
  - simpl. rewrite <- Hdev. apply lookup_insert_eq.
Qed.

End TilegridCache.

Lemma get_device_tilegrid_repeatable_witness :
  fst (get_device_tilegrid Sample.no_files Sample.part_F1D
         (run [call_get_tile_bitdata Sample.twin_files Sample.tile_FT;
               call_get_device_tilegrid Sample.twin_files Sample.part_FD]
            (snd (get_device_tilegrid Sample.twin_files Sample.part_F1D
                    (Sample.state_of "/db" Sample.catalog_twin)))))
  = fst (get_device_tilegrid Sample.twin_files Sample.part_F1D
           (Sample.state_of "/db" Sample.catalog_twin)).
Proof.
  apply (proj1 (get_device_tilegrid_repeatable Sample.twin_files Sample.no_files
                  Sample.part_F1D (Sample.state_of "/db" Sample.catalog_twin)
                  (Sample.grid "T1")
                  [call_get_tile_bitdata Sample.twin_files Sample.tile_FT;
                   call_get_device_tilegrid Sample.twin_files Sample.part_FD]
                  eq_refl eq_refl)).
Defined.

Lemma tilegrid_cache_keyed_by_device_witness :
  fst (get_device_tilegrid Sample.no_files Sample.part_F2D
         (snd (get_device_tilegrid Sample.twin_files Sample.part_F1D
                 (Sample.state_of "/db" Sample.catalog_twin))))
  = tilegrid_view Sample.part_F2D (Sample.state_of "/db" Sample.catalog_twin)
      (Sample.grid "T1").
Proof.
  destruct (tilegrid_cache_keyed_by_device (TileBitDatabase := Sample.bitdb)
              Sample.part_F1D Sample.part_F2D) as [_ H].
  destruct (get_chip_info Sample.part_F1D
              (Sample.state_of "/db" Sample.catalog_twin)) as [info|] eqn:Hinfo;
    [|discriminate Hinfo].
  apply (H Sample.twin_files Sample.no_files
           (Sample.state_of "/db" Sample.catalog_twin) (Sample.grid "T1") info
           eq_refl eq_refl Hinfo eq_refl eq_refl).
Defined.

(** C1 as stated fails: the locators (F1, D) and (F2, D) differ, yet they
    share one cache entry.  After a call for (F1, D), the call for (F2, D)
    does not read F2's own file, whose only tile is "T2": it returns the tile
    "T1" of F1's file, labelled with family "F2". *)
Lemma tilegrid_entry_shared_across_families :
  Sample.part_F1D <> Sample.part_F2D
  /\ share_tilegrid_entry Sample.bitdb Sample.part_F1D Sample.part_F2D
  /\ read_json Sample.twin_files "/db/F2/D/tilegrid.json" = Ok (Sample.grid "T2")
  /\ match fst (get_device_tilegrid Sample.twin_files Sample.part_F2D
                  (snd (get_device_tilegrid Sample.twin_files Sample.part_F1D
                          (Sample.state_of "/db" Sample.catalog_twin)))) with
     | Ok [ti] => TileInfo.name ti = "T1"%string
                  /\ TileInfo.family ti = "F2"%string
     | _ => False
     end.
Proof.
  split; [discriminate|]. split; [apply share_tilegrid_entry_iff; reflexivity|].
  split; [reflexivity|]. vm_compute. split; reflexivity.
Qed.

(** * Further properties of the database layer *)

(** ** The catalogue scan: what a successful lookup returns *)

Lemma scan_devices_sound f (fam : string) (devs : list (string * ptree))
    (loc : DeviceLocator.t) :
  scan_devices f fam devs = Ok (Some loc) ->
  exists dev, In dev devs /\ f (fst dev) (snd dev) = Ok true
              /\ loc = DeviceLocator.mk fam (fst dev).
Proof.
  induction devs as [|dev devs IH]; simpl; intros H; [discriminate|].
  apply bind_ok_inv in H as (res & Hres & H). destruct res.
  - injection H as <-. exists dev. auto.
  - destruct (IH H) as (d & Hin & Hd & Hloc). exists d. auto.
Qed.

Lemma scan_families_sound f (fams : list (string * ptree)) (loc : DeviceLocator.t) :
  scan_families f fams = Ok (Some loc) ->
  exists e, In e (flat_map family_devices fams)
            /\ f (fst (snd e)) (snd (snd e)) = Ok true
            /\ loc = entry_locator e.
Proof.
  induction fams as [|fam fams IH]; simpl; intros H; [discriminate|].
  apply bind_ok_inv in H as (devs & Hdevs & H).
  apply bind_ok_inv in H as (found & Hfound & H).
  destruct found as [loc'|].
  - injection H as <-.
    destruct (scan_devices_sound f _ _ _ Hfound) as (dev & Hin & Hd & Hloc).
    exists (fst fam, dev). split; [|auto].
    apply in_or_app. left. unfold family_devices. rewrite Hdevs.
    apply in_map_iff. eauto.
  - destruct (IH H) as (e & Hin & He & Hloc). exists e. split; [|auto].
    apply in_or_app. right. exact Hin.
Qed.

(** A scan that has found its device in a prefix of the families does not
    look at the families that follow; one that failed there fails alike. *)
Lemma scan_families_prefix f (pre post : list (string * ptree)) :
  match scan_families f pre with
  | Ok (Some loc) => scan_families f (pre ++ post) = Ok (Some loc)
  | Ok None => scan_families f (pre ++ post) = scan_families f post
  | Err e => scan_families f (pre ++ post) = Err e
  end.
Proof.
  induction pre as [|fam pre IH]; simpl; [reflexivity|].
  destruct (get_child "devices" (snd fam)) as [devs|]; simpl; [|reflexivity].
  destruct (scan_devices f (fst fam) (children devs)) as [[loc|]|]; simpl;
    [reflexivity | exact IH | reflexivity].
Qed.

Lemma get_child_error (path : string) (t : ptree) (e : exn) :
  get_child path t = Err e -> e = ptree_bad_path.
Proof.
  unfold get_child. destruct (walk_path _ t); [discriminate|].
  intros [= <-]. reflexivity.
Qed.

Lemma ptree_find_some_in (key : string) (kids : list (string * ptree)) (t : ptree) :
  ptree_find key kids = Some t -> In (key, t) kids.
Proof.
  induction kids as [|[k t'] kids IH]; simpl; [discriminate|].
  destruct (String.eqb k key) eqn:E.
  - apply String.eqb_eq in E. intros [= <-]. left. congruence.
  - intros H. right. apply IH, H.
Qed.

Lemma ptree_find_in (key : string) (kids : list (string * ptree)) (t : ptree) :
  In (key, t) kids -> exists t', ptree_find key kids = Some t'.
Proof.
  induction kids as [|[k t'] kids IH]; simpl; intros H; [destruct H|].
  destruct (String.eqb k key) eqn:E; [eauto|].
  destruct H as [[= -> ->]|H]; [|apply IH, H].
  rewrite String.eqb_refl in E. discriminate.
Qed.

Lemma ptree_find_nodup (key : string) (kids : list (string * ptree)) (t : ptree) :
  NoDup (map fst kids) -> In (key, t) kids -> ptree_find key kids = Some t.
Proof.
  induction kids as [|[k t'] kids IH]; simpl; intros Hnd H; [destruct H|].
  apply NoDup_cons in Hnd as [Hfresh Hnd].
  destruct H as [[= -> ->]|H].
  - rewrite String.eqb_refl. reflexivity.
  - destruct (String.eqb k key) eqn:E; [|apply IH; assumption].
    apply String.eqb_eq in E. subst k. exfalso. apply Hfresh.
    apply list_elem_of_In, in_map_iff. exists (key, t). auto.
Qed.

Lemma nodup_map_inj {A B} (f : A -> B) (l : list A) (x y : A) :
  NoDup (map f l) -> In x l -> In y l -> f x = f y -> x = y.
Proof.
  induction l as [|a l IH]; simpl; intros Hnd Hx Hy Hf; [destruct Hx|].
  apply NoDup_cons in Hnd as [Hfresh Hnd].
  destruct Hx as [->|Hx], Hy as [->|Hy]; auto.
  - exfalso. apply Hfresh. rewrite Hf. apply list_elem_of_In, in_map, Hy.
  - exfalso. apply Hfresh. rewrite <- Hf. apply list_elem_of_In, in_map, Hx.
Qed.

Lemma in_family_devices (fam : string * ptree) (e : string * (string * ptree)) :
  In e (family_devices fam) ->
  exists devs, get_child "devices" (snd fam) = Ok devs
               /\ fst e = fst fam /\ In (snd e) (children devs).
Proof.
  unfold family_devices.
  destruct (get_child "devices" (snd fam)) as [devs|]; [|intros []].
  intros H. apply in_map_iff in H as (dev & <- & Hin). exists devs. auto.
Qed.

Section CatalogueExtras.

Context {TileBitDatabase : Type}.
Implicit Types st : db_state TileBitDatabase.

Lemma find_device_generic_sound f st (loc : DeviceLocator.t) :
  find_device_generic f st = Ok (Some loc) ->
  exists e, In e (catalog_devices (devices_info st))
            /\ f (fst (snd e)) (snd (snd e)) = Ok true
            /\ loc = entry_locator e.
Proof.
  unfold find_device_generic, catalog_devices, catalog_families. intros H.
  apply bind_ok_inv in H as (fams & Hfams & H). rewrite Hfams.
  apply (scan_families_sound f _ _ H).
Qed.

(** X1.  Whatever the catalogue looks like, a locator returned by
    [find_device_by_name] names the requested device and an entry of the
    catalogue, and a locator returned by [find_device_by_idcode] is an entry
    whose idcode string reads as the requested idcode. *)
Theorem find_device_sound (hexstr : Z -> string) st :
  (forall name loc,
      find_device_by_name name st = Ok loc ->
      DeviceLocator.device loc = name
      /\ exists entry,
           In (DeviceLocator.family loc, (name, entry))
              (catalog_devices (devices_info st)))
  /\ (forall idcode loc,
        find_device_by_idcode hexstr idcode st = Ok loc ->
        exists entry s,
          In (DeviceLocator.family loc, (DeviceLocator.device loc, entry))
             (catalog_devices (devices_info st))
          /\ get_string "idcode" entry = Ok s
          /\ parse_uint32 s = idcode).
Proof.
  split.
  - intros name loc H. unfold find_device_by_name in H.
    apply bind_ok_inv in H as (found & Hfound & H).
    destruct found as [loc'|]; [|discriminate]. injection H as ->.
    destruct (find_device_generic_sound _ st loc Hfound)
      as ([fam [n entry]] & Hin & Hf & ->).
    simpl in Hf. injection Hf as Hf. apply String.eqb_eq in Hf. subst n.
    simpl. split; [reflexivity|]. exists entry. exact Hin.
  - intros idcode loc H. unfold find_device_by_idcode in H.
    apply bind_ok_inv in H as (found & Hfound & H).
    destruct found as [loc'|]; [|discriminate]. injection H as ->.
    destruct (find_device_generic_sound _ st loc Hfound)
      as ([fam [n entry]] & Hin & Hf & ->).
    simpl in Hf. unfold idcode_matches in Hf.
    apply bind_ok_inv in Hf as (s & Hs & Hf). injection Hf as Hf.
    apply Z.eqb_eq in Hf. simpl. exists entry, s. auto.
Qed.

(** X2.  In a catalogue whose families all have a "devices" object,
    [find_device_by_name] returns the locator of the first entry, in file
    order, with the requested name, and throws the [runtime_error] that names
    the device when no entry has it. *)
Theorem find_device_by_name_first (name : string) st :
  families_ok (devices_info st) = true ->
  (forall pre e post,
      catalog_devices (devices_info st) = pre ++ e :: post ->
      Forall (fun e' => String.eqb (fst (snd e')) name = false) pre ->
      fst (snd e) = name ->
      find_device_by_name name st = Ok (DeviceLocator.mk (fst e) name))
  /\ (~ In name (map (fun e => fst (snd e)) (catalog_devices (devices_info st))) ->
      find_device_by_name name st =
      Err (runtime_error ("no device in database with name " +:+ name))).
Proof.
  intros Hok. pose proof (find_device_by_name_spec name st Hok) as Hspec.
  unfold first_match in Hspec. split.
  - intros pre e post Hcat Hpre He. rewrite Hspec.
    rewrite (find_first _ _ pre post e Hcat Hpre).
    + unfold entry_locator. simpl. rewrite He. reflexivity.
    + rewrite He. apply String.eqb_refl.
  - intros Hnot. rewrite Hspec, find_absent; [reflexivity|].
    apply List.Forall_forall. intros e He.
    destruct (String.eqb (fst (snd e)) name) eqn:E; [|reflexivity].
    apply String.eqb_eq in E. exfalso. apply Hnot.
    apply in_map_iff. exists e. auto.
Qed.

(** X3.  The scan stops at the first match: when the lookup succeeds on a
    catalogue, it returns the same locator on every catalogue that extends
    the "families" object by further families, whatever these contain, be
    they malformed; and a lookup that ends with [ptree_bad_path], because a
    family without a "devices" object is reached before any match, ends so
    on every such extension, even one that holds the device. *)
Theorem find_device_by_name_stops_at_match (name : string) st st'
    (fams fams' : ptree) (post : list (string * ptree)) :
  get_child "families" (devices_info st) = Ok fams ->
  get_child "families" (devices_info st') = Ok fams' ->
  children fams' = children fams ++ post ->
  (forall loc, find_device_by_name name st = Ok loc ->
               find_device_by_name name st' = Ok loc)
  /\ (find_device_by_name name st = Err ptree_bad_path ->
      find_device_by_name name st' = Err ptree_bad_path).
Proof.
  intros Hfams Hfams' Hext. unfold find_device_by_name, find_device_generic.
  rewrite Hfams, Hfams'. cbn [bind]. rewrite Hext.
  pose proof (scan_families_prefix (fun n _ => Ok (String.eqb n name))
                (children fams) post) as Hpre.
  destruct (scan_families _ (children fams)) as [[loc|]|e]; cbn [bind].
  - rewrite Hpre. auto.
  - split; [intros loc H; discriminate H | intros H; discriminate H].
  - rewrite Hpre. cbn [bind]. split; [intros loc H; discriminate H | auto].
Qed.

End CatalogueExtras.

Lemma find_device_sound_witness :
  DeviceLocator.device (DeviceLocator.mk "G" "H") = "H"%string
  /\ exists entry,
       In (DeviceLocator.family (DeviceLocator.mk "G" "H"), ("H"%string, entry))
          (catalog_devices (devices_info (Sample.state_of "/db" Sample.catalog_FG))).
Proof.
  destruct (find_device_sound Sample.hexstr
              (Sample.state_of "/db" Sample.catalog_FG)) as [H _].
  apply (H "H"%string (DeviceLocator.mk "G" "H") eq_refl).
Defined.

Lemma find_device_by_name_first_witness :
  find_device_by_name "H" (Sample.state_of "/db" Sample.catalog_FG)
  = Ok (DeviceLocator.mk "G" "H")
  /\ find_device_by_name "X" (Sample.state_of "/db" Sample.catalog_FG)
     = Err (runtime_error "no device in database with name X").
Proof.
  split.
  - apply (proj1 (find_device_by_name_first "H"
                    (Sample.state_of "/db" Sample.catalog_FG) eq_refl)
             [("F", ("D", Sample.dev_entry "0x10" 4));
              ("G", ("E", Sample.dev_entry "abc" 7))]
             ("G", ("H", Sample.dev_entry "010" 9)) []).
    + reflexivity.
    + repeat constructor.
    + reflexivity.
  - apply (proj2 (find_device_by_name_first "X"
                    (Sample.state_of "/db" Sample.catalog_FG) eq_refl)).
    simpl. intros [H|[H|[H|[]]]]; discriminate H.
Defined.

Lemma find_device_by_name_stops_at_match_witness :
  find_device_by_name "D"
    (Sample.state_of "/db"
       (obj [("families",
              obj [("F", obj [("devices", obj [("D", Sample.dev_entry "0x10" 4)])]);
                   ("broken", leaf "no devices here")])]))
  = Ok (DeviceLocator.mk "F" "D").
Proof.
  apply (proj1 (find_device_by_name_stops_at_match "D"
                  (Sample.state_of "/db" Sample.catalog_FD)
                  (Sample.state_of "/db"
                     (obj [("families",
                            obj [("F", obj [("devices",
                                             obj [("D", Sample.dev_entry "0x10" 4)])]);
                                 ("broken", leaf "no devices here")])]))
                  (obj [("F", obj [("devices", obj [("D", Sample.dev_entry "0x10" 4)])])])
                  (obj [("F", obj [("devices", obj [("D", Sample.dev_entry "0x10" 4)])]);
                        ("broken", leaf "no devices here")])
                  [("broken"%string, leaf "no devices here")]
                  eq_refl eq_refl eq_refl)).
  reflexivity.
Defined.

(** ** [get_chip_info] on the locators of the catalogue *)

Section ChipInfoExtras.

Context {TileBitDatabase : Type}.
Implicit Types st : db_state TileBitDatabase.

(** The keyed walk of [get_chip_info], once each step is known to arrive. *)
Lemma get_chip_info_walk (fam name : string) st (fams famnode devs entry : ptree) :
  get_child "families" (devices_info st) = Ok fams ->
  plain_key fam = true ->
  ptree_find fam (children fams) = Some famnode ->
  get_child "devices" famnode = Ok devs ->
  plain_key name = true ->
  ptree_find name (children devs) = Some entry ->
  entry_ok entry = true ->
  exists ci, get_chip_info (DeviceLocator.mk fam name) st = Ok ci
             /\ chip_info_from fam name entry ci.
Proof.
  intros Hfams Hfplain Hfam Hdevs Hnplain Hdev Hentry.
  unfold entry_ok in Hentry.
  repeat (apply andb_prop in Hentry as [Hentry ?]).
  repeat match goal with
         | H : is_ok _ = true |- _ => apply is_ok_inv in H as [? H]
         end.
  eexists. split.
  - unfold get_chip_info. rewrite Hfams.
    cbn [bind DeviceLocator.family DeviceLocator.device].
    rewrite (get_child_plain fam fams Hfplain), Hfam. cbn [bind].
    rewrite Hdevs. cbn [bind].
    rewrite (get_child_plain name devs Hnplain), Hdev. cbn [bind].
    repeat match goal with
           | H : _ entry = Ok _ |- _ => rewrite H; cbn [bind]
           end.
    reflexivity.
  - unfold chip_info_from. simpl. repeat split; eauto.
Qed.

Lemma get_chip_info_entry st (e : string * (string * ptree)) :
  catalog_wf (devices_info st) = true ->
  In e (catalog_devices (devices_info st)) ->
  exists entry ci,
    In (fst e, (fst (snd e), entry)) (catalog_devices (devices_info st))
    /\ get_chip_info (entry_locator e) st = Ok ci
    /\ chip_info_from (fst e) (fst (snd e)) entry ci.
Proof.
  intros Hwf Hin. unfold catalog_wf in Hwf.
  apply andb_prop in Hwf as [Hwf Hentries].
  apply andb_prop in Hwf as [Hwf Hplain].
  apply andb_prop in Hwf as [Hok Hnd]. apply bool_decide_eq_true in Hnd.
  rewrite forallb_forall in Hplain, Hentries.
  unfold catalog_devices, catalog_families in *.
  destruct (get_child "families" (devices_info st)) as [fams|] eqn:Hfams;
    [|destruct Hin].
  destruct e as [fam [name entry0]].
  pose proof Hin as Hin0.
  apply in_flat_map in Hin as (f0 & Hf0 & Hin).
  apply in_family_devices in Hin as (devs & Hdevs & Hfam & Hdev).
  simpl in Hfam, Hdev. subst fam. destruct f0 as [fam famnode]. simpl in *.
  destruct (ptree_find_in name (children devs) entry0 Hdev) as [entry Hentry].
  assert (Hin' : In (fam, (name, entry)) (flat_map family_devices (children fams))).
  { apply in_flat_map. exists (fam, famnode). split; [exact Hf0|].
    unfold family_devices. simpl. rewrite Hdevs. apply in_map_iff.
    exists (name, entry). split; [reflexivity|].
    apply ptree_find_some_in, Hentry. }
  specialize (Hentries _ Hin'). simpl in Hentries.
  apply andb_prop in Hentries as [Hnplain Hentry_ok].
  destruct (get_chip_info_walk fam name st fams famnode devs entry Hfams
              (Hplain _ Hf0) (ptree_find_nodup fam _ famnode Hnd Hf0)
              Hdevs Hnplain Hentry Hentry_ok) as (ci & Hci & Hfrom).
  exists entry, ci. auto.
Qed.

(** X4.  In a well-formed catalogue, [get_chip_info] succeeds on the
    locator of every entry: it returns a [ChipInfo] with the locator's family
    and name whose fields are read from an entry of the catalogue under that
    family and name. *)
Theorem get_chip_info_total_on_catalog st (part : DeviceLocator.t) :
  catalog_wf (devices_info st) = true ->
  In part (catalog_locators (devices_info st)) ->
  exists entry ci,
    In (DeviceLocator.family part, (DeviceLocator.device part, entry))
       (catalog_devices (devices_info st))
    /\ get_chip_info part st = Ok ci
    /\ chip_info_from (DeviceLocator.family part) (DeviceLocator.device part)
         entry ci.
Proof.
  intros Hwf Hin. unfold catalog_locators in Hin.
  apply in_map_iff in Hin as (e & <- & Hin).
  apply (get_chip_info_entry st e Hwf Hin).
Qed.

(** X5.  In a well-formed catalogue without two entries of the same family
    and name, an idcode that some entry has is found by
    [find_device_by_idcode], and [get_chip_info] on the locator found returns
    a [ChipInfo] with exactly that idcode and with the locator's family and
    name. *)
Theorem find_device_by_idcode_then_get_chip_info (hexstr : Z -> string)
    (idcode : Z) st (e : string * (string * ptree)) :
  catalog_wf (devices_info st) = true ->
  NoDup (catalog_locators (devices_info st)) ->
  In e (catalog_devices (devices_info st)) ->
  entry_idcode_is idcode (fst (snd e)) (snd (snd e)) = true ->
  exists loc ci,
    find_device_by_idcode hexstr idcode st = Ok loc
    /\ get_chip_info loc st = Ok ci
    /\ ChipInfo.idcode ci = idcode
    /\ ChipInfo.family ci = DeviceLocator.family loc
    /\ ChipInfo.name ci = DeviceLocator.device loc.
Proof.
  intros Hwf Hnd Hin He.
  assert (Hok : families_ok (devices_info st) = true).
  { unfold catalog_wf in Hwf. do 3 (apply andb_prop in Hwf as [Hwf _]).
    exact Hwf. }
  assert (Hid : idcodes_ok (devices_info st) = true).
  { unfold catalog_wf in Hwf. apply andb_prop in Hwf as [_ Hentries].
    unfold idcodes_ok. rewrite forallb_forall in Hentries |- *.
    intros x Hx. specialize (Hentries x Hx).
    apply andb_prop in Hentries as [_ Hentry]. unfold entry_ok in Hentry.
    repeat (apply andb_prop in Hentry as [Hentry ?]). assumption. }
  pose proof (find_device_by_idcode_spec hexstr idcode st Hok Hid) as Hspec.
  unfold first_match in Hspec.
  destruct (find_present
              (fun e' => entry_idcode_is idcode (fst (snd e')) (snd (snd e')))
              _ e Hin He) as [e1 Hfind].
  rewrite Hfind in Hspec. simpl in Hspec.
  apply find_some in Hfind as [Hin1 He1].
  destruct (get_chip_info_entry st e1 Hwf Hin1) as (entry & ci & Hin' & Hci & Hfrom).
  assert (Heq : (fst e1, (fst (snd e1), entry)) = e1).
  { apply (nodup_map_inj entry_locator _ _ _ Hnd Hin' Hin1). reflexivity. }
  destruct e1 as [fam [name entry1]]. simpl in *. injection Heq as ->.
  exists (entry_locator (fam, (name, entry1))), ci.
  destruct Hfrom as (Hf & Hn & _ & _ & _ & _ & (s & Hs & Hidc) & _).
  split; [exact Hspec|]. split; [exact Hci|].
  split; [|split; assumption].
  unfold entry_idcode_is in He1. rewrite Hs in He1.
  apply Z.eqb_eq in He1. congruence.
Qed.

(** X6.  For a locator whose family and device are plain keys and which is
    not a locator of the catalogue, [get_chip_info] throws
    [ptree_bad_path], the property tree's own exception, not the
    [runtime_error] of the lookups. *)
Theorem get_chip_info_unknown_locator st (part : DeviceLocator.t) :
  plain_key (DeviceLocator.family part) = true ->
  plain_key (DeviceLocator.device part) = true ->
  ~ In part (catalog_locators (devices_info st)) ->
  get_chip_info part st = Err ptree_bad_path.
Proof.
  intros Hfplain Hnplain Hnot. destruct part as [fam name]. simpl in *.
  unfold get_chip_info. cbn [DeviceLocator.family DeviceLocator.device].
  destruct (get_child "families" (devices_info st)) as [fams|e] eqn:Hfams;
    [|apply get_child_error in Hfams; subst e; reflexivity].
  cbn [bind]. rewrite (get_child_plain fam fams Hfplain).
  destruct (ptree_find fam (children fams)) as [famnode|] eqn:Hfam;
    [|reflexivity].
  cbn [bind].
  destruct (get_child "devices" famnode) as [devs|e] eqn:Hdevs;
    [|apply get_child_error in Hdevs; subst e; reflexivity].
  cbn [bind]. rewrite (get_child_plain name devs Hnplain).
  destruct (ptree_find name (children devs)) as [entry|] eqn:Hdev;
    [|reflexivity].
  exfalso. apply Hnot. unfold catalog_locators, catalog_devices, catalog_families.
  rewrite Hfams. apply in_map_iff. exists (fam, (name, entry)).
  split; [reflexivity|]. apply in_flat_map. exists (fam, famnode).
  split; [apply ptree_find_some_in, Hfam|].
  unfold family_devices. simpl. rewrite Hdevs. apply in_map_iff.
  exists (name, entry). split; [reflexivity | apply ptree_find_some_in, Hdev].
Qed.

End ChipInfoExtras.

Lemma get_chip_info_total_on_catalog_witness :
  is_ok (get_chip_info (DeviceLocator.mk "G" "H")
           (Sample.state_of "/db" Sample.catalog_FG)) = true.
Proof.
  destruct (get_chip_info_total_on_catalog
              (Sample.state_of "/db" Sample.catalog_FG) (DeviceLocator.mk "G" "H")
              eq_refl) as (entry & ci & _ & Hci & _).
  - vm_compute. right. right. left. reflexivity.
  - rewrite Hci. reflexivity.
Defined.

Lemma find_device_by_idcode_then_get_chip_info_witness :
  exists loc ci,
    find_device_by_idcode Sample.hexstr 8 (Sample.state_of "/db" Sample.catalog_FG)
    = Ok loc
    /\ get_chip_info loc (Sample.state_of "/db" Sample.catalog_FG) = Ok ci
    /\ ChipInfo.idcode ci = 8.
Proof.
  destruct (find_device_by_idcode_then_get_chip_info Sample.hexstr 8
              (Sample.state_of "/db" Sample.catalog_FG)
              ("G", ("H", Sample.dev_entry "010" 9))%string eq_refl)
    as (loc & ci & Hfind & Hci & Hid & _).
  - apply (bool_decide_unpack _). vm_compute. exact I.
  - vm_compute. right. right. left. reflexivity.
  - reflexivity.
  - exists loc, ci. auto.
Defined.

Lemma get_chip_info_unknown_locator_witness :
  get_chip_info (DeviceLocator.mk "F" "E")
    (Sample.state_of "/db" Sample.catalog_FG) = Err ptree_bad_path.
Proof.
  apply get_chip_info_unknown_locator; [reflexivity | reflexivity |].
  vm_compute. intros H. repeat (destruct H as [H|H]; [discriminate H|]).
  destruct H.
Defined.

(** ** Numerals: what [parse_uint32] and [stoi] make of a decimal numeral *)

Lemma to_digits_head_pos (fuel : nat) :
  forall (z : Z) (acc : string),
    0 < z < 10 ^ Z.of_nat (S fuel) ->
    exists d s, 1 <= d < 10 /\ to_digits (S fuel) z acc = String (digit_char d) s.
Proof.
  induction fuel as [|fuel IH]; intros z acc Hz.
  - change (10 ^ Z.of_nat 1) with 10 in Hz.
    exists (z mod 10), acc. rewrite Z.mod_small by lia.
    split; [lia|]. cbn [to_digits]. rewrite Z.mod_small by lia.
    destruct (z <? 10); reflexivity.
  - cbn [to_digits]. destruct (z <? 10) eqn:Hlt.
    + apply Z.ltb_lt in Hlt. exists (z mod 10), acc.
      rewrite Z.mod_small by lia. split; [lia | reflexivity].
    + apply Z.ltb_ge in Hlt. apply (IH (z / 10)). split.
      * apply Z.div_str_pos. lia.
      * apply Z.div_lt_upper_bound; [lia|].
        rewrite (Nat2Z.inj_succ (S fuel)), Z.pow_succ_r in Hz by lia. lia.
Qed.

Lemma detect_base_nonzero (d : Z) (s : string) :
  1 <= d < 10 ->
  detect_base (String (digit_char d) s) = (10, String (digit_char d) s).
Proof.
  intros H.
  assert (Hc : d = 1 \/ d = 2 \/ d = 3 \/ d = 4 \/ d = 5 \/ d = 6 \/ d = 7
               \/ d = 8 \/ d = 9) by lia.
  repeat (destruct Hc as [Hc|Hc]); subst d; reflexivity.
Qed.

(** X7.  [parse_uint32] reads the decimal numeral of a number of up to ten
    digits, negative ones included, as that number reduced modulo 2^32: it
    neither rejects a value that does not fit 32 bits nor a negative one. *)
Theorem parse_uint32_decimal (z : Z) :
  - 10 ^ 10 < z < 10 ^ 10 ->
  parse_uint32 (to_string z) = z mod 2 ^ 32.
Proof.
  intros Hz. unfold parse_uint32, to_uint32, to_string.
  destruct (z <? 0) eqn:Hneg.
  - apply Z.ltb_lt in Hneg.
    destruct (read_to_digits_nat (- z)) as [k Hk]; [lia|].
    destruct (to_digits_head_pos 9 (- z) EmptyString) as (d & s & Hd & Hs);
      [change (Z.of_nat 10) with 10; lia|].
    unfold strtoul0. rewrite read_sign_minus.
    rewrite Hs, (detect_base_nonzero d s Hd), <- Hs, Hk.
    assert (Hsmall : (ULONG_MAX <? - z) = false).
    { apply Z.ltb_ge. unfold ULONG_MAX, ulong_bits. lia. }
    rewrite Hsmall, Z.opp_involutive. unfold ulong_bits.
    change (2 ^ 64) with (2 ^ 32 * 2 ^ 32).
    rewrite Z.rem_mul_r by lia.
    rewrite Z.mul_comm, Z.mod_add by lia. apply Z.mod_mod. lia.
  - apply Z.ltb_ge in Hneg.
    destruct (Z.eq_dec z 0) as [->|Hnz]; [reflexivity|].
    destruct (read_to_digits_nat z) as [k Hk]; [lia|].
    destruct (to_digits_head_pos 9 z EmptyString) as (d & s & Hd & Hs);
      [change (Z.of_nat 10) with 10; lia|].
    unfold strtoul0. rewrite Hs. cbn [skip_ws].
    rewrite isspace_digit_char, read_sign_digit_char by lia.
    rewrite (detect_base_nonzero d s Hd), <- Hs, Hk.
    assert (Hsmall : (ULONG_MAX <? z) = false).
    { apply Z.ltb_ge. unfold ULONG_MAX, ulong_bits. lia. }
    rewrite Hsmall. reflexivity.
Qed.

Lemma parse_uint32_decimal_witness :
  parse_uint32 (to_string 4294967296) = 0
  /\ parse_uint32 (to_string (-1)) = 4294967295.
Proof.
  split.
  - rewrite (parse_uint32_decimal 4294967296) by lia. reflexivity.
  - rewrite (parse_uint32_decimal (-1)) by lia. reflexivity.
Defined.

Lemma append_cons (c : ascii) (s t : string) :
  String c s +:+ t = String c (s +:+ t).
Proof. reflexivity. Qed.

Lemma to_digits_append (fuel : nat) :
  forall (z : Z) (acc rest : string),
    to_digits fuel z acc +:+ rest = to_digits fuel z (acc +:+ rest).
Proof.
  induction fuel as [|fuel IH]; intros z acc rest; [reflexivity|].
  cbn [to_digits]. destruct (z <? 10); [reflexivity|].
  rewrite IH. reflexivity.
Qed.

Lemma read_digits_stop (rest : string) (n : nat) (a : Z) :
  no_digit_ahead rest -> read_digits 10 rest n a = (n, a, rest).
Proof.
  destruct rest as [|c rest]; simpl; intros H; [reflexivity|].
  rewrite H. reflexivity.
Qed.

(** [stoi] reads the numeral at the front of a string and ignores what
    follows it. *)
Lemma stoi_to_string_rest (z : Z) (rest : string) :
  in_int z = true -> no_digit_ahead rest ->
  stoi (to_string z +:+ rest) = Ok z.
Proof.
  intros Hint Hrest. pose proof (proj1 (in_int_bounds z) Hint) as Hb.
  unfold to_string. destruct (z <? 0) eqn:Hneg.
  - apply Z.ltb_lt in Hneg.
    rewrite append_cons, to_digits_append.
    change (EmptyString +:+ rest) with rest.
    destruct (read_to_digits 9 (- z) rest O 0) as [k Hk]; [simpl; lia|].
    unfold stoi. rewrite read_sign_minus, Hk.
    rewrite (read_digits_stop rest _ _ Hrest).
    replace (0 * 10 ^ Z.of_nat (S k) + - z) with (- z) by lia.
    rewrite Z.opp_involutive, Hint. reflexivity.
  - apply Z.ltb_ge in Hneg.
    rewrite to_digits_append. change (EmptyString +:+ rest) with rest.
    destruct (read_to_digits 9 z rest O 0) as [k Hk]; [simpl; lia|].
    destruct (to_digits_head 9 z rest Hneg) as (d & s & Hd & Hs).
    unfold stoi. rewrite Hs. cbn [skip_ws].
    rewrite isspace_digit_char, read_sign_digit_char by assumption.
    rewrite <- Hs, Hk, (read_digits_stop rest _ _ Hrest).
    replace (0 * 10 ^ Z.of_nat (S k) + z) with z by lia.
    rewrite Hint. reflexivity.
Qed.

(** ** ECP5 globals: keys that are not of the expected form *)

Lemma for_each_first_error {A B} (f : A -> result B) (pre post : list A) (x : A)
    (ys : list B) (e : exn) :
  for_each f pre = Ok ys -> f x = Err e ->
  for_each f (pre ++ x :: post) = Err e.
Proof.
  intros Hpre Hx. rewrite for_each_app, Hpre. cbn [bind for_each].
  rewrite Hx. reflexivity.
Qed.

Lemma ecp5_tap_bad_key (key : string) (t : ptree) :
  (key = EmptyString \/ exists c r, key = String c r /\ c <> "C"%char) ->
  ecp5_tap (key, t) = Err assertion_failed.
Proof.
  intros [->|(c & r & -> & Hc)]; [reflexivity|].
  unfold ecp5_tap. cbn [fst]. apply Ascii.eqb_neq in Hc. rewrite Hc.
  reflexivity.
Qed.

Lemma ecp5_spine_short_key (key : string) (t : ptree) :
  (String.length key < 2)%nat -> ecp5_spine (key, t) = Err out_of_range.
Proof.
  destruct key as [|a [|b key]]; simpl; intros H; try reflexivity. lia.
Qed.

Section Ecp5Extras.

Context {TileBitDatabase : Type}.
Implicit Types st : db_state TileBitDatabase.

(** X8.  In an ECP5 globals file whose quadrants decode, the first tap
    entry whose key does not begin with 'C' (the empty key included) ends the
    load with the failed assertion, whatever the entry holds; and when all
    taps decode, the first spine entry whose key has fewer than two
    characters ends it with [out_of_range], thrown by [substr]. *)
Theorem get_global_info_ecp5_bad_keys
    (fs : filesystem TileBitDatabase) (part : DeviceLocator.t) st
    (glb quads taps : ptree) (qs : list GlobalRegion.t) :
  read_json fs (device_file st part "globals.json") = Ok glb ->
  get_child "quadrants" glb = Ok quads ->
  for_each ecp5_quadrant (children quads) = Ok qs ->
  get_child "taps" glb = Ok taps ->
  (forall pre key t post ts,
      children taps = pre ++ (key, t) :: post ->
      for_each ecp5_tap pre = Ok ts ->
      (key = EmptyString \/ exists c r, key = String c r /\ c <> "C"%char) ->
      get_global_info_ecp5 fs part st = Err assertion_failed)
  /\ (forall ts spines pre key t post ss,
        for_each ecp5_tap (children taps) = Ok ts ->
        get_child "spines" glb = Ok spines ->
        children spines = pre ++ (key, t) :: post ->
        for_each ecp5_spine pre = Ok ss ->
        (String.length key < 2)%nat ->
        get_global_info_ecp5 fs part st = Err out_of_range).
Proof.
  intros Hglb Hquads Hqs Htaps.
  unfold get_global_info_ecp5, parse_globals_ecp5.
  rewrite Hglb. cbn [bind]. rewrite Hquads. cbn [bind]. rewrite Hqs. cbn [bind].
  rewrite Htaps. cbn [bind]. split.
  - intros pre key t post ts Hsplit Hpre Hkey. rewrite Hsplit.
    rewrite (for_each_first_error ecp5_tap pre post (key, t) ts assertion_failed
               Hpre (ecp5_tap_bad_key key t Hkey)).
    reflexivity.
  - intros ts spines pre key t post ss Hts Hspines Hsplit Hpre Hkey.
    rewrite Hts. cbn [bind]. rewrite Hspines. cbn [bind]. rewrite Hsplit.
    rewrite (for_each_first_error ecp5_spine pre post (key, t) ss out_of_range
               Hpre (ecp5_spine_short_key key t Hkey)).
    reflexivity.
Qed.

End Ecp5Extras.

Lemma get_global_info_ecp5_bad_keys_witness :
  get_global_info_ecp5
    (SampleGlobals.globals_fs (SampleGlobals.ecp5_file ["C1"; "D2"] ["UL1"]))
    Sample.part_FD SampleGlobals.st_FD = Err assertion_failed
  /\ get_global_info_ecp5
       (SampleGlobals.globals_fs (SampleGlobals.ecp5_file ["C1"] ["UL1"; "U"]))
       Sample.part_FD SampleGlobals.st_FD = Err out_of_range.
Proof.
  split.
  - refine (proj1 (get_global_info_ecp5_bad_keys
                     (SampleGlobals.globals_fs
                        (SampleGlobals.ecp5_file ["C1"; "D2"] ["UL1"]))%string
                     Sample.part_FD SampleGlobals.st_FD
                     (SampleGlobals.ecp5_file ["C1"; "D2"] ["UL1"])%string
                     (obj [("UL"%string, SampleGlobals.quadrant_entry)])
                     (obj [("C1"%string, SampleGlobals.tap_entry);
                           ("D2"%string, SampleGlobals.tap_entry)])
                     _ eq_refl eq_refl eq_refl eq_refl)
                  [("C1"%string, SampleGlobals.tap_entry)] "D2"%string
                  SampleGlobals.tap_entry [] _ eq_refl eq_refl _).
    right. exists "D"%char, "2"%string. split; [reflexivity | discriminate].
  - refine (proj2 (get_global_info_ecp5_bad_keys
                     (SampleGlobals.globals_fs
                        (SampleGlobals.ecp5_file ["C1"] ["UL1"; "U"]))%string
                     Sample.part_FD SampleGlobals.st_FD
                     (SampleGlobals.ecp5_file ["C1"] ["UL1"; "U"])%string
                     (obj [("UL"%string, SampleGlobals.quadrant_entry)])
                     (obj [("C1"%string, SampleGlobals.tap_entry)])
                     _ eq_refl eq_refl eq_refl eq_refl)
                  _ (obj [("UL1"%string, SampleGlobals.spine_entry);
                          ("U"%string, SampleGlobals.spine_entry)])
                  [("UL1"%string, SampleGlobals.spine_entry)] "U"%string
                  SampleGlobals.spine_entry [] _ eq_refl eq_refl eq_refl
                  eq_refl _).
    simpl. lia.
Defined.

(** X9.  The column number in a tap or spine key is read by [stoi], which
    stops at the first character that is no digit: text after the numeral is
    ignored, so such a key decodes exactly as the key without it. *)
Theorem ecp5_key_trailing_text (n : Z) (q rest : string) (t : ptree) :
  in_int n = true ->
  no_digit_ahead rest ->
  String.length q = 2%nat ->
  ecp5_tap ("C" +:+ to_string n +:+ rest, t) = ecp5_tap ("C" +:+ to_string n, t)
  /\ ecp5_spine (q +:+ to_string n +:+ rest, t) = ecp5_spine (q +:+ to_string n, t).
Proof.
  intros Hn Hrest Hq. apply string_length_2 in Hq as (a & b & ->). split.
  - unfold ecp5_tap. cbn [fst snd]. rewrite !append_cons.
    change (EmptyString +:+ to_string n +:+ rest) with (to_string n +:+ rest).
    change (EmptyString +:+ to_string n) with (to_string n).
    cbv beta iota. rewrite Ascii.eqb_refl. cbn [assert bind substr_from].
    rewrite (stoi_to_string_rest n rest Hn Hrest), (stoi_to_string n Hn).
    reflexivity.
  - unfold ecp5_spine. cbn [fst snd]. rewrite !append_cons.
    change (EmptyString +:+ to_string n +:+ rest) with (to_string n +:+ rest).
    change (EmptyString +:+ to_string n) with (to_string n).
    cbn [substr_prefix substr_from bind].
    rewrite (stoi_to_string_rest n rest Hn Hrest), (stoi_to_string n Hn).
    reflexivity.
Qed.

Lemma ecp5_key_trailing_text_witness :
  ecp5_tap ("C12_left"%string, SampleGlobals.tap_entry)
  = ecp5_tap ("C12"%string, SampleGlobals.tap_entry).
Proof.
  apply (proj1 (ecp5_key_trailing_text 12 "UL" "_left" SampleGlobals.tap_entry
                  eq_refl eq_refl eq_refl)).
Defined.

(** ** MachXO2 globals: the second column loop and the shape of the result *)

Lemma branch_spans_loop_in_order (uds : list (list Z)) (cols : list (string * ptree)) :
  forall (col_no : Z) (bs : list (list (Z * Z))),
    branch_spans_loop uds col_no cols = Ok bs ->
    columns_in_order col_no cols = true /\ length bs = length cols.
Proof.
  induction cols as [|col cols IH]; intros col_no bs H.
  - injection H as <-. auto.
  - cbn [branch_spans_loop] in H.
    apply bind_ok_inv in H as (n & Hn & H).
    apply bind_ok_inv in H as (u & Hassert & H).
    apply bind_ok_inv in H as (gl & _ & H).
    apply bind_ok_inv in H as (sp & _ & H).
    apply bind_ok_inv in H as (c' & Hc' & H).
    apply bind_ok_inv in H as (rest & Hrest & [= <-]).
    apply assert_ok_inv, Z.eqb_eq in Hassert. apply incr_ok_inv in Hc'. subst.
    destruct (IH _ _ Hrest) as [Hord Hlen].
    cbn [columns_in_order]. rewrite Hn, Z.eqb_refl, Hord. simpl. auto.
Qed.

Lemma ud_conns_loop_length (cols : list (string * ptree)) :
  forall (col_no : Z) (r : list (list Z)),
    ud_conns_loop col_no cols = Ok r -> length r = length cols.
Proof.
  induction cols as [|ud cols IH]; intros col_no r H.
  - injection H as <-. reflexivity.
  - cbn [ud_conns_loop] in H.
    apply bind_ok_inv in H as (n & _ & H).
    apply bind_ok_inv in H as (u & _ & H).
    apply bind_ok_inv in H as (udc & _ & H).
    apply bind_ok_inv in H as (c' & _ & H).
    apply bind_ok_inv in H as (rest & Hrest & [= <-]).
    simpl. f_equal. apply (IH _ _ Hrest).
Qed.

Lemma branch_spans_loop_out_of_order (uds : list (list Z))
    (pre post : list (string * ptree)) (key : string) (obj : ptree) (n : Z) :
  forall (col_no : Z) (bs_pre : list (list (Z * Z))),
    branch_spans_loop uds col_no pre = Ok bs_pre ->
    stoi key = Ok n ->
    n <> col_no + Z.of_nat (length pre) ->
    branch_spans_loop uds col_no (pre ++ (key, obj) :: post) = Err assertion_failed.
Proof.
  induction pre as [|col pre IH]; intros col_no bs_pre Hpre Hkey Hne.
  - simpl. rewrite Hkey. cbn [bind].
    destruct (col_no =? n) eqn:E; [|reflexivity].
    apply Z.eqb_eq in E. simpl in Hne. lia.
  - cbn [branch_spans_loop] in Hpre.
    apply bind_ok_inv in Hpre as (m & Hm & H).
    apply bind_ok_inv in H as (u & Hassert & H).
    apply bind_ok_inv in H as (gl & Hgl & H).
    apply bind_ok_inv in H as (sp & Hsp & H).
    apply bind_ok_inv in H as (c' & Hc' & H).
    apply bind_ok_inv in H as (rest & Hrest & _).
    simpl app. cbn [branch_spans_loop].
    rewrite Hm. cbn [bind]. rewrite Hassert. cbn [bind].
    rewrite Hgl. cbn [bind]. rewrite Hsp. cbn [bind]. rewrite Hc'. cbn [bind].
    apply incr_ok_inv in Hc'. subst c'.
    rewrite (IH (col_no + 1) rest Hrest Hkey); [reflexivity|].
    simpl length in Hne. lia.
Qed.

Lemma for_each_map_fst {A B C} (f : A * C -> result B) (g : B -> A)
    (l : list (A * C)) (ys : list B) :
  (forall x y, f x = Ok y -> g y = fst x) ->
  for_each f l = Ok ys -> map g ys = map fst l.
Proof.
  intros Hg H. apply for_each_ok_iff in H.
  induction H as [|x y l ys Hxy _ IH]; simpl; [reflexivity|].
  rewrite (Hg x y Hxy), IH. reflexivity.
Qed.

Lemma machxo2_lr_name (lr : string * ptree) (c : LeftRightConn.t) :
  machxo2_lr lr = Ok c -> LeftRightConn.name c = fst lr.
Proof.
  unfold machxo2_lr. intros H.
  repeat (apply bind_ok_inv in H as (? & _ & H)).
  injection H as <-. reflexivity.
Qed.

(** ** Files within bounds give no occasion for undefined behaviour *)

Lemma bind_defined {A B} (r : result A) (k : A -> result B) :
  r <> Err undefined_behaviour ->
  (forall a, r = Ok a -> k a <> Err undefined_behaviour) ->
  bind r k <> Err undefined_behaviour.
Proof.
  destruct r as [a|e]; simpl; intros Hr Hk; [apply Hk; reflexivity|].
  intros [= ->]. apply Hr. reflexivity.
Qed.

Lemma for_each_defined {A B} (f : A -> result B) (l : list A) :
  Forall (fun x => f x <> Err undefined_behaviour) l ->
  for_each f l <> Err undefined_behaviour.
Proof.
  induction 1 as [|x l Hx Hl IH]; simpl; [discriminate|].
  apply bind_defined; [exact Hx|]. intros y _.
  apply bind_defined; [exact IH|]. discriminate.
Qed.

Lemma get_child_defined (path : string) (t : ptree) :
  get_child path t <> Err undefined_behaviour.
Proof. intros H. apply get_child_error in H. discriminate H. Qed.

Lemma get_value_int_defined (t : ptree) :
  get_value_int t <> Err undefined_behaviour.
Proof. unfold get_value_int. destruct (stream_int (data t)); discriminate. Qed.

Lemma get_int_defined (path : string) (t : ptree) :
  get_int path t <> Err undefined_behaviour.
Proof.
  unfold get_int. apply bind_defined; [apply get_child_defined|].
  intros c _. apply get_value_int_defined.
Qed.

Lemma stoi_defined (s : string) : stoi s <> Err undefined_behaviour.
Proof.
  unfold stoi. destruct (read_sign (skip_ws s)) as [neg s1].
  destruct (read_digits 10 s1 0%nat 0) as [[n v] rest].
  destruct n; [discriminate|]. destruct (in_int _); discriminate.
Qed.

Lemma assert_defined (b : bool) : assert b <> Err undefined_behaviour.
Proof. destruct b; discriminate. Qed.

Lemma int_array_defined (t : ptree) : int_array t <> Err undefined_behaviour.
Proof.
  unfold int_array. apply bind_defined; [apply get_child_defined|].
  intros entries _. apply for_each_defined, List.Forall_forall.
  intros glb_no _. apply get_int_defined.
Qed.

Lemma read_pair_defined (t : ptree) :
  two_elements t = true -> read_pair t <> Err undefined_behaviour.
Proof.
  unfold two_elements, read_pair.
  destruct (children t) as [|first [|second rest]]; simpl; intros H;
    try discriminate H.
  apply bind_defined; [apply get_value_int_defined|]. intros a _.
  apply bind_defined; [apply get_value_int_defined|]. discriminate.
Qed.

Lemma machxo2_lr_defined (lr : string * ptree) :
  lr_within_bounds lr = true -> machxo2_lr lr <> Err undefined_behaviour.
Proof.
  unfold lr_within_bounds, machxo2_lr. intros H.
  apply bind_defined; [apply get_int_defined|]. intros row _.
  apply bind_defined; [apply get_child_defined|]. intros span Hspan.
  rewrite Hspan in H.
  apply bind_defined; [apply read_pair_defined, H|]. discriminate.
Qed.

Lemma machxo2_missing_defined (dccs : string * ptree) :
  machxo2_missing dccs <> Err undefined_behaviour.
Proof.
  unfold machxo2_missing. apply bind_defined; [apply stoi_defined|].
  intros row _. apply bind_defined; [apply int_array_defined|]. discriminate.
Qed.

Lemma incr_defined (col_no : Z) :
  col_no < int_max -> incr col_no <> Err undefined_behaviour.
Proof.
  intros H. unfold incr. destruct (col_no <? int_max) eqn:E; [discriminate|].
  apply Z.ltb_ge in E. lia.
Qed.

Lemma ud_conns_loop_defined (cols : list (string * ptree)) :
  forall col_no : Z,
    col_no + Z.of_nat (length cols) <= int_max ->
    ud_conns_loop col_no cols <> Err undefined_behaviour.
Proof.
  induction cols as [|ud cols IH]; intros col_no Hmax; [discriminate|].
  simpl length in Hmax. rewrite Nat2Z.inj_succ in Hmax.
  cbn [ud_conns_loop].
  apply bind_defined; [apply stoi_defined|]. intros n _.
  apply bind_defined; [apply assert_defined|]. intros u _.
  apply bind_defined; [apply int_array_defined|]. intros udc _.
  apply bind_defined; [apply incr_defined; lia|]. intros c' Hc'.
  apply incr_ok_inv in Hc'. subst c'.
  apply bind_defined; [apply IH; lia|]. discriminate.
Qed.

Lemma branch_span_defined (spans : ptree) (g : Z) :
  forallb (fun m => two_elements (snd m)) (children spans) = true ->
  branch_span spans g <> Err undefined_behaviour.
Proof.
  intros H. unfold branch_span. cbv zeta.
  rewrite (get_child_plain _ _ (to_string_plain g)).
  destruct (ptree_find (to_string g) (children spans)) as [c|] eqn:E;
    [|discriminate].
  cbn [bind]. apply read_pair_defined.
  apply ptree_find_some_in in E. rewrite forallb_forall in H. apply (H _ E).
Qed.

Lemma branch_spans_loop_defined (uds : list (list Z)) (cols : list (string * ptree)) :
  forall col_no : Z,
    0 <= col_no ->
    (Z.to_nat col_no + length cols <= length uds)%nat ->
    col_no + Z.of_nat (length cols) <= int_max ->
    forallb span_column_within_bounds cols = true ->
    branch_spans_loop uds col_no cols <> Err undefined_behaviour.
Proof.
  induction cols as [|col cols IH]; intros col_no Hpos Hlen Hmax Hcols;
    [discriminate|].
  simpl length in Hlen, Hmax. rewrite Nat2Z.inj_succ in Hmax.
  cbn [forallb] in Hcols. apply andb_prop in Hcols as [Hcol Hcols].
  cbn [branch_spans_loop].
  apply bind_defined; [apply stoi_defined|]. intros n _.
  apply bind_defined; [apply assert_defined|]. intros u _.
  apply bind_defined.
  { unfold vector_at.
    destruct (lookup_lt_is_Some_2 uds (Z.to_nat col_no) ltac:(lia)) as [x ->].
    discriminate. }
  intros globals _.
  apply bind_defined.
  { apply for_each_defined, List.Forall_forall. intros g _.
    apply branch_span_defined, Hcol. }
  intros sp _.
  apply bind_defined; [apply incr_defined; lia|]. intros c' Hc'.
  apply incr_ok_inv in Hc'. subst c'.
  apply bind_defined; [apply IH; try assumption; lia|]. discriminate.
Qed.

Lemma parse_globals_machxo2_defined (glb : ptree) :
  machxo2_within_bounds glb = true ->
  parse_globals_machxo2 glb <> Err undefined_behaviour.
Proof.
  unfold machxo2_within_bounds, parse_globals_machxo2. intros H.
  apply andb_prop in H as [Hlr H].
  apply bind_defined; [apply get_child_defined|]. intros lrs Hlrs.
  rewrite Hlrs in Hlr.
  apply bind_defined.
  { apply for_each_defined, List.Forall_forall. intros lr Hin.
    rewrite forallb_forall in Hlr. apply machxo2_lr_defined, Hlr, Hin. }
  intros lr_conns _.
  apply bind_defined; [apply get_child_defined|]. intros uds Huds.
  rewrite Huds in H.
  assert (Hmax : Z.of_nat (length (children uds)) <= int_max).
  { destruct (get_child "branch-spans" glb).
    - apply andb_prop in H as [H _]. apply andb_prop in H as [_ H].
      apply Z.leb_le, H.
    - apply Z.leb_le, H. }
  apply bind_defined; [apply ud_conns_loop_defined; lia|]. intros ud_conns Hud.
  apply bind_defined; [apply get_child_defined|]. intros spans Hspans.
  rewrite Hspans in H.
  apply andb_prop in H as [H Hcols]. apply andb_prop in H as [Hlen _].
  apply Nat.leb_le in Hlen.
  pose proof (ud_conns_loop_length _ _ _ Hud) as Hudlen.
  apply bind_defined.
  { apply branch_spans_loop_defined; [lia | simpl; lia | lia | exact Hcols]. }
  intros bs _.
  apply bind_defined; [apply get_child_defined|]. intros dccs _.
  apply bind_defined.
  { apply for_each_defined, List.Forall_forall. intros m _.
    apply machxo2_missing_defined. }
  discriminate.
Qed.

Section MachXO2Extras.

Context {TileBitDatabase : Type}.
Implicit Types st : db_state TileBitDatabase.

(** X10.  The columns of "branch-spans" are held to the same order as those
    of "ud-conns": when the file is well-formed up to a branch-span column
    whose key reads as a number other than its position, the load ends with
    the failed assertion [assert(col_no == std::stoi(spans.first))]. *)
Theorem get_global_info_machxo2_span_column_order
    (fs : filesystem TileBitDatabase) (part : DeviceLocator.t) st
    (glb lrs uds spans : ptree) (lr_conns : list LeftRightConn.t)
    (ud_conns : list (list Z)) (pre post : list (string * ptree))
    (key : string) (obj : ptree) (bs_pre : list (list (Z * Z))) (n : Z) :
  read_json fs (device_file st part "globals.json") = Ok glb ->
  get_child "lr-conns" glb = Ok lrs ->
  for_each machxo2_lr (children lrs) = Ok lr_conns ->
  get_child "ud-conns" glb = Ok uds ->
  ud_conns_loop 0 (children uds) = Ok ud_conns ->
  get_child "branch-spans" glb = Ok spans ->
  children spans = pre ++ (key, obj) :: post ->
  branch_spans_loop ud_conns 0 pre = Ok bs_pre ->
  stoi key = Ok n ->
  n <> Z.of_nat (length pre) ->
  get_global_info_machxo2 fs part st = Err assertion_failed.
Proof.
  intros Hglb Hlrs Hlr Huds Hud Hspans Hsplit Hpre Hkey Hne.
  unfold get_global_info_machxo2, parse_globals_machxo2.
  rewrite Hglb. cbn [bind]. rewrite Hlrs. cbn [bind]. rewrite Hlr. cbn [bind].
  rewrite Huds. cbn [bind]. rewrite Hud. cbn [bind]. rewrite Hspans. cbn [bind].
  rewrite Hsplit.
  rewrite (branch_spans_loop_out_of_order ud_conns pre post key obj n 0 bs_pre
             Hpre Hkey); [reflexivity | lia].
Qed.

(** X11.  A file within bounds (no more "branch-spans" columns than
    "ud-conns" columns, at most [int_max] columns, two elements in every
    span array) is loaded without undefined behaviour, and every value
    [get_global_info_machxo2] returns from it has this shape: the left-right
    connections carry the keys of "lr-conns" in file order; there is one
    up-down list per column of "ud-conns", one branch-span list per column
    of "branch-spans" and one record per member of "missing-dccs"; the keys
    of both column collections read as 0, 1, 2, ... in file order. *)
Theorem get_global_info_machxo2_shape
    (fs : filesystem TileBitDatabase) (part : DeviceLocator.t) st
    (glb : ptree) :
  read_json fs (device_file st part "globals.json") = Ok glb ->
  machxo2_within_bounds glb = true ->
  get_global_info_machxo2 fs part st <> Err undefined_behaviour
  /\ forall info : MachXO2GlobalsInfo.t,
       get_global_info_machxo2 fs part st = Ok info ->
       exists lrs uds spans dccs,
         get_child "lr-conns" glb = Ok lrs
         /\ get_child "ud-conns" glb = Ok uds
         /\ get_child "branch-spans" glb = Ok spans
         /\ get_child "missing-dccs" glb = Ok dccs
         /\ map LeftRightConn.name (MachXO2GlobalsInfo.lr_conns info)
            = map fst (children lrs)
         /\ length (MachXO2GlobalsInfo.ud_conns info) = length (children uds)
         /\ columns_in_order 0 (children uds) = true
         /\ length (MachXO2GlobalsInfo.branch_spans info) = length (children spans)
         /\ columns_in_order 0 (children spans) = true
         /\ length (MachXO2GlobalsInfo.missing_dccs info) = length (children dccs).
Proof.
  intros Hglb Hbounds.
  unfold get_global_info_machxo2. rewrite Hglb. cbn [bind]. split.
  - apply parse_globals_machxo2_defined, Hbounds.
  - unfold parse_globals_machxo2. intros info H.
    apply bind_ok_inv in H as (lrs & Hlrs & H).
    apply bind_ok_inv in H as (lr_conns & Hlr & H).
    apply bind_ok_inv in H as (uds & Huds & H).
    apply bind_ok_inv in H as (ud_conns & Hud & H).
    apply bind_ok_inv in H as (spans & Hspans & H).
    apply bind_ok_inv in H as (bs & Hbs & H).
    apply bind_ok_inv in H as (dccs & Hdccs & H).
    apply bind_ok_inv in H as (missing & Hmissing & [= <-]).
    exists lrs, uds, spans, dccs. simpl.
    destruct (branch_spans_loop_in_order _ _ _ _ Hbs) as [Hord Hlen].
    repeat (split; [try assumption|]).
    + apply (for_each_map_fst machxo2_lr LeftRightConn.name _ _ machxo2_lr_name Hlr).
    + apply (ud_conns_loop_length _ _ _ Hud).
    + apply (ud_conns_loop_in_order _ _ _ Hud).
    + apply (for_each_length _ _ _ Hmissing).
Qed.

End MachXO2Extras.

Lemma get_global_info_machxo2_span_column_order_witness :
  get_global_info_machxo2
    (SampleGlobals.globals_fs SampleGlobals.machxo2_spans_out_of_order)
    Sample.part_FD SampleGlobals.st_FD
  = Err assertion_failed.
Proof.
  refine (get_global_info_machxo2_span_column_order
            (SampleGlobals.globals_fs SampleGlobals.machxo2_spans_out_of_order)
            Sample.part_FD SampleGlobals.st_FD
            SampleGlobals.machxo2_spans_out_of_order _
            (Sample.ud_conns_obj [("0", [0]); ("1", [0]); ("2", [0])])
            (Sample.branch_spans_obj [("0", [0]); ("2", [0]); ("1", [0])])
            _ [[0]; [0]; [0]]
            (children (Sample.branch_spans_obj [("0", [0])]))
            (children (Sample.branch_spans_obj [("1", [0])]))
            "2"%string (obj [("0"%string, arr [num 1; num 9])])
            [[(1, 9)]] 2
            eq_refl eq_refl eq_refl eq_refl eq_refl eq_refl eq_refl eq_refl
            eq_refl _).
  discriminate.
Defined.

Lemma get_global_info_machxo2_shape_witness :
  get_global_info_machxo2 (SampleGlobals.globals_fs SampleGlobals.machxo2_good)
    Sample.part_FD SampleGlobals.st_FD <> Err undefined_behaviour
  /\ exists info,
       get_global_info_machxo2 (SampleGlobals.globals_fs SampleGlobals.machxo2_good)
         Sample.part_FD SampleGlobals.st_FD = Ok info
       /\ map LeftRightConn.name (MachXO2GlobalsInfo.lr_conns info) = ["lr0"%string]
       /\ length (MachXO2GlobalsInfo.ud_conns info) = 2%nat
       /\ length (MachXO2GlobalsInfo.branch_spans info) = 2%nat
       /\ length (MachXO2GlobalsInfo.missing_dccs info) = 1%nat.
Proof.
  destruct (get_global_info_machxo2_shape
              (SampleGlobals.globals_fs SampleGlobals.machxo2_good)
              Sample.part_FD SampleGlobals.st_FD SampleGlobals.machxo2_good
              eq_refl eq_refl) as [Hdefined Hshape].
  split; [exact Hdefined|].
  destruct (get_global_info_machxo2
              (SampleGlobals.globals_fs SampleGlobals.machxo2_good)
              Sample.part_FD SampleGlobals.st_FD) as [info|] eqn:Hinfo;
    [|discriminate Hinfo].
  destruct (Hshape info eq_refl)
    as (lrs & uds & spans & dccs & Hlrs & Huds & Hspans & Hdccs & Hnames
        & Hud & _ & Hbs & _ & Hmissing).
  injection Hlrs as <-. injection Huds as <-. injection Hspans as <-.
  injection Hdccs as <-.
  exists info. auto.
Defined.

Lemma read_pair_short (span : ptree) :
  Forall (fun c => is_ok (get_value_int (snd c)) = true) (children span) ->
  (length (children span) < 2)%nat ->
  read_pair span = Err undefined_behaviour.
Proof.
  unfold read_pair. destruct (children span) as [|first [|second rest]];
    simpl; intros Hall Hlen; [reflexivity | | lia].
  inversion Hall as [|? ? Hfirst _]; subst.
  apply is_ok_inv in Hfirst as [a ->]. reflexivity.
Qed.

(** X12.  A left-right connection takes its row span from the first two
    elements of the "row-span" array and ignores any further element; with
    fewer than two elements the code dereferences the past-the-end iterator,
    which is undefined behaviour. *)
Theorem machxo2_lr_row_span (name : string) (t span : ptree) (r : Z) :
  get_int "row" t = Ok r ->
  get_child "row-span" t = Ok span ->
  Forall (fun c => is_ok (get_value_int (snd c)) = true) (children span) ->
  match children span with
  | first :: second :: _ =>
      exists a b,
        get_value_int (snd first) = Ok a
        /\ get_value_int (snd second) = Ok b
        /\ machxo2_lr (name, t)
           = Ok {| LeftRightConn.name := name; LeftRightConn.row := r;
                   LeftRightConn.row_span := (a, b) |}
  | _ => machxo2_lr (name, t) = Err undefined_behaviour
  end.
Proof.
  intros Hrow Hspan Hall.
  assert (Hlr : machxo2_lr (name, t) =
                bind (read_pair span) (fun rs =>
                  Ok {| LeftRightConn.name := name; LeftRightConn.row := r;
                        LeftRightConn.row_span := rs |})).
  { unfold machxo2_lr. cbn [fst snd]. rewrite Hrow. cbn [bind].
    rewrite Hspan. reflexivity. }
  destruct (children span) as [|first [|second rest]] eqn:Hkids.
  - rewrite Hlr, read_pair_short; [reflexivity | rewrite Hkids; constructor
                                   | rewrite Hkids; simpl; lia].
  - rewrite Hlr, read_pair_short; [reflexivity | rewrite Hkids; exact Hall
                                   | rewrite Hkids; simpl; lia].
  - inversion Hall as [|? ? Hfirst Hrest]; subst.
    inversion Hrest as [|? ? Hsecond _]; subst.
    apply is_ok_inv in Hfirst as [a Ha]. apply is_ok_inv in Hsecond as [b Hb].
    exists a, b. split; [exact Ha|]. split; [exact Hb|].
    rewrite Hlr. unfold read_pair. rewrite Hkids, Ha. cbn [bind].
    rewrite Hb. reflexivity.
Qed.

Lemma machxo2_lr_row_span_witness :
  machxo2_lr ("lr0"%string, obj [("row", num 3); ("row-span", arr [num 1; num 5; num 9])])
  = Ok {| LeftRightConn.name := "lr0"; LeftRightConn.row := 3;
          LeftRightConn.row_span := (1, 5) |}
  /\ machxo2_lr ("lr0"%string, obj [("row", num 3); ("row-span", arr [num 1])])
     = Err undefined_behaviour.
Proof.
  split.
  - destruct (machxo2_lr_row_span "lr0"
                (obj [("row", num 3); ("row-span", arr [num 1; num 5; num 9])])
                (arr [num 1; num 5; num 9]) 3 eq_refl eq_refl)
      as (a & b & Ha & Hb & H).
    + repeat constructor.
    + injection Ha as <-. injection Hb as <-. exact H.
  - apply (machxo2_lr_row_span "lr0"
             (obj [("row", num 3); ("row-span", arr [num 1])])
             (arr [num 1]) 3 eq_refl eq_refl).
    repeat constructor.
Defined.

(** ** The tile-grid cache: first load, failures, and the tiles returned *)

Lemma tile_info_fields (part : DeviceLocator.t) (info : ChipInfo.t)
    (tile : string * ptree) (ti : TileInfo.t) :
  tile_info part info tile = Ok ti ->
  TileInfo.name ti = fst tile
  /\ TileInfo.max_col ti = ChipInfo.max_col info
  /\ TileInfo.max_row ti = ChipInfo.max_row info
  /\ TileInfo.col_bias ti = ChipInfo.col_bias info
  /\ (exists cols rows start_bit start_frame,
        get_int "cols" (snd tile) = Ok cols
        /\ get_int "rows" (snd tile) = Ok rows
        /\ get_int "start_bit" (snd tile) = Ok start_bit
        /\ get_int "start_frame" (snd tile) = Ok start_frame
        /\ TileInfo.num_frames ti = cols mod 2 ^ 64
        /\ TileInfo.bits_per_frame ti = rows mod 2 ^ 64
        /\ TileInfo.bit_offset ti = start_bit mod 2 ^ 64
        /\ TileInfo.frame_offset ti = start_frame mod 2 ^ 64).
Proof.
  unfold tile_info. intros H.
  apply bind_ok_inv in H as (cols & Hcols & H).
  apply bind_ok_inv in H as (rows & Hrows & H).
  apply bind_ok_inv in H as (sb & Hsb & H).
  apply bind_ok_inv in H as (sf & Hsf & H).
  apply bind_ok_inv in H as (ty & _ & H).
  apply bind_ok_inv in H as (sl & _ & H).
  apply bind_ok_inv in H as (sites & _ & [= <-]).
  simpl. repeat (split; [reflexivity|]).
  exists cols, rows, sb, sf. unfold to_size_t. auto 10.
Qed.

Lemma get_int_in_int (path : string) (t : ptree) (z : Z) :
  get_int path t = Ok z -> in_int z = true.
Proof.
  unfold get_int, get_value_int, stream_int. intros H.
  apply bind_ok_inv in H as (c & _ & H).
  destruct (read_sign (skip_ws (data c))) as [neg s1].
  destruct (read_digits 10 s1 0 0) as [[n v] rest].
  destruct n; [discriminate|].
  destruct (in_int (if neg then - v else v)) eqn:Hint; [|discriminate].
  destruct (bool_decide _); [|discriminate].
  injection H as <-. exact Hint.
Qed.

Section TilegridExtras.

Context {TileBitDatabase : Type}.
Implicit Types st : db_state TileBitDatabase.
Implicit Types fs : filesystem TileBitDatabase.

(** X13.  When the tile-grid file of a device that is not yet cached cannot
    be read, [get_device_tilegrid] ends with the exception of [read_json]
    and stores nothing; the next call with that locator reads the file
    again, and if that succeeds stores the table under the device string and
    derives the tiles from it. *)
Theorem get_device_tilegrid_failed_read fs (part : DeviceLocator.t) st
    (info : ChipInfo.t) (e : exn) :
  String.eqb (db_root st) EmptyString = false ->
  get_chip_info part st = Ok info ->
  tilegrid_cache st !! DeviceLocator.device part = None ->
  read_json fs (device_file st part "tilegrid.json") = Err e ->
  get_device_tilegrid fs part st = (Err e, st)
  /\ (forall fs' tg,
        read_json fs' (device_file st part "tilegrid.json") = Ok tg ->
        get_device_tilegrid fs' part st
        = (for_each (tile_info part info) (children tg),
           set_tilegrid_cache
             (<[DeviceLocator.device part := tg]> (tilegrid_cache st)) st)).
Proof.
  intros Hroot Hinfo Hnone Hread. split.
  - unfold get_device_tilegrid, tilegrid_fill.
    rewrite Hroot, Hinfo, Hnone, Hread. reflexivity.
  - intros fs' tg Hread'. unfold get_device_tilegrid, tilegrid_fill,
      tilegrid_cache_at.
    rewrite Hroot, Hinfo, Hnone, Hread'. simpl.
    rewrite lookup_insert_eq. reflexivity.
Qed.

(** X14.  The raw table is stored before the tiles are derived from it.
    When the file of an uncached device is read but a tile entry in it is
    malformed, the call ends with that entry's exception and the table stays
    in the cache: every later call with the locator, whatever the files then
    are, fails with the same exception without reading anything. *)
Theorem get_device_tilegrid_malformed_stays_cached fs (part : DeviceLocator.t) st
    (info : ChipInfo.t) (tg : ptree) (e : exn) :
  String.eqb (db_root st) EmptyString = false ->
  get_chip_info part st = Ok info ->
  tilegrid_cache st !! DeviceLocator.device part = None ->
  read_json fs (device_file st part "tilegrid.json") = Ok tg ->
  for_each (tile_info part info) (children tg) = Err e ->
  get_device_tilegrid fs part st
  = (Err e, set_tilegrid_cache
              (<[DeviceLocator.device part := tg]> (tilegrid_cache st)) st)
  /\ (forall (cs : list (call TileBitDatabase)) fs',
        catalog_read_only cs = true ->
        get_device_tilegrid fs' part
          (run cs (snd (get_device_tilegrid fs part st)))
        = (Err e, run cs (snd (get_device_tilegrid fs part st)))).
Proof.
  intros Hroot Hinfo Hnone Hread Hbad.
  assert (Hcall : get_device_tilegrid fs part st =
                  (Err e, set_tilegrid_cache
                            (<[DeviceLocator.device part := tg]>
                               (tilegrid_cache st)) st)).
  { unfold get_device_tilegrid, tilegrid_fill, tilegrid_cache_at.
    rewrite Hroot, Hinfo, Hnone, Hread. simpl.
    rewrite lookup_insert_eq. simpl. rewrite Hbad. reflexivity. }
  split; [exact Hcall|]. intros cs fs' Hro. rewrite Hcall. cbn [snd].
  set (st1 := set_tilegrid_cache _ st).
  assert (Hin : tilegrid_cache st1 !! DeviceLocator.device part = Some tg)
    by apply lookup_insert_eq.
  rewrite (get_device_tilegrid_cached fs' part (run cs st1) tg
             (run_keeps_tilegrid cs st1 _ tg Hin)).
  f_equal. destruct (run_read_only cs st1 Hro) as [Hr Hd].
  rewrite (tilegrid_view_ext part (run cs st1) st tg) by (rewrite ?Hr, ?Hd; reflexivity).
  unfold tilegrid_view. rewrite Hroot, Hinfo. exact Hbad.
Qed.

(** X15.  A sequence returned by [get_device_tilegrid] has one [TileInfo]
    per entry of the cached raw table, named by the entry's key, in file
    order; each carries the maximal row and column and the column bias of
    the device's [ChipInfo]; and its sizes and offsets are the entry's
    "cols", "rows", "start_bit" and "start_frame" converted to [size_t],
    that is reduced modulo 2^64, so that a negative number in the file
    becomes a value of at least 2^64 - 2^31. *)
Theorem get_device_tilegrid_tiles fs (part : DeviceLocator.t) st
    (tiles : list TileInfo.t) :
  fst (get_device_tilegrid fs part st) = Ok tiles ->
  exists tg info,
    tilegrid_cache (snd (get_device_tilegrid fs part st))
      !! DeviceLocator.device part = Some tg
    /\ get_chip_info part st = Ok info
    /\ map TileInfo.name tiles = map fst (children tg)
    /\ Forall (fun ti =>
                 TileInfo.max_col ti = ChipInfo.max_col info
                 /\ TileInfo.max_row ti = ChipInfo.max_row info
                 /\ TileInfo.col_bias ti = ChipInfo.col_bias info) tiles
    /\ Forall2 (fun tile ti =>
                  exists cols,
                    get_int "cols" (snd tile) = Ok cols
                    /\ TileInfo.num_frames ti = cols mod 2 ^ 64
                    /\ (cols < 0 -> 2 ^ 64 - 2 ^ 31 <= TileInfo.num_frames ti))
         (children tg) tiles.
Proof.
  unfold get_device_tilegrid.
  destruct (String.eqb (db_root st) EmptyString); [discriminate|].
  destruct (get_chip_info part st) as [info|]; [|discriminate].
  assert (Hfilled : forall st1, tilegrid_fill fs part st = Ok st1 ->
            exists tg, tilegrid_cache st1 !! DeviceLocator.device part = Some tg).
  { unfold tilegrid_fill. intros st1.
    destruct (tilegrid_cache st !! DeviceLocator.device part) as [tg|] eqn:Hl.
    - intros [= <-]. eauto.
    - destruct (read_json fs _) as [tg|]; [|discriminate].
      intros [= <-]. exists tg. apply lookup_insert_eq. }
  destruct (tilegrid_fill fs part st) as [st1|]; [|discriminate].
  destruct (Hfilled st1 eq_refl) as [tg Htg]. cbn [fst snd].
  unfold tilegrid_cache_at. rewrite Htg. cbn [default].
  intros Htiles. change (for_each (tile_info part info) (children tg) = Ok tiles)
    in Htiles.
  exists tg, info. split; [reflexivity|]. split; [reflexivity|].
  split; [|split].
  - apply (for_each_map_fst (tile_info part info) TileInfo.name _ _
             (fun x y H => proj1 (tile_info_fields part info x y H)) Htiles).
  - apply (for_each_Forall (tile_info part info) _ _ _
             (fun x y H => let '(conj _ (conj a (conj b (conj c _)))) :=
                             tile_info_fields part info x y H in
                           conj a (conj b c)) Htiles).
  - apply for_each_ok_iff in Htiles.
    induction Htiles as [|tile ti l ys Hti _ IH]; constructor; [|exact IH].
    destruct (tile_info_fields part info tile ti Hti)
      as (_ & _ & _ & _ & cols & _ & _ & _ & Hcols & _ & _ & _ & Hnf & _).
    exists cols. split; [exact Hcols|]. split; [exact Hnf|].
    intros Hneg. rewrite Hnf.
    pose proof (proj1 (in_int_bounds cols) (get_int_in_int _ _ _ Hcols)) as Hb.
    replace cols with ((cols + 2 ^ 64) + (-1) * 2 ^ 64) by lia.
    rewrite Z.mod_add by lia. rewrite Z.mod_small; lia.
Qed.

End TilegridExtras.

Lemma get_device_tilegrid_failed_read_witness :
  get_device_tilegrid Sample.no_files Sample.part_F1D SampleTiles.st_twin
  = (Err json_parser_error, SampleTiles.st_twin)
  /\ is_ok (fst (get_device_tilegrid Sample.twin_files Sample.part_F1D
                   (snd (get_device_tilegrid Sample.no_files Sample.part_F1D
                           SampleTiles.st_twin)))) = true.
Proof.
  destruct (get_chip_info Sample.part_F1D SampleTiles.st_twin) as [info|] eqn:Hinfo;
    [|discriminate Hinfo].
  destruct (get_device_tilegrid_failed_read Sample.no_files Sample.part_F1D
              SampleTiles.st_twin info json_parser_error
              eq_refl Hinfo eq_refl eq_refl) as [Hfail Hagain].
  split; [exact Hfail|]. rewrite Hfail. cbn [snd].
  rewrite (Hagain Sample.twin_files (Sample.grid "T1") eq_refl). cbn [fst].
  injection Hinfo as <-. reflexivity.
Defined.

Lemma get_device_tilegrid_malformed_stays_cached_witness :
  fst (get_device_tilegrid Sample.twin_files Sample.part_F1D
         (snd (get_device_tilegrid (SampleTiles.files SampleTiles.grid_malformed)
                 Sample.part_F1D SampleTiles.st_twin)))
  = Err ptree_bad_path.
Proof.
  destruct (get_chip_info Sample.part_F1D SampleTiles.st_twin) as [info|] eqn:Hinfo;
    [|discriminate Hinfo].
  destruct (get_device_tilegrid_malformed_stays_cached
              (SampleTiles.files SampleTiles.grid_malformed) Sample.part_F1D
              SampleTiles.st_twin info SampleTiles.grid_malformed ptree_bad_path
              eq_refl Hinfo eq_refl eq_refl) as [_ Hlater].
  - injection Hinfo as <-. reflexivity.
  - pose proof (Hlater [] Sample.twin_files eq_refl) as H. cbn [run] in H.
    rewrite H. reflexivity.
Defined.

Lemma get_device_tilegrid_tiles_witness :
  exists ti,
    fst (get_device_tilegrid (SampleTiles.files SampleTiles.grid_negative)
           Sample.part_F1D SampleTiles.st_twin) = Ok [ti]
    /\ TileInfo.name ti = "T1"%string
    /\ TileInfo.num_frames ti = 2 ^ 64 - 1.
Proof.
  destruct (fst (get_device_tilegrid (SampleTiles.files SampleTiles.grid_negative)
                   Sample.part_F1D SampleTiles.st_twin)) as [tiles|] eqn:Htiles;
    [|discriminate Htiles].
  destruct (get_device_tilegrid_tiles _ _ _ tiles Htiles)
    as (tg & info & Htg & _ & Hnames & _ & Hsizes).
  injection Htg as <-.
  destruct tiles as [|ti [|ti' tiles]]; try discriminate Hnames.
  exists ti. split; [reflexivity|]. injection Hnames as Hname.
  split; [exact Hname|].
  inversion Hsizes as [|? ? ? ? (cols & Hcols & Hnf & _) _]; subst.
  injection Hcols as <-. exact Hnf.
Defined.

(** ** The bit-database store along a program run *)

Section BitdbExtras.

Context {TileBitDatabase : Type}.
Implicit Types st : db_state TileBitDatabase.
Implicit Types fs : filesystem TileBitDatabase.
Implicit Types c : call TileBitDatabase.

Lemma run_app (cs1 cs2 : list (call TileBitDatabase)) st :
  run (cs1 ++ cs2) st = run cs2 (run cs1 st).
Proof. revert st. induction cs1 as [|c cs1 IH]; intros st; simpl; auto. Qed.

(** Only a [get_tile_bitdata] that constructs changes the store or the heap. *)
Lemma step_bitdb_cases c st :
  (bitdb_store (step c st) = bitdb_store st /\ heap (step c st) = heap st)
  \/ exists fs tile db,
       c = call_get_tile_bitdata fs tile
       /\ bitdb_store st !! tile = None
       /\ new_TileBitDatabase fs (bitdb_path tile st) = Ok db
       /\ step c st = store_new_bitdb tile db st.
Proof.
  destruct c as [fs root|fs part|fs t]; simpl.
  - left. unfold load_database. destruct (read_json fs _); auto.
  - left. unfold get_device_tilegrid.
    destruct (String.eqb (db_root st) EmptyString); [auto|].
    destruct (get_chip_info part st); [|auto].
    unfold tilegrid_fill.
    destruct (tilegrid_cache st !! DeviceLocator.device part); [auto|].
    destruct (read_json fs _); auto.
  - unfold get_tile_bitdata.
    destruct (bitdb_store st !! t) eqn:Hlook; [auto|].
    destruct (String.eqb (db_root st) EmptyString); [auto|].
    destruct (new_TileBitDatabase fs (bitdb_path t st)) as [db|] eqn:Hdb; [|auto].
    right. exists fs, t, db. auto.
Qed.

Lemma step_keeps_store_wf c st : bitdb_store_wf st -> bitdb_store_wf (step c st).
Proof.
  intros (Hvalid & Hinj & Hsize).
  destruct (step_bitdb_cases c st) as [[Hs Hh]|(fs & tile & db & _ & Hnone & _ & ->)].
  - unfold bitdb_store_wf. rewrite Hs, Hh. auto.
  - unfold bitdb_store_wf, store_new_bitdb. cbn [bitdb_store heap].
    split; [|split].
    + intros t h. rewrite length_app. simpl.
      destruct (decide (tile = t)) as [->|Hne].
      * rewrite lookup_insert_eq. intros [= <-]. lia.
      * rewrite lookup_insert_ne by exact Hne. intros H.
        specialize (Hvalid t h H). lia.
    + intros t1 t2 h.
      destruct (decide (tile = t1)) as [<-|Hne1];
        destruct (decide (tile = t2)) as [<-|Hne2];
        rewrite ?lookup_insert_eq, ?lookup_insert_ne by assumption.
      * reflexivity.
      * intros [= <-] H2. specialize (Hvalid t2 _ H2). lia.
      * intros H1 [= <-]. specialize (Hvalid t1 _ H1). lia.
      * apply Hinj.
    + rewrite map_size_insert_None by exact Hnone.
      rewrite length_app, Hsize. simpl. lia.
Qed.

Lemma initial_store_wf : bitdb_store_wf (initial_state TileBitDatabase).
Proof.
  unfold bitdb_store_wf, initial_state. cbn [bitdb_store heap].
  split; [|split].
  - intros tile h H. rewrite lookup_empty in H. discriminate H.
  - intros t1 t2 h H. rewrite lookup_empty in H. discriminate H.
  - apply map_size_empty.
Qed.

Lemma run_keeps_store_wf (cs : list (call TileBitDatabase)) :
  forall st, bitdb_store_wf st -> bitdb_store_wf (run cs st).
Proof.
  induction cs as [|c cs IH]; intros st H; [exact H|].
  simpl. apply IH, step_keeps_store_wf, H.
Qed.

(** X16.  Along every run of the program from its start, the store of bit
    databases stays well-formed: each stored handle designates an allocated
    object, no two keys hold the same handle, and the number of objects ever
    constructed equals the number of keys in the store. *)
Theorem bitdb_store_wf_along_run (cs : list (call TileBitDatabase)) :
  bitdb_store_wf (run cs (initial_state TileBitDatabase)).
Proof.
  induction cs as [|c cs IH] using rev_ind.
  - apply initial_store_wf.
  - rewrite run_app. simpl. apply step_keeps_store_wf, IH.
Qed.

(** X17.  In a run from the program's start, the handles that
    [get_tile_bitdata] returns for two different keys are different, and
    both designate objects on the heap. *)
Theorem get_tile_bitdata_distinct_handles (cs : list (call TileBitDatabase))
    fs1 fs2 (t1 t2 : TileLocator.t) (h1 h2 : shared_ptr) st1 st2 :
  get_tile_bitdata fs1 t1 (run cs (initial_state TileBitDatabase)) = (Ok h1, st1) ->
  get_tile_bitdata fs2 t2 st1 = (Ok h2, st2) ->
  t1 <> t2 ->
  h1 <> h2 /\ is_Some (heap st2 !! h1) /\ is_Some (heap st2 !! h2).
Proof.
  intros Hcall1 Hcall2 Hne.
  assert (Hst1 : st1 = run (cs ++ [call_get_tile_bitdata fs1 t1])
                         (initial_state TileBitDatabase)).
  { rewrite run_app. simpl. rewrite Hcall1. reflexivity. }
  assert (Hst2 : st2 = run ((cs ++ [call_get_tile_bitdata fs1 t1])
                            ++ [call_get_tile_bitdata fs2 t2])
                         (initial_state TileBitDatabase)).
  { rewrite run_app, <- Hst1. simpl. rewrite Hcall2. reflexivity. }
  pose proof (run_keeps_store_wf
                ((cs ++ [call_get_tile_bitdata fs1 t1])
                 ++ [call_get_tile_bitdata fs2 t2])
                _ initial_store_wf) as Hwf.
  rewrite <- Hst2 in Hwf. destruct Hwf as (Hvalid & Hinj & _).
  pose proof (get_tile_bitdata_stored fs1 t1 _ h1 st1 Hcall1) as Hs1.
  pose proof (get_tile_bitdata_stored fs2 t2 st1 h2 st2 Hcall2) as Hs2.
  assert (Hs1' : bitdb_store st2 !! t1 = Some h1).
  { pose proof (step_keeps_bitdb (call_get_tile_bitdata fs2 t2) st1 t1 h1 Hs1)
      as Hk. simpl in Hk. rewrite Hcall2 in Hk. exact Hk. }
  split; [|split].
  - intros ->. apply Hne. apply (Hinj t1 t2 h2 Hs1' Hs2).
  - apply lookup_lt_is_Some, (Hvalid t1 h1 Hs1').
  - apply lookup_lt_is_Some, (Hvalid t2 h2 Hs2).
Qed.

(** X18.  Before [load_database] has run, nothing can be obtained and
    nothing is cached: the lookups and [get_chip_info] throw
    [ptree_bad_path] on the empty catalogue, [get_device_tilegrid] and
    [get_tile_bitdata] abort on the assertion that the root is set, and any
    sequence of such calls leaves the state as it was at program start. *)
Theorem nothing_before_load_database (hexstr : Z -> string)
    (cs : list (call TileBitDatabase)) :
  catalog_read_only cs = true ->
  run cs (initial_state TileBitDatabase) = initial_state TileBitDatabase
  /\ (forall name,
        find_device_by_name name (run cs (initial_state TileBitDatabase))
        = Err ptree_bad_path)
  /\ (forall idcode,
        find_device_by_idcode hexstr idcode (run cs (initial_state TileBitDatabase))
        = Err ptree_bad_path)
  /\ (forall part,
        get_chip_info part (run cs (initial_state TileBitDatabase))
        = Err ptree_bad_path)
  /\ (forall fs part,
        fst (get_device_tilegrid fs part (run cs (initial_state TileBitDatabase)))
        = Err assertion_failed)
  /\ (forall fs tile,
        fst (get_tile_bitdata fs tile (run cs (initial_state TileBitDatabase)))
        = Err assertion_failed).
Proof.
  intros Hro.
  assert (Hrun : run cs (initial_state TileBitDatabase)
                 = initial_state TileBitDatabase).
  { induction cs as [|c cs IH]; [reflexivity|].
    simpl in Hro. apply andb_prop in Hro as [Hc Hcs].
    simpl. destruct c as [fs root|fs part|fs t]; [discriminate Hc| |];
      simpl; apply IH, Hcs. }
  rewrite Hrun. repeat split; reflexivity.
Qed.

(** X19.  [load_database] sets the root first and replaces the catalogue
    only when "devices.json" under the new root can be read; either way it
    leaves both caches alone.  So after loading another database, a tile
    grid cached before is still served, without any file being read, from
    the table of the old database, and a cached bit database keeps its
    handle. *)
Theorem load_database_keeps_caches fs (root : string) st
    (part : DeviceLocator.t) (tg : ptree) (tile : TileLocator.t) (h : shared_ptr) :
  tilegrid_cache st !! DeviceLocator.device part = Some tg ->
  bitdb_store st !! tile = Some h ->
  db_root (snd (load_database fs root st)) = root
  /\ match read_json fs (root +:+ "/" +:+ "devices.json") with
     | Ok cat => fst (load_database fs root st) = Ok tt
                 /\ devices_info (snd (load_database fs root st)) = cat
     | Err e => fst (load_database fs root st) = Err e
                /\ devices_info (snd (load_database fs root st)) = devices_info st
     end
  /\ (forall fs',
        get_device_tilegrid fs' part (snd (load_database fs root st))
        = (tilegrid_view part (snd (load_database fs root st)) tg,
           snd (load_database fs root st)))
  /\ (forall fs',
        get_tile_bitdata fs' tile (snd (load_database fs root st))
        = (Ok h, snd (load_database fs root st))).
Proof.
  intros Htg Hh.
  pose proof (step_keeps_tilegrid (call_load_database fs root) st _ tg Htg) as Htg'.
  pose proof (step_keeps_bitdb (call_load_database fs root) st tile h Hh) as Hh'.
  simpl in Htg', Hh'. split; [|split; [|split]].
  - unfold load_database. destruct (read_json fs _); reflexivity.
  - unfold load_database. destruct (read_json fs _); split; reflexivity.
  - intros fs'. apply get_device_tilegrid_cached, Htg'.
  - intros fs'. apply get_tile_bitdata_hit, Hh'.
Qed.

End BitdbExtras.

Lemma get_tile_bitdata_distinct_handles_witness :
  (0 <> 1)%nat /\ is_Some (["/db/F/tiledata/PLC2/bits.db"; "/db/F/tiledata/CIB/bits.db"]%string !! 0%nat)
  /\ is_Some (["/db/F/tiledata/PLC2/bits.db"; "/db/F/tiledata/CIB/bits.db"]%string !! 1%nat).
Proof.
  apply (get_tile_bitdata_distinct_handles
           [call_load_database Sample.no_files "/db"]
           Sample.twin_files Sample.twin_files Sample.tile_FT Sample.tile_FU
           0%nat 1%nat
           (snd (get_tile_bitdata Sample.twin_files Sample.tile_FT
                   (run [call_load_database Sample.no_files "/db"]
                      (initial_state Sample.bitdb))))
           (snd (get_tile_bitdata Sample.twin_files Sample.tile_FU
                   (snd (get_tile_bitdata Sample.twin_files Sample.tile_FT
                           (run [call_load_database Sample.no_files "/db"]
                              (initial_state Sample.bitdb))))))
           eq_refl eq_refl).
  discriminate.
Defined.

Lemma nothing_before_load_database_witness :
  run [call_get_tile_bitdata Sample.twin_files Sample.tile_FT;
       call_get_device_tilegrid Sample.twin_files Sample.part_F1D]
    (initial_state Sample.bitdb)
  = initial_state Sample.bitdb.
Proof.
  apply (proj1 (nothing_before_load_database Sample.hexstr
                  [call_get_tile_bitdata Sample.twin_files Sample.tile_FT;
                   call_get_device_tilegrid Sample.twin_files Sample.part_F1D]
                  eq_refl)).
Defined.

Lemma load_database_keeps_caches_witness :
  get_tile_bitdata Sample.no_files Sample.tile_FT
    (snd (load_database Sample.no_files "/other"
            (snd (get_tile_bitdata Sample.twin_files Sample.tile_FT
                    (snd (get_device_tilegrid Sample.twin_files Sample.part_F1D
                            SampleTiles.st_twin))))))
  = (Ok 0%nat,
     snd (load_database Sample.no_files "/other"
            (snd (get_tile_bitdata Sample.twin_files Sample.tile_FT
                    (snd (get_device_tilegrid Sample.twin_files Sample.part_F1D
                            SampleTiles.st_twin)))))).
Proof.
  apply (load_database_keeps_caches Sample.no_files "/other"
           (snd (get_tile_bitdata Sample.twin_files Sample.tile_FT
                   (snd (get_device_tilegrid Sample.twin_files Sample.part_F1D
                           SampleTiles.st_twin))))
           Sample.part_F1D (Sample.grid "T1") Sample.tile_FT 0%nat
           eq_refl eq_refl).
Defined.

(** ** Round trips: a globals file written from a value loads to that value *)

Lemma get_value_int_num (z : Z) : in_int z = true -> get_value_int (num z) = Ok z.
Proof.
  intros H. unfold get_value_int, num, leaf. cbn [data].
  rewrite (stream_int_to_string z H). reflexivity.
Qed.

Lemma get_int_member (key : string) (members : list (string * ptree)) :
  plain_key key = true ->
  get_int key (obj members) =
  match ptree_find key members with
  | Some c => get_value_int c
  | None => Err ptree_bad_path
  end.
Proof.
  intros H. unfold get_int. rewrite (get_child_plain key _ H).
  unfold obj. cbn [children]. destruct (ptree_find key members); reflexivity.
Qed.

Lemma for_each_map_back {A B} (f : A -> result B) (g : B -> A) (l : list B) :
  Forall (fun y => f (g y) = Ok y) l -> for_each f (map g l) = Ok l.
Proof.
  induction 1 as [|y l Hy _ IH]; simpl; [reflexivity|].
  rewrite Hy. cbn [bind]. rewrite IH. reflexivity.
Qed.

Ltac read_member :=
  rewrite get_int_member by reflexivity;
  cbn [ptree_find String.eqb Ascii.eqb Bool.eqb];
  rewrite get_value_int_num by assumption; cbn [bind].

Lemma ecp5_quadrant_back (rg : GlobalRegion.t) :
  in_int (GlobalRegion.x0 rg) = true /\ in_int (GlobalRegion.x1 rg) = true
  /\ in_int (GlobalRegion.y0 rg) = true /\ in_int (GlobalRegion.y1 rg) = true ->
  ecp5_quadrant (ecp5_quadrant_member rg) = Ok rg.
Proof.
  intros (H0 & H1 & H2 & H3). unfold ecp5_quadrant, ecp5_quadrant_member.
  cbn [fst snd]. do 4 read_member. destruct rg; reflexivity.
Qed.

Lemma ecp5_tap_back (ts : TapSegment.t) :
  in_int (TapSegment.tap_col ts) = true /\ in_int (TapSegment.lx0 ts) = true
  /\ in_int (TapSegment.lx1 ts) = true /\ in_int (TapSegment.rx0 ts) = true
  /\ in_int (TapSegment.rx1 ts) = true ->
  ecp5_tap (ecp5_tap_member ts) = Ok ts.
Proof.
  intros (Hc & H0 & H1 & H2 & H3). unfold ecp5_tap, ecp5_tap_member.
  cbn [fst snd]. rewrite append_cons.
  change (EmptyString +:+ to_string (TapSegment.tap_col ts))
    with (to_string (TapSegment.tap_col ts)).
  cbv beta iota. rewrite Ascii.eqb_refl. cbn [assert bind substr_from].
  rewrite (stoi_to_string _ Hc). cbn [bind].
  do 4 read_member. destruct ts; reflexivity.
Qed.

Lemma ecp5_spine_back (ss : SpineSegment.t) :
  String.length (SpineSegment.quadrant ss) = 2%nat
  /\ in_int (SpineSegment.tap_col ss) = true
  /\ in_int (SpineSegment.spine_row ss) = true
  /\ in_int (SpineSegment.spine_col ss) = true ->
  ecp5_spine (ecp5_spine_member ss) = Ok ss.
Proof.
  intros (Hq & Hc & Hy & Hx). unfold ecp5_spine, ecp5_spine_member.
  destruct ss as [q c y x]. cbn [SpineSegment.quadrant SpineSegment.tap_col
    SpineSegment.spine_row SpineSegment.spine_col fst snd] in *.
  apply string_length_2 in Hq as (a & b & ->). rewrite !append_cons.
  change (EmptyString +:+ to_string c) with (to_string c).
  cbn [substr_prefix substr_from bind].
  rewrite (stoi_to_string _ Hc). cbn [bind].
  do 2 read_member. reflexivity.
Qed.

Section RoundTrips.

Context {TileBitDatabase : Type}.
Implicit Types st : db_state TileBitDatabase.

(** X20.  Every ECP5 globals value whose numbers fit an [int] and whose
    quadrant tags have two characters is read back unchanged by
    [get_global_info_ecp5] from the file that lists it: names and composite
    keys are decoded to the fields they were written from, and the order of
    the three sequences is kept. *)
Theorem get_global_info_ecp5_round_trip
    (fs : filesystem TileBitDatabase) (part : DeviceLocator.t) st
    (g : Ecp5GlobalsInfo.t) :
  ecp5_representable g ->
  read_json fs (device_file st part "globals.json") = Ok (ecp5_tree g) ->
  get_global_info_ecp5 fs part st = Ok g.
Proof.
  intros (Hq & Ht & Hs) Hread.
  unfold get_global_info_ecp5, parse_globals_ecp5. rewrite Hread. cbn [bind].
  unfold ecp5_tree.
  rewrite (get_child_plain "quadrants") by reflexivity.
  rewrite (get_child_plain "taps") by reflexivity.
  rewrite (get_child_plain "spines") by reflexivity.
  cbn [children obj ptree_find String.eqb Ascii.eqb Bool.eqb bind].
  rewrite (for_each_map_back ecp5_quadrant ecp5_quadrant_member).
  2: { eapply Forall_impl; [exact Hq|]. intros rg. apply ecp5_quadrant_back. }
  cbn [bind].
  rewrite (for_each_map_back ecp5_tap ecp5_tap_member).
  2: { eapply Forall_impl; [exact Ht|]. intros ts. apply ecp5_tap_back. }
  cbn [bind].
  rewrite (for_each_map_back ecp5_spine ecp5_spine_member).
  2: { eapply Forall_impl; [exact Hs|]. intros ss. apply ecp5_spine_back. }
  cbn [bind]. destruct g; reflexivity.
Qed.

End RoundTrips.

Lemma get_global_info_ecp5_round_trip_witness :
  get_global_info_ecp5
    (SampleGlobals.globals_fs
       (ecp5_tree
          {| Ecp5GlobalsInfo.quadrants :=
               [{| GlobalRegion.name := "UL"; GlobalRegion.x0 := 0;
                   GlobalRegion.x1 := 10; GlobalRegion.y0 := 0;
                   GlobalRegion.y1 := 20 |}];
             Ecp5GlobalsInfo.tapsegs :=
               [{| TapSegment.tap_col := 12; TapSegment.lx0 := 1;
                   TapSegment.lx1 := 11; TapSegment.rx0 := 13;
                   TapSegment.rx1 := 30 |}];
             Ecp5GlobalsInfo.spinesegs :=
               [{| SpineSegment.quadrant := "UL"; SpineSegment.tap_col := 12;
                   SpineSegment.spine_row := 7; SpineSegment.spine_col := 8 |}] |}))
    Sample.part_FD SampleGlobals.st_FD
  = Ok {| Ecp5GlobalsInfo.quadrants :=
            [{| GlobalRegion.name := "UL"; GlobalRegion.x0 := 0;
                GlobalRegion.x1 := 10; GlobalRegion.y0 := 0;
                GlobalRegion.y1 := 20 |}];
          Ecp5GlobalsInfo.tapsegs :=
            [{| TapSegment.tap_col := 12; TapSegment.lx0 := 1;
                TapSegment.lx1 := 11; TapSegment.rx0 := 13;
                TapSegment.rx1 := 30 |}];
          Ecp5GlobalsInfo.spinesegs :=
            [{| SpineSegment.quadrant := "UL"; SpineSegment.tap_col := 12;
                SpineSegment.spine_row := 7; SpineSegment.spine_col := 8 |}] |}.
Proof.
  apply get_global_info_ecp5_round_trip; [|reflexivity].
  unfold ecp5_representable. simpl. repeat constructor.
Defined.

(** *** MachXO2 *)

Lemma to_string_inj (a b : Z) :
  in_int a = true -> in_int b = true -> to_string a = to_string b -> a = b.
Proof.
  intros Ha Hb H. pose proof (stoi_to_string a Ha) as Hsa.
  rewrite H, (stoi_to_string b Hb) in Hsa. congruence.
Qed.

Lemma nodup_map_inj_on {A B} (f : A -> B) (l : list A) :
  (forall x y, In x l -> In y l -> f x = f y -> x = y) ->
  NoDup l -> NoDup (map f l).
Proof.
  intros Hinj Hnd. induction Hnd as [|x l Hx Hnd IH]; simpl; constructor.
  - intros Hin. apply list_elem_of_In, in_map_iff in Hin as (y & Hfy & Hy).
    apply Hx. apply list_elem_of_In.
    rewrite <- (Hinj y x (or_intror Hy) (or_introl eq_refl) Hfy). exact Hy.
  - apply IH. intros a b Ha Hb. apply Hinj; right; assumption.
Qed.

Lemma map_fst_combine {A B} (l : list A) (k : list B) :
  length l = length k -> map fst (combine l k) = l.
Proof.
  revert k. induction l as [|x l IH]; intros [|y k]; simpl; intros H;
    try reflexivity; try discriminate.
  f_equal. apply IH. lia.
Qed.

Lemma read_pair_back (p : Z * Z) :
  in_int (fst p) = true -> in_int (snd p) = true -> read_pair (pair_tree p) = Ok p.
Proof.
  intros Ha Hb. unfold read_pair, pair_tree, arr. cbn [children map snd].
  rewrite (get_value_int_num _ Ha). cbn [bind].
  rewrite (get_value_int_num _ Hb). destruct p; reflexivity.
Qed.

Lemma int_array_back (l : list Z) : all_int l -> int_array (int_array_tree l) = Ok l.
Proof.
  intros Hl. unfold int_array, int_array_tree, get_child.
  cbn [split_path walk_path bind]. unfold arr. cbn [children].
  rewrite map_map.
  apply (for_each_map_back (fun glb_no => get_int EmptyString (snd glb_no))
           (fun z => (EmptyString, num z))).
  eapply Forall_impl; [exact Hl|]. intros z Hz. cbn [snd].
  unfold get_int, get_child. cbn [split_path walk_path bind].
  apply get_value_int_num, Hz.
Qed.

Lemma machxo2_lr_back (c : LeftRightConn.t) :
  in_int (LeftRightConn.row c) = true
  /\ in_int (fst (LeftRightConn.row_span c)) = true
  /\ in_int (snd (LeftRightConn.row_span c)) = true ->
  machxo2_lr (machxo2_lr_member c) = Ok c.
Proof.
  intros (Hr & Ha & Hb). unfold machxo2_lr, machxo2_lr_member. cbn [fst snd].
  rewrite get_int_member by reflexivity.
  cbn [ptree_find String.eqb Ascii.eqb Bool.eqb].
  rewrite (get_value_int_num _ Hr). cbn [bind].
  rewrite (get_child_plain "row-span") by reflexivity.
  cbn [children obj ptree_find String.eqb Ascii.eqb Bool.eqb bind].
  rewrite (read_pair_back _ Ha Hb). destruct c; reflexivity.
Qed.

Lemma machxo2_missing_back (m : MissingDccs.t) :
  in_int (MissingDccs.row m) = true /\ all_int (MissingDccs.missing m) ->
  machxo2_missing (machxo2_missing_member m) = Ok m.
Proof.
  intros (Hr & Hm). unfold machxo2_missing, machxo2_missing_member.
  cbn [fst snd]. rewrite (stoi_to_string _ Hr). cbn [bind].
  rewrite (int_array_back _ Hm). destruct m; reflexivity.
Qed.

Lemma ud_conns_loop_back (uds : list (list Z)) :
  forall col_no : Z,
    0 <= col_no ->
    col_no + Z.of_nat (length uds) <= int_max ->
    Forall all_int uds ->
    ud_conns_loop col_no (numbered col_no (map int_array_tree uds)) = Ok uds.
Proof.
  induction uds as [|udc uds IH]; intros col_no Hpos Hmax Hall; [reflexivity|].
  inversion Hall as [|? ? Hudc Hrest]; subst.
  simpl length in Hmax. rewrite Nat2Z.inj_succ in Hmax.
  cbn [map numbered ud_conns_loop fst snd].
  rewrite stoi_to_string by (apply in_int_bounds; unfold int_max in Hmax; lia).
  cbn [bind]. rewrite Z.eqb_refl. cbn [assert bind].
  rewrite (int_array_back _ Hudc). cbn [bind].
  unfold incr. destruct (col_no <? int_max) eqn:Hlt;
    [|apply Z.ltb_ge in Hlt; lia].
  cbn [bind]. rewrite IH by (try assumption; lia). reflexivity.
Qed.

Lemma for_each_branch_span_back (globals : list Z) (sp : list (Z * Z)) :
  NoDup globals -> all_int globals -> length globals = length sp ->
  Forall (fun s => in_int (fst s) = true /\ in_int (snd s) = true) sp ->
  for_each (branch_span (spans_tree globals sp)) globals = Ok sp.
Proof.
  intros Hnd Hint Hlen Hsp.
  assert (Hkeys : NoDup (map fst (children (spans_tree globals sp)))).
  { unfold spans_tree, obj. cbn [children]. rewrite map_map. cbn [fst].
    rewrite <- (map_map fst to_string), (map_fst_combine _ _ Hlen).
    apply nodup_map_inj_on; [|exact Hnd].
    intros x y Hx Hy. unfold all_int in Hint.
    rewrite List.Forall_forall in Hint. apply to_string_inj; auto. }
  assert (Heach : forall g s, In (g, s) (combine globals sp) ->
                              branch_span (spans_tree globals sp) g = Ok s).
  { intros g s Hin. unfold branch_span.
    rewrite (get_child_plain _ _ (to_string_plain g)).
    rewrite (ptree_find_nodup (to_string g) _ (pair_tree s) Hkeys).
    - cbn [bind]. rewrite List.Forall_forall in Hsp.
      destruct (Hsp s (in_combine_r _ _ _ _ Hin)) as [Ha Hb].
      apply (read_pair_back s Ha Hb).
    - unfold spans_tree, obj. cbn [children]. apply in_map_iff.
      exists (g, s). auto. }
  clear Hkeys Hnd Hint Hsp. revert Heach.
  generalize (spans_tree globals sp). intros tree. revert sp Hlen.
  induction globals as [|g globals IH]; intros [|s sp] Hlen Heach;
    try discriminate; [reflexivity|].
  simpl. rewrite (Heach g s) by (left; reflexivity). cbn [bind].
  rewrite (IH sp); [reflexivity | simpl in Hlen; lia |].
  intros g' s' Hin. apply Heach. right. exact Hin.
Qed.

Lemma branch_spans_loop_back (bs : list (list (Z * Z))) :
  forall (pre uds : list (list Z)),
    (length bs <= length uds)%nat ->
    Z.of_nat (length (pre ++ uds)) <= int_max ->
    Forall all_int uds ->
    Forall (fun p => NoDup (fst p)
                     /\ length (fst p) = length (snd p)
                     /\ Forall (fun s => in_int (fst s) = true
                                         /\ in_int (snd s) = true) (snd p))
      (combine uds bs) ->
    branch_spans_loop (pre ++ uds) (Z.of_nat (length pre))
      (numbered (Z.of_nat (length pre))
         (map (fun p => spans_tree (fst p) (snd p)) (combine uds bs)))
    = Ok bs.
Proof.
  induction bs as [|b bs IH]; intros pre uds Hlen Hmax Hint Hcols.
  - destruct uds; reflexivity.
  - destruct uds as [|u uds]; [simpl in Hlen; lia|].
    inversion Hint as [|? ? Hu Hrest]; subst.
    simpl combine in Hcols. inversion Hcols as [|? ? (Hnd & Hl & Hsp) Hcols']; subst.
    cbn [fst snd] in Hnd, Hl, Hsp.
    rewrite length_app in Hmax. simpl length in Hmax.
    cbn [combine map numbered branch_spans_loop fst snd].
    rewrite stoi_to_string by (apply in_int_bounds; unfold int_max in Hmax; lia).
    cbn [bind]. rewrite Z.eqb_refl. cbn [assert bind].
    unfold vector_at. rewrite Nat2Z.id.
    rewrite lookup_app_r by lia. rewrite Nat.sub_diag. cbn [lookup list_lookup bind].
    rewrite (for_each_branch_span_back u b Hnd Hu Hl Hsp). cbn [bind].
    unfold incr. destruct (Z.of_nat (length pre) <? int_max) eqn:Hlt;
      [|apply Z.ltb_ge in Hlt; lia].
    cbn [bind].
    replace (Z.of_nat (length pre) + 1) with (Z.of_nat (length (pre ++ [u])))
      by (rewrite length_app; simpl; lia).
    replace (pre ++ u :: uds) with ((pre ++ [u]) ++ uds)
      by (rewrite <- app_assoc; reflexivity).
    rewrite IH; [reflexivity | simpl in Hlen; lia | | exact Hrest | exact Hcols'].
    rewrite !length_app. simpl. lia.
Qed.

Section MachXO2RoundTrip.

Context {TileBitDatabase : Type}.
Implicit Types st : db_state TileBitDatabase.

(** X21.  Every MachXO2 globals value that the file layout can express
    (numbers that fit an [int], at most [int_max] columns, no more
    branch-span columns than up-down columns, and in each such column
    distinct declared indices with one span each) is read back unchanged by
    [get_global_info_machxo2] from the file that lists it with its columns
    numbered from 0. *)
Theorem get_global_info_machxo2_round_trip
    (fs : filesystem TileBitDatabase) (part : DeviceLocator.t) st
    (info : MachXO2GlobalsInfo.t) :
  machxo2_representable info ->
  read_json fs (device_file st part "globals.json") = Ok (machxo2_tree info) ->
  get_global_info_machxo2 fs part st = Ok info.
Proof.
  intros (Hlr & Hud & Hmax & Hlen & Hcols & Hdcc) Hread.
  unfold get_global_info_machxo2, parse_globals_machxo2. rewrite Hread.
  cbn [bind]. unfold machxo2_tree.
  rewrite (get_child_plain "lr-conns") by reflexivity.
  rewrite (get_child_plain "ud-conns") by reflexivity.
  rewrite (get_child_plain "branch-spans") by reflexivity.
  rewrite (get_child_plain "missing-dccs") by reflexivity.
  cbn [children obj ptree_find String.eqb Ascii.eqb Bool.eqb bind].
  rewrite (for_each_map_back machxo2_lr machxo2_lr_member).
  2: { eapply Forall_impl; [exact Hlr|]. intros c. apply machxo2_lr_back. }
  cbn [bind].
  rewrite (ud_conns_loop_back _ 0) by (try assumption; lia). cbn [bind].
  pose proof (branch_spans_loop_back _ [] _ Hlen Hmax Hud Hcols) as Hbs.
  cbn [app length] in Hbs. change (Z.of_nat 0) with 0 in Hbs.
  rewrite Hbs. cbn [bind].
  rewrite (for_each_map_back machxo2_missing machxo2_missing_member).
  2: { eapply Forall_impl; [exact Hdcc|]. intros m. apply machxo2_missing_back. }
  cbn [bind]. destruct info; reflexivity.
Qed.

End MachXO2RoundTrip.

Lemma get_global_info_machxo2_round_trip_witness :
  get_global_info_machxo2
    (SampleGlobals.globals_fs (machxo2_tree SampleValues.machxo2_value))
    Sample.part_FD SampleGlobals.st_FD
  = Ok SampleValues.machxo2_value.
Proof.
  apply get_global_info_machxo2_round_trip; [|reflexivity].
  unfold machxo2_representable, SampleValues.machxo2_value, all_int.
  cbn [MachXO2GlobalsInfo.lr_conns MachXO2GlobalsInfo.ud_conns
       MachXO2GlobalsInfo.branch_spans MachXO2GlobalsInfo.missing_dccs
       combine length].
  split; [repeat constructor|]. split; [repeat constructor|].
  split; [vm_compute; discriminate|]. split; [lia|].
  split; [|repeat constructor].
  repeat (constructor;
          [split; [apply (bool_decide_unpack _); vm_compute; exact I
                  | split; [reflexivity | repeat constructor]]|]).
  constructor.
Defined.

(** * Lookup by name on catalogues outside the expected form *)

(** C5 as stated fails.  In each of these catalogues the device name is
    present and [find_device_by_name] returns its locator, yet
    [get_chip_info] on that locator throws [ptree_bad_path]: the name
    contains the path separator, so the keyed walk splits it; the family key
    occurs twice, and the walk enters the first family, which lacks the
    device; the entry has nothing but "idcode" and "frames", and the other
    fields are read too; the name is empty, and the empty path stays at the
    "devices" object; the family name contains the path separator or is
    empty.  Where a family without a "devices" member comes first, the
    lookup by name itself throws [ptree_bad_path]. *)
Lemma find_by_name_then_get_chip_info_fails :
  (In "LFE5U.25F"%string (SampleCatalogs.names SampleCatalogs.dotted)
   /\ find_device_by_name "LFE5U.25F" (Sample.state_of "/db" SampleCatalogs.dotted)
      = Ok (DeviceLocator.mk "F" "LFE5U.25F")
   /\ get_chip_info (DeviceLocator.mk "F" "LFE5U.25F")
        (Sample.state_of "/db" SampleCatalogs.dotted) = Err ptree_bad_path)
  /\ (In "D"%string (SampleCatalogs.names SampleCatalogs.repeated_family)
      /\ find_device_by_name "D" (Sample.state_of "/db" SampleCatalogs.repeated_family)
         = Ok (DeviceLocator.mk "F" "D")
      /\ get_chip_info (DeviceLocator.mk "F" "D")
           (Sample.state_of "/db" SampleCatalogs.repeated_family)
         = Err ptree_bad_path)
  /\ (In "D"%string (SampleCatalogs.names SampleCatalogs.bare_entry)
      /\ find_device_by_name "D" (Sample.state_of "/db" SampleCatalogs.bare_entry)
         = Ok (DeviceLocator.mk "F" "D")
      /\ get_chip_info (DeviceLocator.mk "F" "D")
           (Sample.state_of "/db" SampleCatalogs.bare_entry)
         = Err ptree_bad_path)
  /\ (In EmptyString (SampleCatalogs.names SampleCatalogs.empty_name)
      /\ find_device_by_name EmptyString
           (Sample.state_of "/db" SampleCatalogs.empty_name)
         = Ok (DeviceLocator.mk "F" EmptyString)
      /\ get_chip_info (DeviceLocator.mk "F" EmptyString)
           (Sample.state_of "/db" SampleCatalogs.empty_name)
         = Err ptree_bad_path)
  /\ (In "D"%string (SampleCatalogs.names SampleCatalogs.dotted_family)
      /\ find_device_by_name "D" (Sample.state_of "/db" SampleCatalogs.dotted_family)
         = Ok (DeviceLocator.mk "F.X" "D")
      /\ get_chip_info (DeviceLocator.mk "F.X" "D")
           (Sample.state_of "/db" SampleCatalogs.dotted_family)
         = Err ptree_bad_path)
  /\ (In "D"%string (SampleCatalogs.names SampleCatalogs.empty_family)
      /\ find_device_by_name "D" (Sample.state_of "/db" SampleCatalogs.empty_family)
         = Ok (DeviceLocator.mk EmptyString "D")
      /\ get_chip_info (DeviceLocator.mk EmptyString "D")
           (Sample.state_of "/db" SampleCatalogs.empty_family)
         = Err ptree_bad_path)
  /\ (In "D"%string (SampleCatalogs.names SampleCatalogs.missing_devices)
      /\ find_device_by_name "D" (Sample.state_of "/db" SampleCatalogs.missing_devices)
         = Err ptree_bad_path).
Proof.
  repeat split; try reflexivity; vm_compute; auto.
Qed.

(** * ECP5 globals: what the loader returns *)

Lemma ecp5_quadrant_iff (quad : string * ptree) (rg : GlobalRegion.t) :
  ecp5_quadrant quad = Ok rg <-> quadrant_of quad rg.
Proof.
  unfold ecp5_quadrant, quadrant_of. split.
  - intros H.
    apply bind_ok_inv in H as (x0 & H0 & H).
    apply bind_ok_inv in H as (x1 & H1 & H).
    apply bind_ok_inv in H as (y0 & H2 & H).
    apply bind_ok_inv in H as (y1 & H3 & [= <-]).
    simpl. auto.
  - intros (Hn & H0 & H1 & H2 & H3). rewrite H0, H1, H2, H3. cbn [bind].
    rewrite <- Hn. destruct rg; reflexivity.
Qed.

Lemma ecp5_tap_iff (tap : string * ptree) (ts : TapSegment.t) :
  ecp5_tap tap = Ok ts <-> tap_of tap ts.
Proof.
  unfold ecp5_tap, tap_of. split.
  - intros H. apply bind_ok_inv in H as (u & Hassert & H).
    apply assert_ok_inv in Hassert.
    destruct (fst tap) as [|c rest] eqn:Hkey; [discriminate Hassert|].
    apply Ascii.eqb_eq in Hassert. subst c. cbn [substr_from bind] in H.
    apply bind_ok_inv in H as (col & Hcol & H).
    apply bind_ok_inv in H as (l0 & H0 & H).
    apply bind_ok_inv in H as (l1 & H1 & H).
    apply bind_ok_inv in H as (r0 & H2 & H).
    apply bind_ok_inv in H as (r1 & H3 & [= <-]).
    exists rest. simpl. auto 10.
  - intros (rest & Hkey & Hcol & H0 & H1 & H2 & H3).
    rewrite Hkey. cbv beta iota. rewrite Ascii.eqb_refl.
    cbn [assert bind substr_from].
    rewrite Hcol, H0, H1, H2, H3. cbn [bind]. destruct ts; reflexivity.
Qed.

Lemma ecp5_spine_iff (spine : string * ptree) (ss : SpineSegment.t) :
  ecp5_spine spine = Ok ss <-> spine_of spine ss.
Proof.
  unfold ecp5_spine, spine_of. split.
  - intros H. apply bind_ok_inv in H as (rest & Hrest & H).
    destruct (fst spine) as [|a [|b tail]] eqn:Hkey; try discriminate Hrest.
    cbn [substr_from] in Hrest. injection Hrest as <-.
    apply bind_ok_inv in H as (col & Hcol & H).
    apply bind_ok_inv in H as (y & Hy & H).
    apply bind_ok_inv in H as (x & Hx & [= <-]).
    exists a, b, tail. simpl. auto 10.
  - intros (a & b & rest & Hkey & Hq & Hcol & Hy & Hx).
    rewrite Hkey. cbn [substr_prefix substr_from bind].
    rewrite Hcol, Hy, Hx. cbn [bind]. rewrite <- Hq. destruct ss; reflexivity.
Qed.

Lemma for_each_ok_rel {A B} (f : A -> result B) (R : A -> B -> Prop)
    (l : list A) (ys : list B) :
  (forall x y, f x = Ok y <-> R x y) ->
  (for_each f l = Ok ys <-> Forall2 R l ys).
Proof.
  intros HR. rewrite for_each_ok_iff. split; intros H;
    (eapply Forall2_impl; [exact H|]); intros x y; apply HR.
Qed.

Section Ecp5FileOrder.

Context {TileBitDatabase : Type}.
Implicit Types st : db_state TileBitDatabase.

(** C8.  [get_global_info_ecp5] returns [g] exactly when the file is read,
    has the three collections, and the quadrants, tap segments and spine
    segments of [g] are, position by position in file order, what the
    entries of the collections stand for: a quadrant has its entry's key as
    name and its entry's numbers; a tap segment comes from a key 'C'
    followed by its column; a spine segment from a key made of its
    two-character quadrant followed by its column.  No condition relates one
    entry to another, so the entries may come in any order: every value
    whose numbers fit an [int] and whose quadrant tags have two characters is
    returned, unchanged and in its own order, from the file that lists it.
    The key "C" followed by the numeral of [n] gives [tap_col = n]; two
    characters followed by the numeral of [n] give these characters as
    [quadrant] and [tap_col = n]. *)
Theorem get_global_info_ecp5_file_order
    (fs : filesystem TileBitDatabase) (part : DeviceLocator.t) st
    (g : Ecp5GlobalsInfo.t) :
  (get_global_info_ecp5 fs part st = Ok g <->
   exists glb quads taps spines,
     read_json fs (device_file st part "globals.json") = Ok glb
     /\ get_child "quadrants" glb = Ok quads
     /\ get_child "taps" glb = Ok taps
     /\ get_child "spines" glb = Ok spines
     /\ Forall2 quadrant_of (children quads) (Ecp5GlobalsInfo.quadrants g)
     /\ Forall2 tap_of (children taps) (Ecp5GlobalsInfo.tapsegs g)
     /\ Forall2 spine_of (children spines) (Ecp5GlobalsInfo.spinesegs g))
  /\ (ecp5_representable g ->
      read_json fs (device_file st part "globals.json") = Ok (ecp5_tree g) ->
      get_global_info_ecp5 fs part st = Ok g)
  /\ (forall (n : Z) (t : ptree),
        in_int n = true ->
        ecp5_tap ("C" +:+ to_string n, t) =
        (lx0 <- get_int "lx0" t ;;
         lx1 <- get_int "lx1" t ;;
         rx0 <- get_int "rx0" t ;;
         rx1 <- get_int "rx1" t ;;
         Ok {| TapSegment.tap_col := n; TapSegment.lx0 := lx0;
               TapSegment.lx1 := lx1; TapSegment.rx0 := rx0;
               TapSegment.rx1 := rx1 |}))
  /\ (forall (q : string) (n : Z) (t : ptree),
        String.length q = 2%nat ->
        in_int n = true ->
        ecp5_spine (q +:+ to_string n, t) =
        (y <- get_int "y" t ;;
         x <- get_int "x" t ;;
         Ok {| SpineSegment.quadrant := q; SpineSegment.tap_col := n;
               SpineSegment.spine_row := y; SpineSegment.spine_col := x |})).
Proof.
  split; [|split; [|split]].
  - unfold get_global_info_ecp5, parse_globals_ecp5. split.
    + intros H.
      apply bind_ok_inv in H as (glb & Hglb & H).
      apply bind_ok_inv in H as (quads & Hquads & H).
      apply bind_ok_inv in H as (qs & Hqs & H).
      apply bind_ok_inv in H as (taps & Htaps & H).
      apply bind_ok_inv in H as (ts & Hts & H).
      apply bind_ok_inv in H as (spines & Hspines & H).
      apply bind_ok_inv in H as (ss & Hss & [= <-]).
      exists glb, quads, taps, spines. simpl.
      apply (for_each_ok_rel _ _ _ _ ecp5_quadrant_iff) in Hqs.
      apply (for_each_ok_rel _ _ _ _ ecp5_tap_iff) in Hts.
      apply (for_each_ok_rel _ _ _ _ ecp5_spine_iff) in Hss.
      auto 10.
    + intros (glb & quads & taps & spines & Hglb & Hquads & Htaps & Hspines
              & Hqs & Hts & Hss).
      apply (for_each_ok_rel _ _ _ _ ecp5_quadrant_iff) in Hqs.
      apply (for_each_ok_rel _ _ _ _ ecp5_tap_iff) in Hts.
      apply (for_each_ok_rel _ _ _ _ ecp5_spine_iff) in Hss.
      rewrite Hglb. cbn [bind]. rewrite Hquads. cbn [bind].
      rewrite Hqs. cbn [bind]. rewrite Htaps. cbn [bind].
      rewrite Hts. cbn [bind]. rewrite Hspines. cbn [bind].
      rewrite Hss. cbn [bind]. destruct g; reflexivity.
  - intros (Hq & Ht & Hs) Hread.
    unfold get_global_info_ecp5, parse_globals_ecp5. rewrite Hread. cbn [bind].
    unfold ecp5_tree.
    rewrite (get_child_plain "quadrants") by reflexivity.
    rewrite (get_child_plain "taps") by reflexivity.
    rewrite (get_child_plain "spines") by reflexivity.
    cbn [children obj ptree_find String.eqb Ascii.eqb Bool.eqb bind].
    rewrite (for_each_map_back ecp5_quadrant ecp5_quadrant_member).
    2: { eapply Forall_impl; [exact Hq|]. intros rg. apply ecp5_quadrant_back. }
    cbn [bind].
    rewrite (for_each_map_back ecp5_tap ecp5_tap_member).
    2: { eapply Forall_impl; [exact Ht|]. intros ts. apply ecp5_tap_back. }
    cbn [bind].
    rewrite (for_each_map_back ecp5_spine ecp5_spine_member).
    2: { eapply Forall_impl; [exact Hs|]. intros ss. apply ecp5_spine_back. }
    cbn [bind]. destruct g; reflexivity.
  - intros n t Hn. unfold ecp5_tap. cbn [fst snd].
    change ("C" +:+ to_string n) with (String "C" (to_string n)).
    cbv beta iota. rewrite Ascii.eqb_refl. cbn [assert bind substr_from].
    rewrite (stoi_to_string n Hn). reflexivity.
  - intros q n t Hq Hn. apply string_length_2 in Hq as (a & b & ->).
    unfold ecp5_spine. cbn [fst snd].
    change (String a (String b EmptyString) +:+ to_string n)
      with (String a (String b (to_string n))).
    cbn [substr_prefix substr_from bind].
    rewrite (stoi_to_string n Hn). reflexivity.
Qed.

End Ecp5FileOrder.

Lemma get_global_info_ecp5_file_order_witness :
  get_global_info_ecp5
    (SampleGlobals.globals_fs (SampleGlobals.ecp5_file ["C12"; "C3"] ["UL12"; "LR3"]))
    Sample.part_FD SampleGlobals.st_FD
  = Ok {| Ecp5GlobalsInfo.quadrants :=
            [{| GlobalRegion.name := "UL"; GlobalRegion.x0 := 0;
                GlobalRegion.x1 := 1; GlobalRegion.y0 := 2;
                GlobalRegion.y1 := 3 |}];
          Ecp5GlobalsInfo.tapsegs :=
            [{| TapSegment.tap_col := 12; TapSegment.lx0 := 0;
                TapSegment.lx1 := 1; TapSegment.rx0 := 2; TapSegment.rx1 := 3 |};
             {| TapSegment.tap_col := 3; TapSegment.lx0 := 0;
                TapSegment.lx1 := 1; TapSegment.rx0 := 2; TapSegment.rx1 := 3 |}];
          Ecp5GlobalsInfo.spinesegs :=
            [{| SpineSegment.quadrant := "UL"; SpineSegment.tap_col := 12;
                SpineSegment.spine_row := 7; SpineSegment.spine_col := 8 |};
             {| SpineSegment.quadrant := "LR"; SpineSegment.tap_col := 3;
                SpineSegment.spine_row := 7; SpineSegment.spine_col := 8 |}] |}
  /\ get_global_info_ecp5
       (SampleGlobals.globals_fs (ecp5_tree SampleOrder.ecp5_value))
       Sample.part_FD SampleGlobals.st_FD
     = Ok SampleOrder.ecp5_value
  /\ ecp5_tap ("C" +:+ to_string 12, SampleGlobals.tap_entry)
     = Ok {| TapSegment.tap_col := 12; TapSegment.lx0 := 0;
             TapSegment.lx1 := 1; TapSegment.rx0 := 2; TapSegment.rx1 := 3 |}
  /\ ecp5_spine ("UL" +:+ to_string 12, SampleGlobals.spine_entry)
     = Ok {| SpineSegment.quadrant := "UL"; SpineSegment.tap_col := 12;
             SpineSegment.spine_row := 7; SpineSegment.spine_col := 8 |}.
Proof.
  split; [|split; [|split]].
  - apply (proj1 (get_global_info_ecp5_file_order _ _ _ _)).
    exists (SampleGlobals.ecp5_file ["C12"; "C3"] ["UL12"; "LR3"])%string.
    eexists. eexists. eexists.
    split; [reflexivity|]. split; [reflexivity|]. split; [reflexivity|].
    split; [reflexivity|]. cbn [children obj map].
    split; [|split].
    + repeat constructor.
    + constructor; [exists "12"%string; repeat split|].
      constructor; [exists "3"%string; repeat split|]. constructor.
    + constructor; [exists "U"%char, "L"%char, "12"%string; repeat split|].
      constructor; [exists "L"%char, "R"%char, "3"%string; repeat split|].
      constructor.
  - apply (proj1 (proj2 (get_global_info_ecp5_file_order _ _ _ _)));
      [|reflexivity].
    unfold ecp5_representable. simpl. repeat constructor.
  - exact (proj1 (proj2 (proj2 (get_global_info_ecp5_file_order
                                  (SampleGlobals.globals_fs SampleGlobals.tap_entry)
                                  Sample.part_FD SampleGlobals.st_FD
                                  SampleOrder.ecp5_value)))
             12 SampleGlobals.tap_entry eq_refl).
  - exact (proj2 (proj2 (proj2 (get_global_info_ecp5_file_order
                                  (SampleGlobals.globals_fs SampleGlobals.spine_entry)
                                  Sample.part_FD SampleGlobals.st_FD
                                  SampleOrder.ecp5_value)))
             "UL"%string 12 SampleGlobals.spine_entry eq_refl eq_refl).
Defined.

(** * MachXO2 globals: branch spans are looked up by key *)




Section MachXO2Spans.

Context {TileBitDatabase : Type}.
Implicit Types st : db_state TileBitDatabase.


End MachXO2Spans.

